(** * Subtitle repair: a shallow embedding of [cleanup_srt.py] and of the
    single-file sanitizer of [translate.py]

    Python [str] values are sequences of Unicode code points; they are
    modelled as lists of code points ([N]).  The string primitives the
    program calls ([strip], [split], [join], [isdigit], [replace],
    [re.match], [re.findall], [str], [pathlib]) are written out first,
    then the functions of the program in terms of them. *)

From Stdlib Require Import String Ascii.
From Stdlib Require Import List NArith Arith Bool Lia.
From Stdlib Require Decimal DecimalString DecimalNat DecimalFacts.
Import ListNotations.
Local Open Scope list_scope.

(** ** Code points and character classes *)

Definition char := N.
Definition str := list char.

Definition in_range (c : char) (r : N * N) : bool :=
  (N.leb (fst r) c && N.leb c (snd r))%bool.

Definition in_ranges (rs : list (N * N)) (c : char) : bool :=
  existsb (in_range c) rs.

(** [Py_UNICODE_ISSPACE]: used by [str.strip] and by [\s]. *)
Definition space_ranges : list (N * N) :=
  [ (9, 13); (28, 32); (133, 133); (160, 160); (5760, 5760); (8192, 8202);
    (8232, 8233); (8239, 8239); (8287, 8287); (12288, 12288) ]%N.

(** [Py_UNICODE_ISDIGIT] (Unicode 14.0, CPython 3.11): used by
    [str.isdigit]. *)
Definition digit_ranges : list (N * N) :=
  [ (48, 57); (178, 179); (185, 185); (1632, 1641); (1776, 1785); (1984, 1993);
    (2406, 2415); (2534, 2543); (2662, 2671); (2790, 2799); (2918, 2927);
    (3046, 3055); (3174, 3183); (3302, 3311); (3430, 3439); (3558, 3567);
    (3664, 3673); (3792, 3801); (3872, 3881); (4160, 4169); (4240, 4249);
    (4969, 4977); (6112, 6121); (6160, 6169); (6470, 6479); (6608, 6618);
    (6784, 6793); (6800, 6809); (6992, 7001); (7088, 7097); (7232, 7241);
    (7248, 7257); (8304, 8304); (8308, 8313); (8320, 8329); (9312, 9320);
    (9332, 9340); (9352, 9360); (9450, 9450); (9461, 9469); (9471, 9471);
    (10102, 10110); (10112, 10120); (10122, 10130); (42528, 42537);
    (43216, 43225); (43264, 43273); (43472, 43481); (43504, 43513);
    (43600, 43609); (44016, 44025); (65296, 65305); (66720, 66729);
    (68160, 68163); (68912, 68921); (69216, 69224); (69714, 69722);
    (69734, 69743); (69872, 69881); (69942, 69951); (70096, 70105);
    (70384, 70393); (70736, 70745); (70864, 70873); (71248, 71257);
    (71360, 71369); (71472, 71481); (71904, 71913); (72016, 72025);
    (72784, 72793); (73040, 73049); (73120, 73129); (92768, 92777);
    (92864, 92873); (93008, 93017); (120782, 120831); (123200, 123209);
    (123632, 123641); (125264, 125273); (127232, 127242); (130032, 130041) ]%N.

(** [Py_UNICODE_ISDECIMAL] (category Nd): the class [\d] of [re] on [str]
    patterns. *)
Definition decimal_ranges : list (N * N) :=
  [ (48, 57); (1632, 1641); (1776, 1785); (1984, 1993); (2406, 2415);
    (2534, 2543); (2662, 2671); (2790, 2799); (2918, 2927); (3046, 3055);
    (3174, 3183); (3302, 3311); (3430, 3439); (3558, 3567); (3664, 3673);
    (3792, 3801); (3872, 3881); (4160, 4169); (4240, 4249); (6112, 6121);
    (6160, 6169); (6470, 6479); (6608, 6617); (6784, 6793); (6800, 6809);
    (6992, 7001); (7088, 7097); (7232, 7241); (7248, 7257); (42528, 42537);
    (43216, 43225); (43264, 43273); (43472, 43481); (43504, 43513);
    (43600, 43609); (44016, 44025); (65296, 65305); (66720, 66729);
    (68912, 68921); (69734, 69743); (69872, 69881); (69942, 69951);
    (70096, 70105); (70384, 70393); (70736, 70745); (70864, 70873);
    (71248, 71257); (71360, 71369); (71472, 71481); (71904, 71913);
    (72016, 72025); (72784, 72793); (73040, 73049); (73120, 73129);
    (92768, 92777); (92864, 92873); (93008, 93017); (120782, 120831);
    (123200, 123209); (123632, 123641); (125264, 125273); (130032, 130041) ]%N.

Definition isspace_c : char -> bool := in_ranges space_ranges.
Definition isdigit_c : char -> bool := in_ranges digit_ranges.
Definition isdecimal_c : char -> bool := in_ranges decimal_ranges.

(** Named code points. *)
Definition NL : char := 10%N.
Definition COLON : char := 58%N.
Definition COMMA : char := 44%N.
Definition HYPHEN : char := 45%N.
Definition GREATER : char := 62%N.
Definition SLASH : char := 47%N.
Definition DOT : char := 46%N.

(** A string literal as a [str] (code points below 256). *)
Fixpoint lit (s : string) : str :=
  match s with
  | EmptyString => []
  | String a s' => N_of_ascii a :: lit s'
  end.

(** ** String primitives *)

Definition str_eqb (a b : str) : bool :=
  if list_eq_dec N.eq_dec a b then true else false.

Definition is_empty {A} (l : list A) : bool :=
  match l with [] => true | _ :: _ => false end.

(** [s.lstrip()], [s.rstrip()], [s.strip()] *)
Fixpoint lstrip (s : str) : str :=
  match s with
  | [] => []
  | c :: s' => if isspace_c c then lstrip s' else s
  end.

Definition rstrip (s : str) : str := rev (lstrip (rev s)).

Definition strip (s : str) : str := rstrip (lstrip s).

(** [s.split(sep)] for a one-character separator: never the empty list. *)
Fixpoint split (sep : char) (s : str) : list str :=
  match s with
  | [] => [[]]
  | c :: s' =>
      if N.eqb c sep then [] :: split sep s'
      else match split sep s' with
           | l :: ls => (c :: l) :: ls
           | [] => [[c]]
           end
  end.

(** [sep.join(ls)] for a one-character separator. *)
Fixpoint join (sep : char) (ls : list str) : str :=
  match ls with
  | [] => []
  | [l] => l
  | l :: ls' => l ++ sep :: join sep ls'
  end.

(** [s.isdigit()]: at least one character, and all of them digits. *)
Definition isdigit (s : str) : bool :=
  negb (is_empty s) && forallb isdigit_c s.

(** [s.startswith(p)] *)
Fixpoint startswith (s p : str) : bool :=
  match p, s with
  | [], _ => true
  | _ :: _, [] => false
  | a :: p', b :: s' => N.eqb a b && startswith s' p'
  end.

(** [p in s] *)
Fixpoint contains (s p : str) : bool :=
  startswith s p ||
  match s with
  | [] => false
  | _ :: s' => contains s' p
  end.

(** [s.replace(old, new, 1)]: the leftmost occurrence only. *)
Fixpoint replace1 (old new s : str) : str :=
  if startswith s old then new ++ skipn (length old) s
  else match s with
       | [] => []
       | c :: s' => c :: replace1 old new s'
       end.

(** [s.replace(old, new)] for a non-empty [old]: every occurrence, left to
    right, without overlap.  [skip] counts the characters of an occurrence
    still to pass over. *)
Fixpoint replace_from (skip : nat) (old new s : str) : str :=
  match s with
  | [] => []
  | c :: s' =>
      match skip with
      | S k => replace_from k old new s'
      | O =>
          if startswith s old
          then new ++ replace_from (length old - 1) old new s'
          else c :: replace_from 0 old new s'
      end
  end.

Definition replace_all (old new s : str) : str := replace_from 0 old new s.

(** [str(n)] for a non-negative integer. *)
Definition str_of_nat (n : nat) : str :=
  lit (DecimalString.NilZero.string_of_uint (Nat.to_uint n)).

(** ** Regular expressions

    The only pattern of the program is a sequence of single-character
    classes, two of them under a greedy star.  [re_seq] is the backtracking
    matcher of such a sequence anchored at the start of the subject, as
    [re.match] is; it returns what is left of the subject after the match. *)

Inductive atom : Type :=
  | One (p : char -> bool)
  | Star (p : char -> bool).

Fixpoint star_try (p : char -> bool) (k : str -> option str) (s : str)
  : option str :=
  match s with
  | [] => k []
  | c :: s' =>
      if p c then
        match star_try p k s' with
        | Some r => Some r
        | None => k s
        end
      else k s
  end.

Fixpoint re_seq (items : list atom) : str -> option str :=
  match items with
  | [] => fun s => Some s
  | One p :: rest =>
      fun s =>
        match s with
        | [] => None
        | c :: s' => if p c then re_seq rest s' else None
        end
  | Star p :: rest => star_try p (re_seq rest)
  end.

Definition is_char (a : char) : char -> bool := N.eqb a.

(** [\d{2}:\d{2}:\d{2},\d{3}] *)
Definition stamp : list atom :=
  [ One isdecimal_c; One isdecimal_c; One (is_char COLON);
    One isdecimal_c; One isdecimal_c; One (is_char COLON);
    One isdecimal_c; One isdecimal_c; One (is_char COMMA);
    One isdecimal_c; One isdecimal_c; One isdecimal_c ].

(** [\d{2}:\d{2}:\d{2},\d{3}\s*-->\s*\d{2}:\d{2}:\d{2},\d{3}]: the literal
    that [clean_srt_content], [fix_srt_numbering] and
    [extract_timestamps_from_content] each spell out. *)
Definition timestamp_pattern : list atom :=
  stamp ++
  [ Star isspace_c; One (is_char HYPHEN); One (is_char HYPHEN);
    One (is_char GREATER); Star isspace_c ] ++
  stamp.

(** [re.match(pattern, s)] as a truth value. *)
Definition re_match (pattern : list atom) (s : str) : bool :=
  match re_seq pattern s with
  | Some _ => true
  | None => false
  end.

(** [re.findall(pattern, s)] for a pattern without groups: the matched
    substrings, leftmost first, without overlap.  [skip] counts the
    characters of the last match still to pass over (a match of this
    program's pattern is never empty). *)
Fixpoint findall_from (skip : nat) (pattern : list atom) (s : str)
  : list str :=
  match s with
  | [] => []
  | _ :: s' =>
      match skip with
      | S k => findall_from k pattern s'
      | O =>
          match re_seq pattern s with
          | Some rest =>
              let m := firstn (length s - length rest) s in
              m :: findall_from (length m - 1) pattern s'
          | None => findall_from 0 pattern s'
          end
      end
  end.

Definition re_findall (pattern : list atom) (s : str) : list str :=
  findall_from 0 pattern s.

(** ** cleanup_srt.py *)

(** The [while i < len(lines)] loop of [clean_srt_content].  Every branch
    advances [i] by one, so the loop runs over the suffix [lines[i:]]:
    [raw] is [lines[i]] and [rest] is [lines[i+1:]]; [i + 1 < len(lines)]
    is [rest] being non-empty. *)
Fixpoint clean_loop (lines : list str) (cleaned_lines : list str)
  : list str :=
  match lines with
  | [] => cleaned_lines
  | raw :: rest =>
      let line := strip raw in
      if is_empty line && is_empty cleaned_lines then
        clean_loop rest cleaned_lines
      else if isdigit line then
        if match rest with
           | nxt :: _ => isdigit (strip nxt)
           | [] => false
           end
        then clean_loop rest cleaned_lines
        else if match rest with
                | nxt :: _ => re_match timestamp_pattern (strip nxt)
                | [] => false
                end
        then clean_loop rest (cleaned_lines ++ [line])
        else clean_loop rest cleaned_lines
      else clean_loop rest (cleaned_lines ++ [line])
  end.

Definition clean_srt_content (content : str) : str :=
  let lines := split NL (strip content) in
  join NL (clean_loop lines []).

(** The loop of [fix_srt_numbering], with the counter [subtitle_number]. *)
Fixpoint fix_loop (lines : list str) (subtitle_number : nat)
  (fixed_lines : list str) : list str :=
  match lines with
  | [] => fixed_lines
  | raw :: rest =>
      let line := strip raw in
      if is_empty line && is_empty fixed_lines then
        fix_loop rest subtitle_number fixed_lines
      else if isdigit line then
        if match rest with
           | nxt :: _ => re_match timestamp_pattern (strip nxt)
           | [] => false
           end
        then fix_loop rest (subtitle_number + 1)
               (fixed_lines ++ [str_of_nat subtitle_number])
        else fix_loop rest subtitle_number fixed_lines
      else fix_loop rest subtitle_number (fixed_lines ++ [line])
  end.

Definition fix_srt_numbering (content : str) : str :=
  let lines := split NL (strip content) in
  join NL (fix_loop lines 1 []).

Definition extract_timestamps_from_content (content : str) : list str :=
  re_findall timestamp_pattern content.

(** *** Exceptions and files

    A call either returns a value or raises.  The file system is what
    [open(path, 'r', encoding='utf-8').read()] gives for each path: the
    decoded content, or the exception raised.  Console output ([print]) is
    not part of the model. *)

Inductive exn : Type :=
  | IndexError
  | FileNotFoundError
  | PermissionError
  | IsADirectoryError
  | UnicodeDecodeError.

Inductive result (A : Type) : Type :=
  | Ok (a : A)
  | Raise (e : exn).

Arguments Ok {A} a.
Arguments Raise {A} e.

Definition bind {A B} (m : result A) (f : A -> result B) : result B :=
  match m with
  | Ok a => f a
  | Raise e => Raise e
  end.

Notation "x <- m ;; k" := (bind m (fun x => k))
  (at level 61, m at next level, right associativity).

(** [try: body / except Exception: handler] *)
Definition try_except {A} (body : result A) (handler : exn -> result A)
  : result A :=
  match body with
  | Ok a => Ok a
  | Raise e => handler e
  end.

Definition filesystem := str -> result str.

(** *** pathlib (PurePosixPath)

    A path is its root ([""], ["/"] or ["//"]) and its name components;
    parsing drops empty components and ["."]. *)

Record PurePath : Type := { root : str; names : list str }.

Fixpoint lstrip_sep (s : str) : str :=
  match s with
  | [] => []
  | c :: s' => if N.eqb c SLASH then lstrip_sep s' else s
  end.

Definition Path (s : str) : PurePath :=
  let rel := lstrip_sep s in
  let n := length s - length rel in
  {| root := if Nat.eqb n 0 then []
             else if Nat.eqb n 2 then [SLASH; SLASH] else [SLASH];
     names := filter (fun x => negb (is_empty x) && negb (str_eqb x [DOT]))
                (split SLASH rel) |}.

Definition path_parent (p : PurePath) : PurePath :=
  {| root := root p; names := removelast (names p) |}.

Definition path_name (p : PurePath) : str := last (names p) [].

(** [s.rfind(c)] for a character [c]; [None] is Python's [-1]. *)
Fixpoint rfind (c : char) (s : str) : option nat :=
  match s with
  | [] => None
  | a :: s' =>
      match rfind c s' with
      | Some i => Some (S i)
      | None => if N.eqb a c then Some 0 else None
      end
  end.

Definition path_stem (p : PurePath) : str :=
  let name := path_name p in
  match rfind DOT name with
  | Some i =>
      if Nat.ltb 0 i && Nat.ltb i (length name - 1) then firstn i name
      else name
  | None => name
  end.

(** [p.parents[idx]] *)
Definition path_parents (p : PurePath) (idx : nat) : result PurePath :=
  if Nat.leb (length (names p)) idx then Raise IndexError
  else Ok {| root := root p;
             names := firstn (length (names p) - idx - 1) (names p) |}.

(** [p / key] *)
Definition path_div (p : PurePath) (key : str) : PurePath :=
  let k := Path key in
  if is_empty (root k)
  then {| root := root p; names := names p ++ names k |}
  else k.

(** [str(p)] *)
Definition path_str (p : PurePath) : str :=
  let s := root p ++ join SLASH (names p) in
  if is_empty s then [DOT] else s.

Definition find_source_file (processed_file_path : str) : result str :=
  let processed_path := Path processed_file_path in
  let series_name := path_name (path_parent processed_path) in
  let original_filename :=
    replace_all (lit "_telugu") [] (path_stem processed_path) in
  let original_filename_with_ext := original_filename ++ lit ".srt" in
  base_folder <- path_parents processed_path 2 ;;
  let source_file_path :=
    path_div (path_div base_folder series_name) original_filename_with_ext in
  Ok (path_str source_file_path).

Definition replace_timestamps_with_originals (fs : filesystem)
  (processed_content source_file_path : str) : result str :=
  try_except
    (source_content <- fs source_file_path ;;
     let source_timestamps := extract_timestamps_from_content source_content in
     if is_empty source_timestamps then Ok processed_content
     else
       let processed_timestamps :=
         extract_timestamps_from_content processed_content in
       if negb (Nat.eqb (length source_timestamps)
                        (length processed_timestamps))
       then Ok processed_content
       else
         Ok (fold_left
               (fun result_content ts =>
                  replace1 (snd ts) (fst ts) result_content)
               (combine source_timestamps processed_timestamps)
               processed_content))
    (fun _ => Ok processed_content).

(** ** translate.py *)

(** [os.path.basename], [os.path.splitext(...)[0]] and [os.path.join]
    (posixpath). *)
Definition basename (p : str) : str :=
  match rfind SLASH p with
  | Some i => skipn (S i) p
  | None => p
  end.

Definition splitext_root (p : str) : str :=
  let sep_index := match rfind SLASH p with Some i => S i | None => 0 end in
  match rfind DOT p with
  | Some dot_index =>
      if Nat.leb sep_index dot_index
         && existsb (fun c => negb (N.eqb c DOT))
              (skipn sep_index (firstn dot_index p))
      then firstn dot_index p
      else p
  | None => p
  end.

Definition endswith_sep (p : str) : bool :=
  match rev p with
  | c :: _ => N.eqb c SLASH
  | [] => false
  end.

Definition path_join2 (path b : str) : str :=
  if startswith b [SLASH] then b
  else if is_empty path || endswith_sep path then path ++ b
  else path ++ SLASH :: b.

Definition os_path_join (a : str) (ps : list str) : str :=
  fold_left path_join2 ps a.

(** The [for line in content_lines] loop of
    [save_single_transliterated_file], with its two variables. *)
Fixpoint sanitize_loop (series_name : str) (content_lines : list str)
  (subtitle_found : bool) (cleaned_content : list str) : list str :=
  match content_lines with
  | [] => cleaned_content
  | raw :: rest =>
      let line := strip raw in
      if negb (is_empty line) && isdigit line then
        if negb subtitle_found && negb (str_eqb line (lit "1")) then
          sanitize_loop series_name rest true
            (cleaned_content ++ [lit "1"] ++ [line])
        else
          sanitize_loop series_name rest subtitle_found
            (cleaned_content ++ [line])
      else if negb (is_empty line) && contains line [COLON]
              && contains line (lit "-->") then
        sanitize_loop series_name rest subtitle_found
          (cleaned_content ++ [line])
      else if negb (is_empty line) && negb (startswith line (lit "==="))
              && negb (startswith line series_name) then
        sanitize_loop series_name rest subtitle_found
          (cleaned_content ++ [line])
      else sanitize_loop series_name rest subtitle_found cleaned_content
  end.

(** [save_single_transliterated_file] up to its call of
    [save_transliterated_srt(final_content, output_path)]: the path and the
    content it asks to be written. *)
Definition save_single_transliterated_file
  (transliterated_content original_file_path series_name
     base_output_folder : str) : str * str :=
  let content_lines := split NL (strip transliterated_content) in
  let cleaned_content := sanitize_loop series_name content_lines false [] in
  let final_content := join NL cleaned_content in
  let original_filename := basename original_file_path in
  let name_without_ext := splitext_root original_filename in
  let telugu_filename := name_without_ext ++ lit "_telugu.srt" in
  let output_path :=
    os_path_join base_output_folder
      [lit "processed"; series_name; telugu_filename] in
  (output_path, final_content).

(** * Definitions for the statements and proofs *)

(** ** Character classes and whitespace *)

(** Two tables of ranges without a common code point. *)
Definition ranges_disjoint (r1 r2 : list (N * N)) : bool :=
  forallb
    (fun a => forallb (fun b => N.ltb (snd a) (fst b) || N.ltb (snd b) (fst a)) r2)
    r1.

Definition starts_ws (s : str) : bool :=
  match s with
  | c :: _ => isspace_c c
  | [] => false
  end.

Definition ends_ws (s : str) : bool := starts_ws (rev s).

Definition ascii_digit (c : char) : Prop := (48 <= c <= 57)%N.

(** A matcher that succeeds on a subject succeeds on every extension of
    it, with the extension left over. *)
Definition extends (k : str -> option str) : Prop :=
  forall s r t, k s = Some r -> k (s ++ t) = Some (r ++ t).

(** ** The two loops, line by line

    [confirmed rest] is the lookahead test both loops apply to a numeric
    line: there is a next line and, stripped, it starts with a time
    interval.  [clean_emit] and [fix_emit] give what a loop appends to its
    buffer; [started] says whether the buffer is non-empty. *)

Definition confirmed (rest : list str) : bool :=
  match rest with
  | nxt :: _ => re_match timestamp_pattern (strip nxt)
  | [] => false
  end.

Definition next_isdigit (rest : list str) : bool :=
  match rest with
  | nxt :: _ => isdigit (strip nxt)
  | [] => false
  end.

Fixpoint clean_emit (lines : list str) (started : bool) : list str :=
  match lines with
  | [] => []
  | raw :: rest =>
      let line := strip raw in
      if isdigit line then
        if confirmed rest then line :: clean_emit rest true
        else clean_emit rest started
      else if is_empty line && negb started then clean_emit rest started
      else line :: clean_emit rest true
  end.

Fixpoint fix_emit (lines : list str) (k : nat) (started : bool) : list str :=
  match lines with
  | [] => []
  | raw :: rest =>
      let line := strip raw in
      if isdigit line then
        if confirmed rest then str_of_nat k :: fix_emit rest (k + 1) true
        else fix_emit rest k started
      else if is_empty line && negb started then fix_emit rest k started
      else line :: fix_emit rest k true
  end.

(** ** Output buffers *)

(** A line of the buffer: stripped and on one line. *)
Definition tidy (l : str) : Prop := strip l = l /\ ~ In NL l.

Definition head_nonblank (ls : list str) : Prop :=
  match ls with
  | [] => True
  | l :: _ => l <> []
  end.

(** ** Documents, cue by cue *)

(** A well-formed document: cue after cue, each a number line, an interval
    line and at least one text line; a text line is a line that is neither
    a number nor an interval (it may be blank). *)
Record cue : Type :=
  { cue_number : str; cue_interval : str; cue_text : list str }.

Definition cue_lines (c : cue) : list str :=
  cue_number c :: cue_interval c :: cue_text c.

Definition is_number_line (l : str) : bool := isdigit (strip l).

Definition is_interval_line (l : str) : bool :=
  re_match timestamp_pattern (strip l).

Definition is_text_line (l : str) : bool :=
  negb (is_number_line l) && negb (is_interval_line l).

Definition well_formed_cue (c : cue) : bool :=
  is_number_line (cue_number c) && is_interval_line (cue_interval c)
  && negb (is_empty (cue_text c)) && forallb is_text_line (cue_text c).

(** What renumbering makes of a list of cues, counting from [k]. *)
Fixpoint renumbered (k : nat) (cues : list cue) : list str :=
  match cues with
  | [] => []
  | c :: cs =>
      str_of_nat k :: strip (cue_interval c) :: map strip (cue_text c)
      ++ renumbered (k + 1) cs
  end.

(** ** Buffers of the renumbering pass *)

(** A buffer without its trailing blank lines. *)
Fixpoint trim (ls : list str) : list str :=
  match ls with
  | [] => []
  | l :: ls' =>
      match trim ls' with
      | [] => if is_empty l then [] else [l]
      | t => l :: t
      end
  end.

(** What a buffer of [fix_srt_numbering] looks like from counter [k] on:
    stripped non-numeric lines, and numbers [k], [k+1], ... each followed
    by a line that starts with an interval. *)
Inductive fixed : nat -> list str -> Prop :=
  | fixed_nil k : fixed k []
  | fixed_text k l ls :
      strip l = l -> isdigit l = false -> fixed k ls -> fixed k (l :: ls)
  | fixed_num k t ls :
      strip t = t -> re_match timestamp_pattern t = true ->
      fixed (k + 1) (t :: ls) -> fixed k (str_of_nat k :: t :: ls).

(** ** Lines that are not numbers *)

Fixpoint drop_while {A} (f : A -> bool) (l : list A) : list A :=
  match l with
  | [] => []
  | a :: l' => if f a then drop_while f l' else l
  end.

Definition blank_or_number (l : str) : bool :=
  is_number_line l || is_empty (strip l).

Definition not_number (l : str) : bool := negb (isdigit l).

(** The lines of a document; the empty document has none. *)
Definition output_lines (s : str) : list str :=
  if is_empty s then [] else split NL s.

(** What both passes keep of the lines that are not numbers: from the
    first line that is neither blank nor a number on, each of them,
    stripped. *)
Definition kept_text (lines : list str) : list str :=
  map strip
    (filter (fun l => negb (is_number_line l))
       (drop_while blank_or_number lines)).

(** ** Example files and documents *)

(** A file system with one readable file. *)
Definition single_file (path content : str) : filesystem :=
  fun p => if str_eqb p path then Ok content else Raise FileNotFoundError.

Definition interval_A : str := lit "00:00:01,000 --> 00:00:02,000".

Definition interval_B : str := lit "00:00:03,000 --> 00:00:04,000".

Definition interval_C : str := lit "00:00:05,000 --> 00:00:06,000".

Definition interval_D : str := lit "00:00:07,000 --> 00:00:08,000".

Definition source_path : str := lit "/base/show/ep1.srt".

(** Three cues in the processed document, four in the original. *)
Definition processed_three : str :=
  join NL [lit "1"; interval_A; lit "a"; lit "2"; interval_B; lit "b";
           lit "3"; interval_C; lit "c"].

Definition original_four : str :=
  join NL [lit "1"; interval_A; lit "a"; lit "2"; interval_B; lit "b";
           lit "3"; interval_C; lit "c"; lit "4"; interval_D; lit "d"].

(** The processed document carries the intervals [A; B] where the original
    has [B; C]. *)
Definition processed_shifted : str :=
  join NL [lit "1"; interval_A; lit "a"; lit "2"; interval_B; lit "b"].

Definition original_shifted : str :=
  join NL [lit "1"; interval_B; lit "a"; lit "2"; interval_C; lit "b"].

(** A response of the service that numbers its two cues 1 and 2. *)
Definition response_numbered : str :=
  join NL [lit "1"; interval_A; lit "Hi"; lit "2"; interval_B; lit "Yo"].

(** A blank line and a stray number at the end. *)
Definition doc_trailing_number : str := join NL [lit "Hello"; []; lit "3"].

(** A text line with spaces on both sides. *)
Definition doc_padded_line : str :=
  join NL [lit "a"; lit "  Hello  "; lit "b"].

(** Two cues with wrong numbers, blank lines between them and a trailing
    newline. *)
Definition two_cues : list cue :=
  [ {| cue_number := lit "3"; cue_interval := interval_A;
       cue_text := [lit "Hello"; []] |};
    {| cue_number := lit "9"; cue_interval := interval_B;
       cue_text := [lit "World"] |} ].

Definition doc_two_cues : str :=
  join NL [lit "3"; interval_A; lit "Hello"; []; lit "9"; interval_B;
           lit "World"; []].

(** The first scenario of the specification: [1], [1], an interval, a text
    line and a stray [3]. *)
Definition doc_duplicate_number : str :=
  join NL [lit "1"; lit "1"; interval_A; lit "Hello"; lit "3"; []].

(** An interval line with more text after the interval. *)
Definition interval_with_tail : str :=
  lit "  00:00:01,000 --> 00:00:02,000 X1:100 Y1:50".

(** The second scenario of the specification: a number that no interval
    follows. *)
Definition doc_stray_number : str := join NL [lit "5"; lit "Some text"; []].

(** Padded lines, a trailing newline, no number at the end. *)
Definition doc_padded : str :=
  join NL [lit "  Hello"; lit "World "; []].

(** * Further definitions *)

(** ** Buffers of the duplicate filter *)

(** What a buffer of [clean_srt_content] looks like: stripped lines, every
    number directly followed by a line that starts with an interval. *)
Inductive filtered : list str -> Prop :=
  | filtered_nil : filtered []
  | filtered_text l ls :
      strip l = l -> isdigit l = false -> filtered ls -> filtered (l :: ls)
  | filtered_num n t ls :
      strip n = n -> isdigit n = true ->
      strip t = t -> re_match timestamp_pattern t = true ->
      filtered (t :: ls) -> filtered (n :: t :: ls).

(** The numbers of a buffer replaced by [k], [k+1], ... *)
Fixpoint renumber (k : nat) (buf : list str) : list str :=
  match buf with
  | [] => []
  | l :: ls =>
      if isdigit l then str_of_nat k :: renumber (k + 1) ls
      else l :: renumber k ls
  end.

(** Every number of a list of lines is directly followed by a line that
    starts with an interval. *)
Fixpoint numbers_followed (ls : list str) : bool :=
  match ls with
  | [] => true
  | l :: rest =>
      (negb (isdigit l)
       || match rest with
          | t :: _ => re_match timestamp_pattern t
          | [] => false
          end)
      && numbers_followed rest
  end.

(** ** Intervals in a text *)

(** [m] is an interval and nothing more. *)
Definition exact (m : str) : bool :=
  match re_seq timestamp_pattern m with
  | Some [] => true
  | _ => false
  end.

(** A text cut into gaps and matches: gap, match, gap, match, ..., tail. *)
Fixpoint unscan (pieces : list (str * str)) (tail : str) : str :=
  match pieces with
  | [] => tail
  | (g, m) :: ps => g ++ m ++ unscan ps tail
  end.

(** A matcher gives back a suffix of its subject, and matches what it
    consumed on its own. *)
Definition splits (k : str -> option str) : Prop :=
  forall s r, k s = Some r -> exists m, s = m ++ r /\ k m = Some [].

(** A timestamp ([\d{2}:\d{2}:\d{2},\d{3}]) starts the text, or starts
    somewhere in it. *)
Definition stamp_at (s : str) : bool :=
  match re_seq stamp s with
  | Some _ => true
  | None => false
  end.

Fixpoint has_stamp (s : str) : bool :=
  stamp_at s
  || match s with
     | [] => false
     | _ :: s' => has_stamp s'
     end.

Definition one_line (l : str) : bool :=
  forallb (fun c => negb (N.eqb c NL)) l.

(** A line of a document whose intervals stand on lines of their own:
    either an interval and nothing more, or a line without a timestamp. *)
Definition doc_line (l : str) : bool :=
  one_line l && (exact l || negb (has_stamp l)).

(** The interval lines of a document replaced, in order, by [ss]. *)
Fixpoint restore (lines ss : list str) : list str :=
  match lines with
  | [] => []
  | l :: ls =>
      if exact l then
        match ss with
        | s :: ss' => s :: restore ls ss'
        | [] => l :: restore ls []
        end
      else l :: restore ls ss
  end.

(** No interval of [ss] is an interval of [ps] at a later position. *)
Fixpoint safe (ss ps : list str) : bool :=
  match ss, ps with
  | s :: ss', _ :: ps' => negb (existsb (str_eqb s) ps') && safe ss' ps'
  | _, _ => true
  end.

Definition count_nonspace (s : str) : nat :=
  length (filter (fun c => negb (isspace_c c)) s).

(** A pattern whose single characters are never whitespace and whose
    stars are over whitespace only; [ones] counts its single characters. *)
Fixpoint classed (items : list atom) : Prop :=
  match items with
  | [] => True
  | One p :: rest =>
      (forall c, p c = true -> isspace_c c = false) /\ classed rest
  | Star p :: rest =>
      (forall c, p c = true -> isspace_c c = true) /\ classed rest
  end.

Fixpoint ones (items : list atom) : nat :=
  match items with
  | [] => 0
  | One _ :: rest => S (ones rest)
  | Star _ :: rest => ones rest
  end.

(** Each line followed by a newline. *)
Definition lineblock (ls : list str) : str :=
  flat_map (fun l => l ++ [NL]) ls.

(** The original of [processed_shifted] in the other direction: intervals
    [C; A] against the processed [A; B]. *)
Definition original_swapped : str :=
  join NL [lit "1"; interval_C; lit "a"; lit "2"; interval_A; lit "b"].

(** ** cleanup_srt.py: one file *)

(** What [process_srt_file] meets outside: reading a file, asking whether a
    path exists, writing a file ([open(..., 'w')] and [f.write]). *)
Record os_env : Type :=
  { env_read : filesystem;
    env_exists : str -> bool;
    env_write : str -> str -> result unit }.

(** The content [process_srt_file] is about to write, or the exception
    raised on the way. *)
Definition final_content_of (env : os_env) (file_path : str) : result str :=
  content <- env_read env file_path ;;
  let cleaned_content := clean_srt_content content in
  let fixed_content := fix_srt_numbering cleaned_content in
  source_file_path <- find_source_file file_path ;;
  if env_exists env source_file_path
  then replace_timestamps_with_originals (env_read env) fixed_content
         source_file_path
  else Ok fixed_content.

(** [process_srt_file]: the write it attempts (path and content), if it
    gets that far, and the value it returns. *)
Definition process_srt_file (env : os_env) (file_path : str)
  : option (str * str) * bool :=
  match final_content_of env file_path with
  | Raise _ => (None, false)
  | Ok final_content =>
      (Some (file_path, final_content),
       match env_write env file_path final_content with
       | Ok _ => true
       | Raise _ => false
       end)
  end.

(** An environment with one file, readable and writable, and nothing
    else. *)
Definition lone_file (path content : str) : os_env :=
  {| env_read := single_file path content;
     env_exists := fun p => str_eqb p path;
     env_write := fun p _ =>
       if str_eqb p path then Ok tt else Raise PermissionError |}.

(** ** Names of files and folders *)

Definition has_char (c : char) (s : str) : bool := existsb (N.eqb c) s.

(** A name of one path component: not empty, no [/], not [.]. *)
Definition plain_name (n : str) : bool :=
  negb (is_empty n) && negb (has_char SLASH n) && negb (str_eqb n [DOT]).

(** A file name without its [.srt]: no [/], not dots only, and no
    [_telugu] in it. *)
Definition plain_stem (stem : str) : bool :=
  negb (has_char SLASH stem)
  && existsb (fun c => negb (N.eqb c DOT)) stem
  && negb (contains stem (lit "_telugu")).

(** The components [pathlib] keeps when it parses a path. *)
Definition kept_component (x : str) : bool :=
  negb (is_empty x) && negb (str_eqb x [DOT]).

(** ** translate.py: the sanitizer, line by line *)

(** The three tests of the loop of [save_single_transliterated_file] on a
    stripped line: a number, something like a timestamp, text that is no
    header. *)
Definition looks_number (line : str) : bool :=
  negb (is_empty line) && isdigit line.

Definition looks_timestamp (line : str) : bool :=
  negb (is_empty line) && contains line [COLON] && contains line (lit "-->").

Definition looks_text (series_name line : str) : bool :=
  negb (is_empty line) && negb (startswith line (lit "==="))
  && negb (startswith line series_name).

Definition sanitizer_keeps (series_name line : str) : bool :=
  looks_number line || looks_timestamp line || looks_text series_name line.

(** What the loop appends to its buffer. *)
Fixpoint sanitize_emit (series_name : str) (content_lines : list str)
  (subtitle_found : bool) : list str :=
  match content_lines with
  | [] => []
  | raw :: rest =>
      let line := strip raw in
      if looks_number line then
        if negb subtitle_found && negb (str_eqb line (lit "1")) then
          lit "1" :: line :: sanitize_emit series_name rest true
        else line :: sanitize_emit series_name rest subtitle_found
      else if looks_timestamp line || looks_text series_name line then
        line :: sanitize_emit series_name rest subtitle_found
      else sanitize_emit series_name rest subtitle_found
  end.

(** A [1] put before the first number that is not [1]. *)
Fixpoint insert_one (ls : list str) : list str :=
  match ls with
  | [] => []
  | l :: rest =>
      if isdigit l && negb (str_eqb l (lit "1")) then lit "1" :: l :: rest
      else l :: insert_one rest
  end.

(** The cleaned lines of [save_single_transliterated_file]. *)
Definition sanitized_lines (transliterated_content series_name : str)
  : list str :=
  sanitize_loop series_name (split NL (strip transliterated_content)) false [].

(** A response whose first number is [7]. *)
Definition response_from_seven : str :=
  join NL [lit "=== ep1 ==="; lit "7"; interval_A; lit "Hi"; [];
           lit "8"; interval_B; lit "Yo"].

(** ** translate.py: one request after the other *)

(** The exceptions [process_single_file] tells apart: a timeout of the
    request, another exception of the requests library, anything else. *)
Inductive exc_class : Type :=
  | ExcTimeout
  | ExcRequest
  | ExcOther.

Inductive attempt_result (A : Type) : Type :=
  | Value (a : A)
  | Throws (e : exc_class).

Arguments Value {A} a.
Arguments Throws {A} e.

Definition and_then {A B} (m : attempt_result A) (f : A -> attempt_result B)
  : attempt_result B :=
  match m with
  | Value a => f a
  | Throws e => Throws e
  end.

(** What [response.json()] returns: the Python value of a JSON text.  A
    number is kept as its literal; an object is its items, a key once. *)
#[warnings="-register-all"] Inductive json : Type :=
  | JNull
  | JBool (b : bool)
  | JNum (literal : str)
  | JStr (s : str)
  | JList (items : list json)
  | JDict (items : list (str * json)).

Definition is_key (key : str) (x : json) : bool :=
  match x with
  | JStr s => str_eqb s key
  | _ => false
  end.

(** [key in x] *)
Definition py_in (key : str) (x : json) : attempt_result bool :=
  match x with
  | JDict items => Value (existsb (fun kv => str_eqb (fst kv) key) items)
  | JList items => Value (existsb (is_key key) items)
  | JStr s => Value (contains s key)
  | _ => Throws ExcOther
  end.

(** [x[key]] for a string [key] *)
Definition py_item (x : json) (key : str) : attempt_result json :=
  match x with
  | JDict items =>
      match find (fun kv => str_eqb (fst kv) key) items with
      | Some kv => Value (snd kv)
      | None => Throws ExcOther
      end
  | _ => Throws ExcOther
  end.

(** [x[0]] *)
Definition py_first (x : json) : attempt_result json :=
  match x with
  | JList (a :: _) => Value a
  | JStr (c :: _) => Value (JStr [c])
  | _ => Throws ExcOther
  end.

(** [len(x)] *)
Definition py_len (x : json) : attempt_result nat :=
  match x with
  | JDict items => Value (length items)
  | JList items => Value (length items)
  | JStr s => Value (length s)
  | _ => Throws ExcOther
  end.

(** The checks of [process_single_file] on the parsed response and the
    lookup [result['candidates'][0]['content']['parts'][0]['text']]:
    the text, or [None] for one of the two "invalid response structure"
    branches. *)
Definition candidate_text (result : json) : attempt_result (option json) :=
  and_then (py_in (lit "candidates") result) (fun has_candidates =>
  and_then (if has_candidates
            then and_then (py_item result (lit "candidates")) (fun cs =>
                 and_then (py_len cs) (fun n => Value (Nat.ltb 0 n)))
            else Value false) (fun some_candidate =>
  if some_candidate then
    let first_candidate :=
      and_then (py_item result (lit "candidates")) py_first in
    and_then first_candidate (fun c0 =>
    and_then (py_in (lit "content") c0) (fun has_content =>
    and_then (if has_content
              then and_then first_candidate (fun c0' =>
                   and_then (py_item c0' (lit "content")) (fun ct =>
                   py_in (lit "parts") ct))
              else Value false) (fun has_parts =>
    if has_parts then
      and_then first_candidate (fun c0' =>
      and_then (py_item c0' (lit "content")) (fun ct =>
      and_then (py_item ct (lit "parts")) (fun ps =>
      and_then (py_first ps) (fun p0 =>
      and_then (py_item p0 (lit "text")) (fun text =>
      Value (Some text))))))
    else Value None)))
  else Value None)).

(** A response of [requests.post]: its [ok], its [status_code], and what
    [json()] does. *)
Record response : Type :=
  { ok : bool; status_code : nat; json_body : attempt_result json }.

(** What a run of [process_single_file] did: the requests it made, the
    file it tried to save, and the value it returned. *)
Record run : Type :=
  { posts : nat; saved : option (str * str); returned : bool }.

Definition one_more_post (r : run) : run :=
  {| posts := S (posts r); saved := saved r; returned := returned r |}.

Definition gives_up : run :=
  {| posts := 0; saved := None; returned := false |}.

(** [save_single_transliterated_file] called with the text of the
    response: a text that is no string has no [strip], the exception is
    caught inside, nothing is saved; [save_ok] is whether
    [save_transliterated_srt] gets the file written. *)
Definition save_text (save_ok : str -> str -> bool)
  (text : json) (file_path series_name base_output_folder : str) : run :=
  match text with
  | JStr transliterated_content =>
      let w := save_single_transliterated_file transliterated_content
                 file_path series_name base_output_folder in
      {| posts := 0; saved := Some w; returned := save_ok (fst w) (snd w) |}
  | _ => gives_up
  end.

(** The [for attempt in range(max_retries)] loop: [remaining] attempts
    are left, [attempt] is the index of the next one, and [post attempt]
    is what [requests.post] does then. *)
Fixpoint retry_loop (post : nat -> attempt_result response)
  (save_ok : str -> str -> bool)
  (file_path series_name base_output_folder : str)
  (remaining attempt : nat) : run :=
  match remaining with
  | O => gives_up
  | S k =>
      let next :=
        retry_loop post save_ok file_path series_name base_output_folder
          k (S attempt) in
      one_more_post
        match post attempt with
        | Throws ExcTimeout => next
        | Throws ExcRequest => next
        | Throws ExcOther => gives_up
        | Value r =>
            if ok r then
              match json_body r with
              | Throws ExcTimeout => next
              | Throws ExcRequest => next
              | Throws ExcOther => gives_up
              | Value result =>
                  match candidate_text result with
                  | Throws ExcTimeout => next
                  | Throws ExcRequest => next
                  | Throws ExcOther => gives_up
                  | Value None => next
                  | Value (Some text) =>
                      save_text save_ok text file_path series_name
                        base_output_folder
                  end
              end
            else if Nat.eqb (status_code r) 429 then next
            else if Nat.leb 500 (status_code r) then next
            else gives_up
        end
  end.

Definition max_retries : nat := 3.

Definition process_single_file (post : nat -> attempt_result response)
  (save_ok : str -> str -> bool)
  (series_name file_name file_path content base_output_folder : str) : run :=
  retry_loop post save_ok file_path series_name base_output_folder
    max_retries 0.

(** The response the service is expected to give for a text. *)
Definition well_formed_result (text : str) : json :=
  JDict [(lit "candidates",
          JList [JDict [(lit "content",
                         JDict [(lit "parts",
                                 JList [JDict [(lit "text", JStr text)]])])]])].

(** A response with the status of a client error, and a response that is
    fine but for its content: an object without [candidates]. *)
Definition forbidden : response :=
  {| ok := false; status_code := 403; json_body := Value JNull |}.

Definition no_candidates : response :=
  {| ok := true; status_code := 200;
     json_body := Value (JDict [(lit "error", JStr (lit "busy"))]) |}.

(** The outcomes of a request after which the loop goes on to the next
    attempt: a timeout, a request error, a rate limit, a server error. *)
Definition transient (a : attempt_result response) : bool :=
  match a with
  | Throws ExcTimeout => true
  | Throws ExcRequest => true
  | Throws ExcOther => false
  | Value r =>
      negb (ok r) &&
      (Nat.eqb (status_code r) 429 || Nat.leb 500 (status_code r))
  end.

(** Two timeouts, then nothing but server errors. *)
Definition flaky (attempt : nat) : attempt_result response :=
  if Nat.ltb attempt 2 then Throws ExcTimeout
  else Value {| ok := false; status_code := 503; json_body := Value JNull |}.

(** Two timeouts, then the expected response. *)
Definition third_time_lucky (text : str) (attempt : nat)
  : attempt_result response :=
  if Nat.ltb attempt 2 then Throws ExcTimeout
  else Value {| ok := true; status_code := 200;
                json_body := Value (well_formed_result text) |}.

(** ** translate.py: reading a file, and a series of files *)

Definition encodings : list str :=
  [lit "utf-8"; lit "utf-8-sig"; lit "latin-1"; lit "cp1252"].

(** The loop of [read_srt_file] over the encodings; [read_as encoding] is
    what opening and reading the file with that encoding gives. *)
Fixpoint first_readable (read_as : str -> result str) (encs : list str)
  : str :=
  match encs with
  | [] => []
  | encoding :: rest =>
      match read_as encoding with
      | Ok content =>
          if negb (is_empty (strip content)) then content
          else first_readable read_as rest
      | Raise _ => first_readable read_as rest
      end
  end.

Definition read_srt_file (read_as : str -> str -> result str)
  (file_path : str) : str :=
  first_readable (read_as file_path) encodings.

(** The loop of [process_series]: the runs of the files that were not
    skipped.  [post index] is what the service does for the file at
    position [index] of the list. *)
Fixpoint series_runs (read_as : str -> str -> result str)
  (post : nat -> nat -> attempt_result response)
  (save_ok : str -> str -> bool)
  (series_name base_output_folder : str)
  (srt_files : list (str * str)) (index : nat) : list run :=
  match srt_files with
  | [] => []
  | (file_name, file_path) :: rest =>
      let content := read_srt_file read_as file_path in
      let later :=
        series_runs read_as post save_ok series_name base_output_folder
          rest (S index) in
      if is_empty (strip content) then later
      else process_single_file (post index) save_ok series_name file_name
             file_path content base_output_folder :: later
  end.

Definition success_count (runs : list run) : nat :=
  length (filter returned runs).

Definition process_series (read_as : str -> str -> result str)
  (post : nat -> nat -> attempt_result response)
  (save_ok : str -> str -> bool)
  (series_name : str) (srt_files : list (str * str))
  (base_output_folder : str) : list run * bool :=
  if is_empty srt_files then ([], false)
  else
    let runs :=
      series_runs read_as post save_ok series_name base_output_folder
        srt_files 0 in
    (runs, Nat.ltb 0 (success_count runs)).

Definition total_posts (runs : list run) : nat :=
  fold_right (fun r n => posts r + n) 0 runs.

(** ** translate.py: a combined response cut into files *)

(** [s.split(sep)] for a separator of one or more characters: the pieces
    between its occurrences, found left to right without overlap.  [skip]
    counts the characters of an occurrence still to pass over, [piece] is
    the piece being read. *)
Fixpoint split_from (skip : nat) (sep s piece : str) : list str :=
  match s with
  | [] => [piece]
  | c :: s' =>
      match skip with
      | S k => split_from k sep s' piece
      | O =>
          if startswith s sep
          then piece :: split_from (length sep - 1) sep s' []
          else split_from 0 sep s' (piece ++ [c])
      end
  end.

Definition split_str (sep s : str) : list str := split_from 0 sep s [].

(** The loop of [split_and_save_transliterated_content] from position [i]
    of [file_info]: the calls of [save_transliterated_srt] it makes, as
    pairs of a path and a content. *)
Fixpoint sections_loop (sections : list str) (series_name
  base_output_folder : str) (file_info : list (str * str)) (i : nat)
  : list (str * str) :=
  match file_info with
  | [] => []
  | (_, original_file_path) :: rest =>
      let later :=
        sections_loop sections series_name base_output_folder rest (S i) in
      if Nat.ltb (i + 1) (length sections) then
        let section := nth (i + 1) sections [] in
        let content_lines := split NL (strip section) in
        let file_content :=
          if Nat.ltb 1 (length content_lines)
          then strip (join NL (skipn 1 content_lines))
          else strip section in
        let original_filename := basename original_file_path in
        let name_without_ext := splitext_root original_filename in
        let telugu_filename := name_without_ext ++ lit "_telugu.srt" in
        let output_path :=
          os_path_join base_output_folder
            [lit "processed"; series_name; telugu_filename] in
        (output_path, file_content) :: later
      else later
  end.

(** [split_and_save_transliterated_content]: the saves it asks for, and
    its result; [save_ok path content] tells whether
    [save_transliterated_srt] returns [True]. *)
Definition split_and_save_transliterated_content
  (save_ok : str -> str -> bool)
  (transliterated_content : str) (file_info : list (str * str))
  (series_name base_output_folder : str) : list (str * str) * bool :=
  let sections := split_str (lit "===") transliterated_content in
  let saves :=
    sections_loop sections series_name base_output_folder file_info 0 in
  (saves,
   Nat.ltb 0 (length (filter (fun w => save_ok (fst w) (snd w)) saves))).

(** ** Blank lines at the end of the input *)

Definition blank (l : str) : bool := is_empty (strip l).

(** The lines of the input without the blank lines after its last line
    that is not blank. *)
Definition drop_trailing_blank (lines : list str) : list str :=
  rev (drop_while blank (rev lines)).

(** A document that ends with blank lines. *)
Definition doc_trailing_blank : str :=
  join NL [lit "Hello"; lit ""; lit "world"; lit ""; lit "  "].

(** A document in which a number is followed by an interval that has more
    on its line, after a first cue. *)
Definition doc_interval_with_tail : str :=
  join NL [lit "4"; interval_B; lit "Hi"; lit "7"; interval_with_tail;
           lit "Hello"].
(** A response of the service with more in it than the text: a role, a
    finish reason, a second candidate, usage data. *)
Definition full_result (text : str) : json :=
  JDict [(lit "candidates",
          JList [JDict [(lit "content",
                         JDict [(lit "parts",
                                 JList [JDict [(lit "text", JStr text)]]);
                                (lit "role", JStr (lit "model"))]);
                        (lit "finishReason", JStr (lit "STOP"));
                        (lit "index", JNum (lit "0"))];
                 JDict [(lit "finishReason", JStr (lit "OTHER"))]]);
         (lit "usageMetadata",
          JDict [(lit "totalTokenCount", JNum (lit "42"))]);
         (lit "modelVersion", JStr (lit "gemini-2.5-flash"))].

(** A rate limit, a server error, then that response. *)
Definition third_time_full (text : str) (attempt : nat)
  : attempt_result response :=
  match attempt with
  | 0 => Value {| ok := false; status_code := 429; json_body := Value JNull |}
  | 1 => Value {| ok := false; status_code := 502;
                  json_body := Throws ExcRequest |}
  | _ => Value {| ok := true; status_code := 200;
                  json_body := Value (full_result text) |}
  end.

(** * Properties *)

(** ** Character classes *)

Lemma ranges_disjoint_sound r1 r2 :
  ranges_disjoint r1 r2 = true ->
  forall c, in_ranges r1 c = true -> in_ranges r2 c = false.
Proof.
  intros Hd c H1.
  destruct (in_ranges r2 c) eqn:H2; [exfalso | reflexivity].
  unfold in_ranges in *.
  apply existsb_exists in H1 as [a [Ha Hca]].
  apply existsb_exists in H2 as [b [Hb Hcb]].
  unfold ranges_disjoint in Hd.
  rewrite forallb_forall in Hd. specialize (Hd a Ha).
  rewrite forallb_forall in Hd. specialize (Hd b Hb).
  unfold in_range in *.
  apply andb_true_iff in Hca as [Ha1 Ha2].
  apply andb_true_iff in Hcb as [Hb1 Hb2].
  apply N.leb_le in Ha1, Ha2, Hb1, Hb2.
  apply orb_true_iff in Hd as [Hd | Hd]; apply N.ltb_lt in Hd; lia.
Qed.

Lemma space_not_digit c : isspace_c c = true -> isdigit_c c = false.
Proof. apply (ranges_disjoint_sound space_ranges digit_ranges). reflexivity. Qed.

Lemma space_not_decimal c : isspace_c c = true -> isdecimal_c c = false.
Proof. apply (ranges_disjoint_sound space_ranges decimal_ranges). reflexivity. Qed.

Lemma digit_not_space c : isdigit_c c = true -> isspace_c c = false.
Proof. apply (ranges_disjoint_sound digit_ranges space_ranges). reflexivity. Qed.

Lemma space_not_char a c :
  isspace_c a = false -> isspace_c c = true -> is_char a c = false.
Proof.
  intros Ha Hc. unfold is_char.
  destruct (N.eqb a c) eqn:E; [| reflexivity].
  apply N.eqb_eq in E. subst. congruence.
Qed.

(** ** [strip] *)

Lemma lstrip_starts s : starts_ws (lstrip s) = false.
Proof.
  induction s as [| c s IH]; simpl; [reflexivity |].
  destruct (isspace_c c) eqn:E; [exact IH | simpl; exact E].
Qed.

Lemma lstrip_id s : starts_ws s = false -> lstrip s = s.
Proof. destruct s as [| c s]; simpl; [reflexivity |]. intros ->. reflexivity. Qed.

Lemma lstrip_app s t :
  lstrip (s ++ t) = if forallb isspace_c s then lstrip t else lstrip s ++ t.
Proof.
  induction s as [| c s IH]; simpl; [reflexivity |].
  destruct (isspace_c c); simpl; [exact IH | reflexivity].
Qed.

Lemma lstrip_all_ws s : forallb isspace_c s = true -> lstrip s = [].
Proof.
  induction s as [| c s IH]; simpl; [reflexivity |].
  destruct (isspace_c c); simpl; [exact IH | discriminate].
Qed.

Lemma lstrip_nil_all_ws s : lstrip s = [] -> forallb isspace_c s = true.
Proof.
  induction s as [| c s IH]; simpl; [reflexivity |].
  destruct (isspace_c c); simpl; [exact IH | discriminate].
Qed.

Lemma forallb_rev {A} (f : A -> bool) l : forallb f (rev l) = forallb f l.
Proof.
  induction l as [| a l IH]; simpl; [reflexivity |].
  rewrite forallb_app, IH. simpl. rewrite andb_true_r. apply andb_comm.
Qed.

(** [rstrip] from the front of the string. *)
Lemma rstrip_cons c s :
  rstrip (c :: s) = if forallb isspace_c (c :: s) then [] else c :: rstrip s.
Proof.
  unfold rstrip. simpl rev. rewrite lstrip_app, forallb_rev.
  simpl forallb.
  destruct (forallb isspace_c s) eqn:Hs.
  - rewrite andb_true_r. simpl. destruct (isspace_c c); simpl; [reflexivity |].
    rewrite (lstrip_all_ws (rev s)) by (rewrite forallb_rev; exact Hs).
    reflexivity.
  - rewrite andb_false_r. rewrite rev_app_distr. reflexivity.
Qed.

Lemma rstrip_nil : rstrip [] = [].
Proof. reflexivity. Qed.

Lemma rstrip_all_ws s : forallb isspace_c s = true -> rstrip s = [].
Proof. destruct s as [| c s]; [reflexivity |]. intros H. rewrite rstrip_cons, H. reflexivity. Qed.

Lemma rstrip_nil_all_ws s : rstrip s = [] -> forallb isspace_c s = true.
Proof.
  destruct s as [| c s]; [reflexivity |]. rewrite rstrip_cons.
  destruct (forallb isspace_c (c :: s)); [reflexivity | discriminate].
Qed.

Lemma rstrip_app s t :
  rstrip (s ++ t) = if forallb isspace_c t then rstrip s else s ++ rstrip t.
Proof.
  induction s as [| c s IH]; simpl app.
  - destruct (forallb isspace_c t) eqn:Ht; [| reflexivity].
    rewrite rstrip_all_ws by exact Ht. reflexivity.
  - rewrite !rstrip_cons, IH. simpl forallb. rewrite forallb_app.
    destruct (forallb isspace_c t) eqn:Ht.
    + rewrite andb_true_r. reflexivity.
    + rewrite andb_false_r, andb_false_r. reflexivity.
Qed.

Lemma rstrip_ends s : ends_ws (rstrip s) = false.
Proof.
  unfold ends_ws, rstrip. rewrite rev_involutive. apply lstrip_starts.
Qed.

Lemma rstrip_id s : ends_ws s = false -> rstrip s = s.
Proof.
  unfold ends_ws, rstrip. intros H. rewrite lstrip_id by exact H.
  apply rev_involutive.
Qed.

Lemma rstrip_starts s : starts_ws s = false -> starts_ws (rstrip s) = false.
Proof.
  destruct s as [| c s]; [reflexivity |]. rewrite rstrip_cons.
  destruct (forallb isspace_c (c :: s)); [reflexivity |]. simpl. auto.
Qed.

Lemma strip_starts s : starts_ws (strip s) = false.
Proof. apply rstrip_starts, lstrip_starts. Qed.

Lemma strip_ends s : ends_ws (strip s) = false.
Proof. apply rstrip_ends. Qed.

Lemma strip_id s : starts_ws s = false -> ends_ws s = false -> strip s = s.
Proof.
  intros H1 H2. unfold strip. rewrite lstrip_id by exact H1.
  apply rstrip_id, H2.
Qed.

Lemma strip_idem s : strip (strip s) = strip s.
Proof. apply strip_id; [apply strip_starts | apply strip_ends]. Qed.

Lemma strip_nil_iff s : strip s = [] <-> forallb isspace_c s = true.
Proof.
  unfold strip. split; intros H.
  - apply rstrip_nil_all_ws in H.
    induction s as [| c s IH]; [reflexivity |].
    simpl in H |- *. destruct (isspace_c c) eqn:E; [exact (IH H) |].
    simpl in H. rewrite E in H. discriminate.
  - rewrite lstrip_all_ws by exact H. reflexivity.
Qed.

Lemma lstrip_incl s c : In c (lstrip s) -> In c s.
Proof.
  induction s as [| a s IH]; simpl; [auto |].
  destruct (isspace_c a); simpl; auto.
Qed.

Lemma strip_incl s c : In c (strip s) -> In c s.
Proof.
  unfold strip, rstrip. intros H.
  apply in_rev, lstrip_incl in H. apply in_rev in H.
  apply lstrip_incl, H.
Qed.

Lemma isdigit_nonempty s : isdigit s = true -> s <> [].
Proof. destruct s; [discriminate | discriminate]. Qed.

Lemma isdigit_starts s : isdigit s = true -> starts_ws s = false.
Proof.
  destruct s as [| c s]; [reflexivity |]. unfold isdigit. simpl.
  intros H. apply andb_true_iff in H as [H _]. apply digit_not_space, H.
Qed.

Lemma isdigit_rev s : isdigit (rev s) = isdigit s.
Proof.
  unfold isdigit. rewrite forallb_rev. f_equal.
  destruct s as [| c s]; [reflexivity |]. simpl.
  destruct (rev s); reflexivity.
Qed.

Lemma isdigit_strip_id s : isdigit s = true -> strip s = s.
Proof.
  intros H. apply strip_id; [apply isdigit_starts, H |].
  unfold ends_ws. apply isdigit_starts. rewrite isdigit_rev. exact H.
Qed.

(** ** [split] and [join] *)

Lemma split_nonempty sep s : split sep s <> [].
Proof.
  destruct s as [| c s]; simpl; [discriminate |].
  destruct (N.eqb c sep); [discriminate |].
  destruct (split sep s); discriminate.
Qed.

Lemma split_no_sep sep s : Forall (fun l => ~ In sep l) (split sep s).
Proof.
  induction s as [| c s IH]; simpl.
  - constructor; [intros [] | constructor].
  - destruct (N.eqb c sep) eqn:E.
    + constructor; [intros [] | exact IH].
    + apply N.eqb_neq in E.
      destruct (split sep s) as [| l ls].
      * constructor; [| constructor]. intros [H | []]. congruence.
      * inversion IH as [| ? ? Hl Hls]; subst.
        constructor; [| exact Hls]. intros [H | H]; [congruence | auto].
Qed.

Lemma split_app_sep sep l t :
  ~ In sep l -> split sep (l ++ sep :: t) = l :: split sep t.
Proof.
  induction l as [| c l IH]; intros Hl; simpl.
  - rewrite N.eqb_refl. reflexivity.
  - destruct (N.eqb c sep) eqn:E.
    + apply N.eqb_eq in E. exfalso. apply Hl. left. exact E.
    + rewrite IH by (intros H; apply Hl; right; exact H). reflexivity.
Qed.

Lemma split_id sep l : ~ In sep l -> split sep l = [l].
Proof.
  induction l as [| c l IH]; intros Hl; simpl; [reflexivity |].
  destruct (N.eqb c sep) eqn:E.
  - apply N.eqb_eq in E. exfalso. apply Hl. left. exact E.
  - rewrite IH by (intros H; apply Hl; right; exact H). reflexivity.
Qed.

Lemma join_cons sep l l' ls :
  join sep (l :: l' :: ls) = l ++ sep :: join sep (l' :: ls).
Proof. reflexivity. Qed.

Lemma split_join sep ls :
  ls <> [] -> Forall (fun l => ~ In sep l) ls -> split sep (join sep ls) = ls.
Proof.
  induction ls as [| l ls IH]; intros Hne Hall; [congruence |].
  inversion Hall as [| ? ? Hl Hls]; subst.
  destruct ls as [| l' ls].
  - simpl. apply split_id, Hl.
  - rewrite join_cons, split_app_sep by exact Hl.
    f_equal. apply IH; [discriminate | exact Hls].
Qed.

Lemma split_length sep s : length (split sep s) = S (count_occ N.eq_dec s sep).
Proof.
  induction s as [| c s IH]; [reflexivity |].
  simpl split. simpl count_occ.
  destruct (N.eqb c sep) eqn:E.
  - apply N.eqb_eq in E. destruct (N.eq_dec c sep); [| congruence].
    simpl. rewrite IH. reflexivity.
  - apply N.eqb_neq in E. destruct (N.eq_dec c sep); [congruence |].
    destruct (split sep s); simpl in *; [discriminate | exact IH].
Qed.

Lemma lstrip_count s a :
  count_occ N.eq_dec (lstrip s) a <= count_occ N.eq_dec s a.
Proof.
  induction s as [| c s IH]; simpl; [lia |].
  destruct (isspace_c c); simpl; [destruct (N.eq_dec c a); lia | lia].
Qed.

Lemma strip_count s a :
  count_occ N.eq_dec (strip s) a <= count_occ N.eq_dec s a.
Proof.
  unfold strip, rstrip. rewrite count_occ_rev.
  etransitivity; [apply lstrip_count |].
  rewrite count_occ_rev. apply lstrip_count.
Qed.

Lemma split_snoc sep s x :
  x <> sep ->
  split sep (s ++ [x]) =
  removelast (split sep s) ++ [last (split sep s) [] ++ [x]].
Proof.
  intros Hx. induction s as [| c s IH]; simpl app.
  - simpl. apply N.eqb_neq in Hx. rewrite Hx. reflexivity.
  - simpl split. destruct (N.eqb c sep).
    + rewrite IH. pose proof (split_nonempty sep s) as Hne.
      destruct (split sep s) as [| l ls]; [congruence | reflexivity].
    + rewrite IH. pose proof (split_nonempty sep s) as Hne.
      destruct (split sep s) as [| l ls]; [congruence |].
      destruct ls as [| l' ls]; reflexivity.
Qed.

Lemma join_snoc sep ls x :
  ls <> [] -> join sep (ls ++ [x]) = join sep ls ++ sep :: x.
Proof.
  induction ls as [| l ls IH]; intros Hne; [congruence |].
  destruct ls as [| l' ls]; [reflexivity |].
  change (join sep ((l :: l' :: ls) ++ [x]))
    with (l ++ sep :: join sep ((l' :: ls) ++ [x])).
  rewrite IH by discriminate. rewrite join_cons, <- app_assoc. reflexivity.
Qed.

(** ** [str] of a number *)

Lemma string_of_uint_digits_nilempty d :
  Forall ascii_digit (lit (DecimalString.NilEmpty.string_of_uint d)).
Proof.
  induction d; simpl; constructor; auto; unfold ascii_digit; simpl; lia.
Qed.

Lemma string_of_uint_digits d :
  Forall ascii_digit (lit (DecimalString.NilZero.string_of_uint d)).
Proof.
  destruct d; try apply string_of_uint_digits_nilempty.
  simpl. constructor; [unfold ascii_digit; simpl; lia | constructor].
Qed.

Lemma str_of_nat_digits n : Forall ascii_digit (str_of_nat n).
Proof. apply string_of_uint_digits. Qed.

Lemma str_of_nat_nonempty n : str_of_nat n <> [].
Proof.
  unfold str_of_nat.
  assert (H : Nat.to_uint n <> Decimal.Nil).
  { rewrite <- (DecimalNat.Unsigned.of_to n) at 1.
    rewrite DecimalNat.Unsigned.to_of. apply DecimalFacts.unorm_nonnil. }
  destruct (Nat.to_uint n); try congruence; discriminate.
Qed.

Lemma ascii_digit_isdigit c : ascii_digit c -> isdigit_c c = true.
Proof.
  unfold ascii_digit, isdigit_c, in_ranges. intros [H1 H2]. simpl.
  unfold in_range at 1. simpl.
  apply N.leb_le in H1, H2. rewrite H1, H2. reflexivity.
Qed.

Lemma isdigit_str_of_nat n : isdigit (str_of_nat n) = true.
Proof.
  unfold isdigit. pose proof (str_of_nat_nonempty n) as Hne.
  pose proof (str_of_nat_digits n) as Hd.
  destruct (str_of_nat n) as [| c s]; [congruence |].
  change (forallb isdigit_c (c :: s) = true).
  rewrite forallb_forall. intros x Hx.
  rewrite Forall_forall in Hd. apply ascii_digit_isdigit, Hd, Hx.
Qed.

Lemma str_of_nat_no_nl n : ~ In NL (str_of_nat n).
Proof.
  intros H. pose proof (str_of_nat_digits n) as Hd.
  rewrite Forall_forall in Hd. apply Hd in H. unfold ascii_digit, NL in H. lia.
Qed.

(** ** The time-interval pattern *)

Lemma extends_nil : extends (re_seq []).
Proof. intros s r t H. simpl in H. injection H as ->. reflexivity. Qed.

Lemma extends_one p rest : extends (re_seq rest) -> extends (re_seq (One p :: rest)).
Proof.
  intros IH s r t H. simpl in *.
  destruct s as [| c s]; [discriminate |]. simpl.
  destruct (p c); [apply IH, H | discriminate].
Qed.

Lemma star_try_skip p k :
  (forall c s, p c = true -> k (c :: s) = None) ->
  forall c s, p c = true -> star_try p k (c :: s) = star_try p k s.
Proof.
  intros Hk c s Hc. simpl. rewrite Hc, (Hk c s Hc).
  destruct (star_try p k s); reflexivity.
Qed.

Lemma extends_star p q rest :
  (forall c, p c = true -> q c = false) ->
  extends (re_seq (One q :: rest)) ->
  extends (re_seq (Star p :: One q :: rest)).
Proof.
  intros Hpq IH s r t.
  assert (Hk : forall c s, p c = true -> re_seq (One q :: rest) (c :: s) = None).
  { intros c s' Hc. simpl. rewrite (Hpq c Hc). reflexivity. }
  change (re_seq (Star p :: One q :: rest))
    with (star_try p (re_seq (One q :: rest))).
  induction s as [| c s IHs]; intros H.
  - simpl in H. discriminate.
  - destruct (p c) eqn:Hc.
    + rewrite star_try_skip in H by assumption.
      simpl app. rewrite star_try_skip by assumption. apply IHs, H.
    + simpl in H. rewrite Hc in H.
      change ((c :: s) ++ t) with (c :: (s ++ t)).
      simpl star_try. rewrite Hc. apply (IH (c :: s) r t). simpl. exact H.
Qed.

Lemma timestamp_pattern_extends : extends (re_seq timestamp_pattern).
Proof.
  unfold timestamp_pattern, stamp. simpl app.
  repeat first
    [ apply extends_nil
    | apply extends_one
    | apply extends_star;
      [ first [ apply space_not_decimal
              | intros c Hc; apply space_not_char; [reflexivity | exact Hc] ] | ] ].
Qed.

(** A prefix match: anything may follow the matched interval. *)
Lemma re_match_prefix s t :
  re_match timestamp_pattern s = true ->
  re_match timestamp_pattern (s ++ t) = true.
Proof.
  unfold re_match. destruct (re_seq timestamp_pattern s) as [r |] eqn:E;
    [| discriminate].
  rewrite (timestamp_pattern_extends s r t E). reflexivity.
Qed.

Lemma re_seq_third p1 p2 a rest s r :
  re_seq (One p1 :: One p2 :: One (is_char a) :: rest) s = Some r ->
  exists c1 c2 s', s = c1 :: c2 :: a :: s'.
Proof.
  simpl. destruct s as [| c1 [| c2 [| c3 s']]]; try discriminate.
  - destruct (p1 c1); discriminate.
  - destruct (p1 c1); [| discriminate]. destruct (p2 c2); discriminate.
  - destruct (p1 c1); [| discriminate]. destruct (p2 c2); [| discriminate].
    unfold is_char. destruct (N.eqb a c3) eqn:E; [| discriminate].
    apply N.eqb_eq in E. subst. eauto.
Qed.

Lemma re_match_shape s :
  re_match timestamp_pattern s = true ->
  exists c1 c2 s', s = c1 :: c2 :: COLON :: s'.
Proof.
  unfold re_match. destruct (re_seq timestamp_pattern s) as [r |] eqn:E;
    [| discriminate].
  intros _. exact (re_seq_third _ _ _ _ _ _ E).
Qed.

Lemma re_match_not_digit s :
  re_match timestamp_pattern s = true -> isdigit s = false.
Proof.
  intros H. destruct (re_match_shape s H) as (c1 & c2 & s' & ->).
  unfold isdigit. simpl forallb.
  replace (isdigit_c COLON) with false by reflexivity.
  rewrite !andb_false_r. reflexivity.
Qed.

Lemma re_match_nonempty s :
  re_match timestamp_pattern s = true -> is_empty s = false.
Proof.
  intros H. destruct (re_match_shape s H) as (c1 & c2 & s' & ->). reflexivity.
Qed.

(** ** The two loops, line by line *)

Lemma clean_emit_cons raw rest b :
  clean_emit (raw :: rest) b =
  if isdigit (strip raw) then
    if confirmed rest then strip raw :: clean_emit rest true
    else clean_emit rest b
  else if is_empty (strip raw) && negb b then clean_emit rest b
  else strip raw :: clean_emit rest true.
Proof. reflexivity. Qed.

Lemma fix_emit_cons raw rest k b :
  fix_emit (raw :: rest) k b =
  if isdigit (strip raw) then
    if confirmed rest then str_of_nat k :: fix_emit rest (k + 1) true
    else fix_emit rest k b
  else if is_empty (strip raw) && negb b then fix_emit rest k b
  else strip raw :: fix_emit rest k true.
Proof. reflexivity. Qed.

Lemma is_empty_snoc {A} (l : list A) x : is_empty (l ++ [x]) = false.
Proof. destruct l; reflexivity. Qed.

Lemma is_empty_app_cons {A} (l l' : list A) x : is_empty (l ++ x :: l') = false.
Proof. destruct l; reflexivity. Qed.

Lemma isdigit_is_empty s : isdigit s = true -> is_empty s = false.
Proof. destruct s; [discriminate | reflexivity]. Qed.

Lemma next_isdigit_confirmed rest :
  next_isdigit rest = true -> confirmed rest = false.
Proof.
  destruct rest as [| nxt rest]; simpl; [reflexivity |]. intros H.
  destruct (re_match timestamp_pattern (strip nxt)) eqn:E; [| reflexivity].
  apply re_match_not_digit in E. congruence.
Qed.

Lemma clean_loop_emit lines :
  forall acc,
    clean_loop lines acc = acc ++ clean_emit lines (negb (is_empty acc)).
Proof.
  induction lines as [| raw rest IH]; intros acc; simpl.
  - rewrite app_nil_r. reflexivity.
  - fold (next_isdigit rest). fold (confirmed rest).
    destruct (isdigit (strip raw)) eqn:Hd.
    + rewrite (isdigit_is_empty _ Hd). simpl.
      destruct (next_isdigit rest) eqn:Hn.
      * rewrite (next_isdigit_confirmed _ Hn). apply IH.
      * destruct (confirmed rest); [| apply IH].
        rewrite IH, is_empty_snoc, <- app_assoc. reflexivity.
    + rewrite negb_involutive.
      destruct (is_empty (strip raw) && is_empty acc); [apply IH |].
      rewrite IH, is_empty_snoc, <- app_assoc. reflexivity.
Qed.

Lemma fix_loop_emit lines :
  forall k acc,
    fix_loop lines k acc = acc ++ fix_emit lines k (negb (is_empty acc)).
Proof.
  induction lines as [| raw rest IH]; intros k acc; simpl.
  - rewrite app_nil_r. reflexivity.
  - fold (confirmed rest).
    destruct (isdigit (strip raw)) eqn:Hd.
    + rewrite (isdigit_is_empty _ Hd). simpl.
      destruct (confirmed rest); [| apply IH].
      rewrite IH, is_empty_snoc, <- app_assoc. reflexivity.
    + rewrite negb_involutive.
      destruct (is_empty (strip raw) && is_empty acc); [apply IH |].
      rewrite IH, is_empty_snoc, <- app_assoc. reflexivity.
Qed.

Lemma clean_srt_content_emit content :
  clean_srt_content content =
  join NL (clean_emit (split NL (strip content)) false).
Proof. unfold clean_srt_content. rewrite clean_loop_emit. reflexivity. Qed.

Lemma fix_srt_numbering_emit content :
  fix_srt_numbering content =
  join NL (fix_emit (split NL (strip content)) 1 false).
Proof. unfold fix_srt_numbering. rewrite fix_loop_emit. reflexivity. Qed.

(** *** The shape of an output buffer *)

Lemma tidy_strip raw : ~ In NL raw -> tidy (strip raw).
Proof.
  intros H. split; [apply strip_idem |]. intros Hin. apply H, strip_incl, Hin.
Qed.

Lemma tidy_str_of_nat k : tidy (str_of_nat k).
Proof.
  split; [apply isdigit_strip_id, isdigit_str_of_nat | apply str_of_nat_no_nl].
Qed.

Lemma is_empty_false {A} (l : list A) : is_empty l = false -> l <> [].
Proof. destruct l; [discriminate | discriminate]. Qed.

Lemma clean_emit_tidy lines :
  Forall (fun l => ~ In NL l) lines ->
  forall b, Forall tidy (clean_emit lines b).
Proof.
  induction 1 as [| raw rest Hraw Hrest IH]; intros b; simpl; [constructor |].
  destruct (isdigit (strip raw)).
  - destruct (confirmed rest); [| apply IH].
    constructor; [apply tidy_strip, Hraw | apply IH].
  - destruct (is_empty (strip raw) && negb b); [apply IH |].
    constructor; [apply tidy_strip, Hraw | apply IH].
Qed.

Lemma fix_emit_tidy lines :
  Forall (fun l => ~ In NL l) lines ->
  forall k b, Forall tidy (fix_emit lines k b).
Proof.
  induction 1 as [| raw rest Hraw Hrest IH]; intros k b; simpl; [constructor |].
  destruct (isdigit (strip raw)).
  - destruct (confirmed rest); [| apply IH].
    constructor; [apply tidy_str_of_nat | apply IH].
  - destruct (is_empty (strip raw) && negb b); [apply IH |].
    constructor; [apply tidy_strip, Hraw | apply IH].
Qed.

Lemma clean_emit_head lines : head_nonblank (clean_emit lines false).
Proof.
  induction lines as [| raw rest IH]; simpl; [exact I |].
  destruct (isdigit (strip raw)) eqn:Hd.
  - destruct (confirmed rest); [| exact IH]. simpl.
    apply isdigit_nonempty, Hd.
  - destruct (is_empty (strip raw)) eqn:He; simpl; [exact IH |].
    apply is_empty_false, He.
Qed.

Lemma fix_emit_head lines k : head_nonblank (fix_emit lines k false).
Proof.
  induction lines as [| raw rest IH]; simpl; [exact I |].
  destruct (isdigit (strip raw)) eqn:Hd.
  - destruct (confirmed rest); [| exact IH]. simpl.
    apply str_of_nat_nonempty.
  - destruct (is_empty (strip raw)) eqn:He; simpl; [exact IH |].
    apply is_empty_false, He.
Qed.

(** The lines of a joined buffer are the buffer. *)
Lemma split_join_buffer out :
  Forall tidy out -> head_nonblank out ->
  split NL (join NL out) = match out with [] => [[]] | _ => out end.
Proof.
  intros Ht Hh. destruct out as [| l ls]; [reflexivity |].
  apply split_join; [discriminate |].
  eapply Forall_impl; [| exact Ht]. intros a [_ H]. exact H.
Qed.

Lemma filter_split_join_buffer (f : str -> bool) out :
  f [] = false -> Forall tidy out -> head_nonblank out ->
  filter f (split NL (join NL out)) = filter f out.
Proof.
  intros Hf Ht Hh. rewrite split_join_buffer by assumption.
  destruct out; [simpl; rewrite Hf; reflexivity | reflexivity].
Qed.

(** ** Renumbering: the emitted numbers *)

Lemma fix_emit_numbers lines :
  forall k b, exists K,
    filter isdigit (fix_emit lines k b) = map str_of_nat (seq k K).
Proof.
  induction lines as [| raw rest IH]; intros k b; simpl.
  - exists 0. reflexivity.
  - destruct (isdigit (strip raw)) eqn:Hd.
    + destruct (confirmed rest); [| apply IH].
      destruct (IH (k + 1) true) as [K HK]. exists (S K).
      simpl. rewrite isdigit_str_of_nat, HK, Nat.add_1_r. reflexivity.
    + destruct (is_empty (strip raw) && negb b); [apply IH |].
      simpl. rewrite Hd. apply IH.
Qed.

Lemma fix_emit_text ls :
  forallb is_text_line ls = true ->
  forall rest k,
    fix_emit (ls ++ rest) k true = map strip ls ++ fix_emit rest k true.
Proof.
  induction ls as [| l ls IH]; intros H rest k; [reflexivity |].
  simpl in H. apply andb_true_iff in H as [Hl Hls].
  unfold is_text_line, is_number_line in Hl.
  apply andb_true_iff in Hl as [Hl _]. apply negb_true_iff in Hl.
  simpl. rewrite Hl, andb_false_r. f_equal. apply IH, Hls.
Qed.

Lemma fix_emit_cues cues :
  forallb well_formed_cue cues = true ->
  forall k b,
    fix_emit (flat_map cue_lines cues) k b = renumbered k cues.
Proof.
  induction cues as [| c cs IH]; intros H k b; [reflexivity |].
  simpl in H. apply andb_true_iff in H as [Hc Hcs].
  unfold well_formed_cue in Hc.
  apply andb_true_iff in Hc as [Hc Htext].
  apply andb_true_iff in Hc as [Hc _].
  apply andb_true_iff in Hc as [Hnum Hint].
  unfold is_number_line in Hnum. unfold is_interval_line in Hint.
  simpl flat_map. unfold cue_lines at 1.
  change ((cue_number c :: cue_interval c :: cue_text c) ++ flat_map cue_lines cs)
    with (cue_number c :: cue_interval c :: (cue_text c ++ flat_map cue_lines cs)).
  simpl. rewrite Hnum, Hint.
  rewrite (re_match_not_digit _ Hint), (re_match_nonempty _ Hint). simpl.
  rewrite fix_emit_text by exact Htext.
  rewrite IH by exact Hcs. reflexivity.
Qed.

Lemma count_renumbered k cues :
  forallb well_formed_cue cues = true ->
  length (filter isdigit (renumbered k cues)) = length cues /\
  length (filter (re_match timestamp_pattern) (renumbered k cues)) = length cues.
Proof.
  revert k. induction cues as [| c cs IH]; intros k H; [split; reflexivity |].
  simpl in H. apply andb_true_iff in H as [Hc Hcs].
  unfold well_formed_cue in Hc.
  apply andb_true_iff in Hc as [Hc Htext].
  apply andb_true_iff in Hc as [Hc _].
  apply andb_true_iff in Hc as [_ Hint].
  unfold is_interval_line in Hint.
  destruct (IH (k + 1) Hcs) as [IH1 IH2].
  assert (Ht1 : filter isdigit (map strip (cue_text c)) = []).
  { clear - Htext. induction (cue_text c) as [| l ls IHl]; [reflexivity |].
    simpl in Htext. apply andb_true_iff in Htext as [Hl Hls].
    unfold is_text_line, is_number_line in Hl.
    apply andb_true_iff in Hl as [Hl _]. apply negb_true_iff in Hl.
    simpl. rewrite Hl. apply IHl, Hls. }
  assert (Ht2 : filter (re_match timestamp_pattern) (map strip (cue_text c)) = []).
  { clear - Htext. induction (cue_text c) as [| l ls IHl]; [reflexivity |].
    simpl in Htext. apply andb_true_iff in Htext as [Hl Hls].
    unfold is_text_line, is_interval_line in Hl.
    apply andb_true_iff in Hl as [_ Hl]. apply negb_true_iff in Hl.
    simpl. rewrite Hl. apply IHl, Hls. }
  assert (Hk : re_match timestamp_pattern (str_of_nat k) = false).
  { destruct (re_match timestamp_pattern (str_of_nat k)) eqn:E; [| reflexivity].
    apply re_match_not_digit in E. rewrite isdigit_str_of_nat in E. discriminate. }
  simpl renumbered. simpl filter.
  rewrite isdigit_str_of_nat, (re_match_not_digit _ Hint), Hk, Hint.
  rewrite !filter_app, Ht1, Ht2. simpl. rewrite IH1, IH2. split; reflexivity.
Qed.

(** C2: the numeric lines of the output of [fix_srt_numbering], top to
    bottom, are [1], ..., [K] for some [K]; and when the stripped input is
    cue after cue (number, interval, one or more text lines), the output is
    the same cues with the numbers [1], [2], ... in place, so that numbers
    and intervals alternate and are equally many. *)
Theorem fix_srt_numbering_sequence :
  (forall content, exists K,
      filter isdigit (split NL (fix_srt_numbering content))
      = map str_of_nat (seq 1 K)) /\
  (forall content cues,
      forallb well_formed_cue cues = true ->
      split NL (strip content) = flat_map cue_lines cues ->
      split NL (fix_srt_numbering content) = renumbered 1 cues /\
      length (filter isdigit (split NL (fix_srt_numbering content)))
      = length cues /\
      length (filter (re_match timestamp_pattern)
                (split NL (fix_srt_numbering content)))
      = length cues).
Proof.
  split.
  - intros content. rewrite fix_srt_numbering_emit.
    rewrite filter_split_join_buffer;
      [apply fix_emit_numbers | reflexivity
      | apply fix_emit_tidy, split_no_sep | apply fix_emit_head].
  - intros content cues Hwf Hlines.
    assert (Hout : split NL (fix_srt_numbering content) = renumbered 1 cues).
    { rewrite fix_srt_numbering_emit.
      rewrite split_join_buffer
        by (first [apply fix_emit_tidy, split_no_sep | apply fix_emit_head]).
      rewrite Hlines, fix_emit_cues by exact Hwf.
      destruct cues as [| c cs]; [| reflexivity].
      exfalso. apply (split_nonempty NL (strip content)). exact Hlines. }
    rewrite Hout. destruct (count_renumbered 1 cues Hwf) as [H1 H2].
    auto.
Qed.

(** ** Renumbering twice *)

Lemma tidy_ends l : tidy l -> ends_ws l = false.
Proof. intros [H _]. rewrite <- H. apply strip_ends. Qed.

Lemma tidy_starts l : tidy l -> starts_ws l = false.
Proof. intros [H _]. rewrite <- H. apply strip_starts. Qed.

Lemma join_trim_nonempty ls : trim ls = [] \/ join NL (trim ls) <> [].
Proof.
  induction ls as [| l ls IH]; simpl; [left; reflexivity |].
  destruct (trim ls) as [| t0 t].
  - destruct l as [| c l]; simpl; [left; reflexivity | right; discriminate].
  - right. rewrite join_cons. apply not_eq_sym, app_cons_not_nil.
Qed.

Lemma rstrip_join ls :
  Forall tidy ls -> rstrip (join NL ls) = join NL (trim ls).
Proof.
  induction 1 as [| l ls Hl Hls IH]; [reflexivity |].
  destruct ls as [| l' ls].
  - simpl. rewrite rstrip_id by (apply tidy_ends, Hl).
    destruct l; reflexivity.
  - rewrite join_cons, rstrip_app.
    change (forallb isspace_c (NL :: join NL (l' :: ls)))
      with (forallb isspace_c (join NL (l' :: ls))).
    change (trim (l :: l' :: ls))
      with (match trim (l' :: ls) with
            | [] => if is_empty l then [] else [l]
            | t => l :: t
            end).
    destruct (forallb isspace_c (join NL (l' :: ls))) eqn:Hws.
    + rewrite (rstrip_all_ws _ Hws) in IH.
      destruct (join_trim_nonempty (l' :: ls)) as [Ht | Ht];
        [| exfalso; apply Ht; symmetry; exact IH].
      rewrite Ht, rstrip_id by (apply tidy_ends, Hl).
      destruct l; reflexivity.
    + rewrite rstrip_cons.
      change (forallb isspace_c (NL :: join NL (l' :: ls)))
        with (forallb isspace_c (join NL (l' :: ls))).
      rewrite Hws, IH.
      destruct (trim (l' :: ls)) as [| t0 t] eqn:Ht; [| reflexivity].
      exfalso. change (join NL []) with (@nil char) in IH.
      apply rstrip_nil_all_ws in IH. congruence.
Qed.

Lemma join_starts out :
  Forall tidy out -> head_nonblank out -> starts_ws (join NL out) = false.
Proof.
  intros Ht Hh. destruct out as [| l ls]; [reflexivity |].
  inversion Ht as [| ? ? Hl Hls]; subst.
  destruct ls as [| l' ls]; [apply tidy_starts, Hl |].
  rewrite join_cons. pose proof (tidy_starts l Hl) as Hs.
  destruct l as [| c l]; [| exact Hs].
  exfalso. apply Hh. reflexivity.
Qed.

Lemma strip_join out :
  Forall tidy out -> head_nonblank out ->
  strip (join NL out) = join NL (trim out).
Proof.
  intros Ht Hh. unfold strip.
  rewrite lstrip_id by (apply join_starts; assumption).
  apply rstrip_join, Ht.
Qed.

Lemma fix_emit_fixed lines : forall k b, fixed k (fix_emit lines k b).
Proof.
  induction lines as [| raw rest IH]; intros k b; simpl; [constructor |].
  destruct (isdigit (strip raw)) eqn:Hd.
  - destruct (confirmed rest) eqn:Hc; [| apply IH].
    destruct rest as [| nxt rest']; [discriminate |]. simpl in Hc.
    specialize (IH (k + 1) true). simpl in IH.
    rewrite (re_match_not_digit _ Hc), andb_false_r in IH.
    simpl. rewrite (re_match_not_digit _ Hc), andb_false_r.
    apply fixed_num; [apply strip_idem | exact Hc | exact IH].
  - destruct (is_empty (strip raw) && negb b); [apply IH |].
    apply fixed_text; [apply strip_idem | exact Hd | apply IH].
Qed.

Lemma fix_emit_of_fixed k ls :
  fixed k ls -> forall b, b = true \/ head_nonblank ls -> fix_emit ls k b = ls.
Proof.
  induction 1 as [k | k l ls Hl Hd _ IH | k t ls Ht Hm _ IH]; intros b Hb.
  - reflexivity.
  - simpl. rewrite Hl, Hd.
    assert (He : is_empty l && negb b = false).
    { destruct Hb as [-> | Hb]; [apply andb_false_r |].
      simpl in Hb. destruct l; [congruence | reflexivity]. }
    rewrite He. f_equal. apply IH. left. reflexivity.
  - rewrite fix_emit_cons.
    rewrite (isdigit_strip_id _ (isdigit_str_of_nat k)), isdigit_str_of_nat.
    unfold confirmed. rewrite Ht, Hm. f_equal. apply IH. left. reflexivity.
Qed.

Lemma trim_cons_nonblank (l : str) (ls : list str) :
  l <> [] -> exists ls' : list str, trim (l :: ls) = l :: ls'.
Proof.
  intros Hl. simpl. destruct (trim ls) as [| t0 t].
  - destruct l; [congruence |]. exists []. reflexivity.
  - exists (t0 :: t). reflexivity.
Qed.

Lemma trim_fixed k ls : fixed k ls -> fixed k (trim ls).
Proof.
  induction 1 as [k | k l ls Hl Hd _ IH | k t ls Ht Hm _ IH].
  - constructor.
  - simpl. destruct (trim ls) as [| t0 t].
    + destruct (is_empty l); repeat constructor; auto.
    + constructor; auto.
  - destruct (trim_cons_nonblank t ls) as [ls' Hls'].
    { apply is_empty_false, re_match_nonempty, Hm. }
    change (trim (str_of_nat k :: t :: ls))
      with (match trim (t :: ls) with
            | [] => if is_empty (str_of_nat k) then [] else [str_of_nat k]
            | x => str_of_nat k :: x
            end).
    destruct (trim (t :: ls)) as [| x xs]; [discriminate |].
    injection Hls' as -> ->. apply fixed_num; assumption.
Qed.

Lemma trim_tidy ls : Forall tidy ls -> Forall tidy (trim ls).
Proof.
  induction 1 as [| l ls Hl Hls IH]; simpl; [constructor |].
  destruct (trim ls).
  - destruct (is_empty l); [constructor |].
    constructor; [assumption | constructor].
  - constructor; assumption.
Qed.

Lemma trim_head ls : head_nonblank ls -> head_nonblank (trim ls).
Proof.
  destruct ls as [| l ls]; simpl; [auto |]. intros Hl.
  destruct (trim ls).
  - destruct l; [congruence | simpl; discriminate].
  - exact Hl.
Qed.

Lemma filter_trim (f : str -> bool) ls :
  f [] = false -> filter f (trim ls) = filter f ls.
Proof.
  intros Hf. induction ls as [| l ls IH]; [reflexivity |]. simpl.
  destruct (trim ls) as [| t0 t].
  - rewrite <- IH. destruct l as [| c l]; simpl.
    + rewrite Hf. reflexivity.
    + reflexivity.
  - simpl in IH |- *. rewrite IH. reflexivity.
Qed.

(** A second pass only strips what the first left: the trailing newlines
    of blank lines that had a dropped number after them. *)
Lemma fix_srt_numbering_twice content :
  fix_srt_numbering (fix_srt_numbering content)
  = strip (fix_srt_numbering content).
Proof.
  rewrite (fix_srt_numbering_emit content).
  set (E := fix_emit (split NL (strip content)) 1 false).
  assert (Ht : Forall tidy E) by apply fix_emit_tidy, split_no_sep.
  assert (Hh : head_nonblank E) by apply fix_emit_head.
  assert (Hf : fixed 1 E) by apply fix_emit_fixed.
  rewrite fix_srt_numbering_emit, strip_join by assumption.
  rewrite split_join_buffer by (first [apply trim_tidy, Ht | apply trim_head, Hh]).
  f_equal. destruct (trim E) as [| l ls] eqn:HE; [reflexivity |].
  rewrite <- HE. apply fix_emit_of_fixed; [apply trim_fixed, Hf |].
  right. apply trim_head, Hh.
Qed.

(** C5: a second pass of [fix_srt_numbering] emits the same numbers as the
    first. *)
Theorem fix_srt_numbering_idempotent_numbers content :
  filter isdigit (split NL (fix_srt_numbering (fix_srt_numbering content)))
  = filter isdigit (split NL (fix_srt_numbering content)).
Proof.
  rewrite fix_srt_numbering_twice.
  rewrite (fix_srt_numbering_emit content).
  set (E := fix_emit (split NL (strip content)) 1 false).
  assert (Ht : Forall tidy E) by apply fix_emit_tidy, split_no_sep.
  assert (Hh : head_nonblank E) by apply fix_emit_head.
  rewrite strip_join by assumption.
  rewrite !filter_split_join_buffer;
    [apply filter_trim; reflexivity | reflexivity | assumption | assumption
    | reflexivity | apply trim_tidy, Ht | apply trim_head, Hh].
Qed.

(** ** Timestamp restoration *)

(** C3: restoration never raises, and gives back the processed content as
    it is when the original cannot be read, has no interval, or has another
    number of intervals than the processed content. *)
Theorem replace_timestamps_soft_failure :
  forall (fs : filesystem) (processed_content source_file_path : str),
    (exists v,
        replace_timestamps_with_originals fs processed_content source_file_path
        = Ok v) /\
    (forall e, fs source_file_path = Raise e ->
       replace_timestamps_with_originals fs processed_content source_file_path
       = Ok processed_content) /\
    (forall source_content,
       fs source_file_path = Ok source_content ->
       extract_timestamps_from_content source_content = [] ->
       replace_timestamps_with_originals fs processed_content source_file_path
       = Ok processed_content) /\
    (forall source_content,
       fs source_file_path = Ok source_content ->
       length (extract_timestamps_from_content source_content)
       <> length (extract_timestamps_from_content processed_content) ->
       replace_timestamps_with_originals fs processed_content source_file_path
       = Ok processed_content).
Proof.
  intros fs processed_content source_file_path.
  unfold replace_timestamps_with_originals.
  unfold bind, try_except.
  repeat split.
  - destruct (fs source_file_path) as [src | e]; [| eauto].
    destruct (is_empty (extract_timestamps_from_content src)); [eauto |].
    destruct (negb (Nat.eqb _ _)); eauto.
  - intros e ->. reflexivity.
  - intros src -> Hnone. rewrite Hnone. reflexivity.
  - intros src -> Hlen.
    destruct (is_empty (extract_timestamps_from_content src)); [reflexivity |].
    apply Nat.eqb_neq in Hlen. rewrite Hlen. reflexivity.
Qed.

(** C3 at a missing file, at an original without intervals, and at three
    intervals against four. *)
Lemma replace_timestamps_soft_failure_witness :
  replace_timestamps_with_originals
    (single_file source_path original_four) processed_three (lit "/nowhere.srt")
  = Ok processed_three /\
  replace_timestamps_with_originals
    (single_file source_path (lit "no interval here")) processed_three source_path
  = Ok processed_three /\
  replace_timestamps_with_originals
    (single_file source_path original_four) processed_three source_path
  = Ok processed_three.
Proof.
  split; [| split].
  - apply (proj1 (proj2 (replace_timestamps_soft_failure
                           (single_file source_path original_four)
                           processed_three (lit "/nowhere.srt")))
             FileNotFoundError).
    reflexivity.
  - apply (proj1 (proj2 (proj2 (replace_timestamps_soft_failure
                           (single_file source_path (lit "no interval here"))
                           processed_three source_path)))
             (lit "no interval here")); reflexivity.
  - apply (proj2 (proj2 (proj2 (replace_timestamps_soft_failure
                           (single_file source_path original_four)
                           processed_three source_path)))
             original_four); [reflexivity |].
    vm_compute. discriminate.
Defined.

(** C1: with processed intervals [A; B] and original intervals [B; C] the
    lists have equal length, yet the result carries [C; B]: the second
    [replace] finds the [B] the first one has just written. *)
Theorem replace_timestamps_rewrites_replaced :
  extract_timestamps_from_content processed_shifted = [interval_A; interval_B] /\
  extract_timestamps_from_content original_shifted = [interval_B; interval_C] /\
  replace_timestamps_with_originals
    (single_file source_path original_shifted) processed_shifted source_path
  = Ok (join NL [lit "1"; interval_C; lit "a"; lit "2"; interval_B; lit "b"]) /\
  extract_timestamps_from_content
    (join NL [lit "1"; interval_C; lit "a"; lit "2"; interval_B; lit "b"])
  = [interval_C; interval_B].
Proof. repeat split; vm_compute; reflexivity. Qed.

(** ** The single-file sanitizer *)

(** C6: a response that numbers its cues 1, 2 is saved with an extra [1]
    before the [2]: [subtitle_found] is only set where a [1] is inserted,
    so the test fires at the first number that is not [1]. *)
Theorem save_single_inserts_extra_one :
  snd (save_single_transliterated_file response_numbered
         (lit "/base/show/ep1.srt") (lit "show") (lit "/base"))
  = join NL [lit "1"; interval_A; lit "Hi";
             lit "1"; lit "2"; interval_B; lit "Yo"].
Proof. vm_compute. reflexivity. Qed.

(** ** The path of the original *)

(** C8: for an original named [ep_telugu_1.srt] the driver writes
    [ep_telugu_1_telugu.srt], and [find_source_file] answers [ep_1.srt]:
    every [_telugu] of the stem is removed, not the trailing one alone. *)
Theorem find_source_file_removes_every_suffix :
  fst (save_single_transliterated_file response_numbered
         (lit "/base/show/ep_telugu_1.srt") (lit "show") (lit "/base"))
  = lit "/base/processed/show/ep_telugu_1_telugu.srt" /\
  find_source_file (lit "/base/processed/show/ep_telugu_1_telugu.srt")
  = Ok (lit "/base/show/ep_1.srt").
Proof. split; vm_compute; reflexivity. Qed.

(** A file directly under a top-level [processed] folder has no third
    ancestor: [parents[2]] raises. *)
Example find_source_file_short_path :
  find_source_file (lit "/processed/ep1_telugu.srt") = Raise IndexError.
Proof. vm_compute. reflexivity. Qed.

(** ** The duplicate filter *)

Lemma confirmed_app pre rest :
  confirmed rest = false -> confirmed (pre ++ rest) = confirmed pre.
Proof. destruct pre; simpl; auto. Qed.

Lemma number_line_not_confirmed n rest :
  is_number_line n = true -> confirmed (n :: rest) = false.
Proof.
  unfold is_number_line. simpl. intros H.
  destruct (re_match timestamp_pattern (strip n)) eqn:E; [| reflexivity].
  apply re_match_not_digit in E. congruence.
Qed.

(** Lines before a point where no interval starts are handled as if they
    stood alone. *)
Lemma clean_emit_app pre rest :
  confirmed rest = false ->
  forall b,
    clean_emit (pre ++ rest) b =
    clean_emit pre b ++ clean_emit rest (b || negb (is_empty (clean_emit pre b))).
Proof.
  intros Hrest. induction pre as [| raw pre IH]; intros b.
  - simpl. rewrite orb_false_r. reflexivity.
  - change ((raw :: pre) ++ rest) with (raw :: (pre ++ rest)).
    rewrite !clean_emit_cons, (confirmed_app pre rest Hrest).
    destruct (isdigit (strip raw)).
    + destruct (confirmed pre); [| apply IH].
      rewrite IH. simpl. rewrite orb_true_r. reflexivity.
    + destruct (is_empty (strip raw) && negb b); [apply IH |].
      rewrite IH. simpl. rewrite orb_true_r. reflexivity.
Qed.

Lemma clean_emit_interval ts post b :
  is_interval_line ts = true ->
  clean_emit (ts :: post) b = strip ts :: clean_emit post true.
Proof.
  unfold is_interval_line. intros H. rewrite clean_emit_cons.
  rewrite (re_match_not_digit _ H), (re_match_nonempty _ H). reflexivity.
Qed.

Lemma clean_emit_run nums ts post :
  nums <> [] -> forallb is_number_line nums = true ->
  is_interval_line ts = true ->
  forall b,
    clean_emit (nums ++ ts :: post) b =
    strip (last nums []) :: strip ts :: clean_emit post true.
Proof.
  intros Hne Hnums Hts.
  induction nums as [| n nums IH]; intros b; [congruence |].
  simpl in Hnums. apply andb_true_iff in Hnums as [Hn Hnums].
  change ((n :: nums) ++ ts :: post) with (n :: (nums ++ ts :: post)).
  rewrite clean_emit_cons. unfold is_number_line in Hn. rewrite Hn.
  destruct nums as [| n' nums].
  - simpl app. unfold confirmed. unfold is_interval_line in Hts. rewrite Hts.
    rewrite clean_emit_interval by exact Hts. reflexivity.
  - assert (Hc : confirmed ((n' :: nums) ++ ts :: post) = false).
    { simpl in Hnums. apply andb_true_iff in Hnums as [Hn' _].
      apply (number_line_not_confirmed _ _ Hn'). }
    rewrite Hc. rewrite IH; [reflexivity | discriminate | exact Hnums].
Qed.

Lemma clean_emit_last lines : forall b, isdigit (last (clean_emit lines b) []) = false.
Proof.
  induction lines as [| raw rest IH]; intros b; [reflexivity |].
  rewrite clean_emit_cons.
  destruct (isdigit (strip raw)) eqn:Hd.
  - destruct (confirmed rest) eqn:Hc; [| apply IH].
    destruct rest as [| nxt rest']; [discriminate |].
    pose proof (IH true) as H.
    rewrite clean_emit_interval in H |- * by exact Hc. exact H.
  - destruct (is_empty (strip raw) && negb b); [apply IH |].
    pose proof (IH true) as H.
    destruct (clean_emit rest true) as [| x xs]; [exact Hd | exact H].
Qed.

Lemma clean_emit_length lines : forall b, length (clean_emit lines b) <= length lines.
Proof.
  induction lines as [| raw rest IH]; intros b; [reflexivity |].
  rewrite clean_emit_cons. simpl length.
  destruct (isdigit (strip raw)).
  - destruct (confirmed rest); simpl; [apply le_n_S, IH | apply Nat.le_le_succ_r, IH].
  - destruct (is_empty (strip raw) && negb b); simpl;
      [apply Nat.le_le_succ_r, IH | apply le_n_S, IH].
Qed.

(** C4: a run of numeric lines before an interval line leaves its last
    number only, directly before the interval, and the line before that
    number is not a number; a numeric last line is dropped; the output has
    no more lines than the input. *)
Theorem clean_srt_content_numbers :
  (forall content pre nums ts post,
      split NL (strip content) = pre ++ nums ++ ts :: post ->
      nums <> [] ->
      forallb is_number_line nums = true ->
      is_interval_line ts = true ->
      clean_srt_content content
      = join NL (clean_loop post
                   (clean_loop pre [] ++ [strip (last nums []); strip ts])) /\
      isdigit (last (clean_loop pre []) []) = false) /\
  (forall content pre n,
      split NL (strip content) = pre ++ [n] ->
      is_number_line n = true ->
      clean_srt_content content = join NL (clean_loop pre []) /\
      isdigit (last (clean_loop pre []) []) = false) /\
  (forall content,
      length (split NL (clean_srt_content content))
      <= length (split NL content)).
Proof.
  split; [| split].
  - intros content pre nums ts post Hlines Hne Hnums Hts.
    split; [| rewrite clean_loop_emit; apply clean_emit_last].
    rewrite clean_srt_content_emit, Hlines. f_equal.
    assert (Hc : confirmed (nums ++ ts :: post) = false).
    { destruct nums as [| n nums]; [congruence |].
      simpl in Hnums. apply andb_true_iff in Hnums as [Hn _].
      apply (number_line_not_confirmed _ _ Hn). }
    rewrite (clean_emit_app pre _ Hc), clean_emit_run by assumption.
    rewrite (clean_loop_emit post), (clean_loop_emit pre).
    rewrite is_empty_app_cons. simpl. rewrite <- app_assoc. reflexivity.
  - intros content pre n Hlines Hn.
    split; [| rewrite clean_loop_emit; apply clean_emit_last].
    rewrite clean_srt_content_emit, Hlines. f_equal.
    rewrite (clean_emit_app pre _ (number_line_not_confirmed n [] Hn)).
    rewrite clean_emit_cons. unfold is_number_line in Hn. rewrite Hn.
    simpl. rewrite app_nil_r, clean_loop_emit. reflexivity.
  - intros content. rewrite clean_srt_content_emit.
    rewrite split_join_buffer
      by (first [apply clean_emit_tidy, split_no_sep | apply clean_emit_head]).
    pose proof (clean_emit_length (split NL (strip content)) false) as Hlen.
    assert (Hs : length (split NL (strip content)) <= length (split NL content)).
    { rewrite !split_length. apply le_n_S, strip_count. }
    assert (H1 : 1 <= length (split NL (strip content))).
    { rewrite split_length. lia. }
    destruct (clean_emit (split NL (strip content)) false); simpl in *; lia.
Qed.

(** ** Surrounding whitespace of the outputs *)

Lemma clean_emit_snoc l :
  is_empty (strip l) = false -> isdigit (strip l) = false ->
  forall pre b, exists front, clean_emit (pre ++ [l]) b = front ++ [strip l].
Proof.
  intros He Hd. induction pre as [| raw pre IH]; intros b.
  - exists []. simpl. rewrite Hd, He. reflexivity.
  - change ((raw :: pre) ++ [l]) with (raw :: (pre ++ [l])).
    rewrite clean_emit_cons.
    destruct (isdigit (strip raw)).
    + destruct (confirmed (pre ++ [l])); [| apply IH].
      destruct (IH true) as [front ->]. exists (strip raw :: front). reflexivity.
    + destruct (is_empty (strip raw) && negb b); [apply IH |].
      destruct (IH true) as [front ->]. exists (strip raw :: front). reflexivity.
Qed.

Lemma fix_emit_snoc l :
  is_empty (strip l) = false -> isdigit (strip l) = false ->
  forall pre k b, exists front, fix_emit (pre ++ [l]) k b = front ++ [strip l].
Proof.
  intros He Hd. induction pre as [| raw pre IH]; intros k b.
  - exists []. simpl. rewrite Hd, He. reflexivity.
  - change ((raw :: pre) ++ [l]) with (raw :: (pre ++ [l])).
    rewrite fix_emit_cons.
    destruct (isdigit (strip raw)).
    + destruct (confirmed (pre ++ [l])); [| apply IH].
      destruct (IH (k + 1) true) as [front ->].
      exists (str_of_nat k :: front). reflexivity.
    + destruct (is_empty (strip raw) && negb b); [apply IH |].
      destruct (IH k true) as [front ->]. exists (strip raw :: front). reflexivity.
Qed.

Lemma ends_ws_app s x : is_empty x = false -> ends_ws (s ++ x) = ends_ws x.
Proof.
  intros Hx. unfold ends_ws. rewrite rev_app_distr.
  destruct x as [| c x]; [discriminate |]. simpl.
  destruct (rev x); reflexivity.
Qed.

Lemma ends_ws_join_snoc front x :
  is_empty x = false -> ends_ws (join NL (front ++ [x])) = ends_ws x.
Proof.
  intros Hx. destruct front as [| l front]; [reflexivity |].
  rewrite join_snoc by discriminate.
  change (join NL (l :: front) ++ NL :: x)
    with (join NL (l :: front) ++ [NL] ++ x).
  rewrite app_assoc. apply ends_ws_app, Hx.
Qed.

Lemma last_char s :
  is_empty s = false -> ends_ws s = false ->
  exists u x, s = u ++ [x] /\ isspace_c x = false.
Proof.
  intros Hs He. unfold ends_ws in He.
  rewrite <- (rev_involutive s) in Hs |- *.
  destruct (rev s) as [| x u]; [discriminate |].
  exists (rev u), x. split; [reflexivity | exact He].
Qed.

(** The last line of a stripped document is not blank, unless the document
    is. *)
Lemma last_line_nonblank content :
  is_empty (strip content) = false ->
  exists pre l,
    split NL (strip content) = pre ++ [l] /\ is_empty (strip l) = false.
Proof.
  intros Hs.
  destruct (last_char (strip content) Hs (strip_ends content))
    as (u & x & Hux & Hx).
  rewrite Hux. rewrite split_snoc.
  - eexists. eexists. split; [reflexivity |].
    destruct (strip (last (split NL u) [] ++ [x])) eqn:E; [| reflexivity].
    apply strip_nil_iff in E. rewrite forallb_app in E.
    apply andb_true_iff in E as [_ E]. simpl in E. rewrite Hx in E. discriminate.
  - intros ->. discriminate.
Qed.

Lemma trim_blank_tail ls : exists n, ls = trim ls ++ repeat [] n.
Proof.
  induction ls as [| l ls [n IH]]; [exists 0; reflexivity |].
  simpl. destruct (trim ls) as [| t0 t].
  - simpl in IH. destruct l as [| c l].
    + exists (S n). simpl. f_equal. exact IH.
    + exists n. simpl. f_equal. exact IH.
  - exists n. simpl. f_equal. exact IH.
Qed.

Lemma join_blank_tail ls n :
  ls <> [] -> join NL (ls ++ repeat [] n) = join NL ls ++ repeat NL n.
Proof.
  intros Hne. induction n as [| n IH]; simpl repeat.
  - rewrite !app_nil_r. reflexivity.
  - rewrite (repeat_cons n []), app_assoc, join_snoc, IH.
    + rewrite <- app_assoc. f_equal. symmetry. apply (repeat_cons n NL).
    + destruct ls; [congruence | discriminate].
Qed.

(** A joined buffer is its stripped form followed by newlines only. *)
Lemma join_newline_tail out :
  Forall tidy out -> head_nonblank out ->
  exists n, join NL out = strip (join NL out) ++ repeat NL n.
Proof.
  intros Ht Hh. rewrite strip_join by assumption.
  destruct (trim_blank_tail out) as [n Hn].
  destruct (trim out) as [| t0 t] eqn:E.
  - exists 0. simpl in Hn. rewrite Hn in Hh |- *.
    destruct n as [| n]; [reflexivity |]. simpl in Hh. congruence.
  - exists n. rewrite Hn at 1. apply join_blank_tail. discriminate.
Qed.

(** C10, as claimed, fails for a blank line followed by a stray number:
    the number is dropped and the newline of the blank line stays. *)
Lemma outputs_may_end_with_newline :
  clean_srt_content doc_trailing_number = lit "Hello" ++ [NL] /\
  fix_srt_numbering doc_trailing_number = lit "Hello" ++ [NL] /\
  ends_ws (clean_srt_content doc_trailing_number) = true /\
  ends_ws (fix_srt_numbering doc_trailing_number) = true.
Proof. repeat split; vm_compute; reflexivity. Qed.

(** C10, amended: the outputs of [clean_srt_content] and of
    [fix_srt_numbering] never begin with whitespace; whitespace at their
    end, if any, is newline characters only; and they do not end with
    whitespace when the last line of the stripped input is not a number. *)
Theorem outputs_surrounding_whitespace content :
  starts_ws (clean_srt_content content) = false /\
  starts_ws (fix_srt_numbering content) = false /\
  (exists n, clean_srt_content content
             = strip (clean_srt_content content) ++ repeat NL n) /\
  (exists n, fix_srt_numbering content
             = strip (fix_srt_numbering content) ++ repeat NL n) /\
  (is_number_line (last (split NL (strip content)) []) = false ->
   ends_ws (clean_srt_content content) = false /\
   ends_ws (fix_srt_numbering content) = false).
Proof.
  rewrite clean_srt_content_emit, fix_srt_numbering_emit.
  split; [| split; [| split; [| split]]].
  - apply join_starts; [apply clean_emit_tidy, split_no_sep | apply clean_emit_head].
  - apply join_starts; [apply fix_emit_tidy, split_no_sep | apply fix_emit_head].
  - apply join_newline_tail;
      [apply clean_emit_tidy, split_no_sep | apply clean_emit_head].
  - apply join_newline_tail;
      [apply fix_emit_tidy, split_no_sep | apply fix_emit_head].
  - intros Hlast.
    destruct (is_empty (strip content)) eqn:Hs.
    + destruct (strip content); [| discriminate]. split; reflexivity.
    + destruct (last_line_nonblank content Hs) as (pre & l & Hlines & Hl).
      rewrite Hlines in Hlast |- *. rewrite last_last in Hlast.
      unfold is_number_line in Hlast.
      destruct (clean_emit_snoc l Hl Hlast pre false) as [f1 ->].
      destruct (fix_emit_snoc l Hl Hlast pre 1 false) as [f2 ->].
      rewrite !ends_ws_join_snoc by exact Hl.
      split; apply strip_ends.
Qed.

(** ** Lines that are not numbers *)

Lemma output_lines_join out :
  Forall tidy out -> head_nonblank out -> output_lines (join NL out) = out.
Proof.
  intros Ht Hh. unfold output_lines.
  destruct out as [| l ls]; [reflexivity |].
  assert (Hne : is_empty (join NL (l :: ls)) = false).
  { simpl in Hh. destruct l as [| c l]; [congruence |].
    destruct ls; reflexivity. }
  rewrite Hne. apply (split_join_buffer (l :: ls) Ht Hh).
Qed.

Lemma clean_emit_started lines :
  filter not_number (clean_emit lines true)
  = map strip (filter (fun l => negb (is_number_line l)) lines).
Proof.
  induction lines as [| raw rest IH]; [reflexivity |].
  rewrite clean_emit_cons. simpl filter. unfold is_number_line at 1.
  destruct (isdigit (strip raw)) eqn:Hd; simpl negb.
  - destruct (confirmed rest); [| exact IH].
    simpl. unfold not_number at 1. rewrite Hd. exact IH.
  - rewrite andb_false_r. simpl. unfold not_number at 1. rewrite Hd.
    simpl. f_equal. exact IH.
Qed.

Lemma fix_emit_started lines :
  forall k,
    filter not_number (fix_emit lines k true)
    = map strip (filter (fun l => negb (is_number_line l)) lines).
Proof.
  induction lines as [| raw rest IH]; intros k; [reflexivity |].
  rewrite fix_emit_cons. simpl filter. unfold is_number_line at 1.
  destruct (isdigit (strip raw)) eqn:Hd; simpl negb.
  - destruct (confirmed rest); [| apply IH].
    simpl. unfold not_number at 1. rewrite isdigit_str_of_nat. apply IH.
  - rewrite andb_false_r. simpl. unfold not_number at 1. rewrite Hd.
    simpl. f_equal. apply IH.
Qed.

Lemma confirmed_drop_while rest :
  confirmed rest = true -> drop_while blank_or_number rest = rest.
Proof.
  destruct rest as [| nxt rest]; [discriminate |]. simpl. intros Hc.
  unfold blank_or_number, is_number_line.
  rewrite (re_match_not_digit _ Hc), (re_match_nonempty _ Hc). reflexivity.
Qed.

Lemma blank_or_number_digit raw :
  isdigit (strip raw) = true -> blank_or_number raw = true.
Proof. unfold blank_or_number, is_number_line. intros ->. reflexivity. Qed.

Lemma blank_or_number_text raw :
  isdigit (strip raw) = false -> blank_or_number raw = is_empty (strip raw).
Proof. unfold blank_or_number, is_number_line. intros ->. reflexivity. Qed.

Lemma kept_text_cons_drop raw rest :
  blank_or_number raw = true -> kept_text (raw :: rest) = kept_text rest.
Proof. unfold kept_text. simpl. intros ->. reflexivity. Qed.

Lemma kept_text_cons_keep raw rest :
  isdigit (strip raw) = false -> is_empty (strip raw) = false ->
  kept_text (raw :: rest)
  = strip raw :: map strip (filter (fun l => negb (is_number_line l)) rest).
Proof.
  intros Hd He. unfold kept_text. simpl drop_while.
  rewrite (blank_or_number_text raw Hd), He. simpl filter.
  unfold is_number_line at 1. rewrite Hd. reflexivity.
Qed.

Lemma kept_text_confirmed rest :
  confirmed rest = true ->
  kept_text rest = map strip (filter (fun l => negb (is_number_line l)) rest).
Proof.
  intros Hc. unfold kept_text. rewrite (confirmed_drop_while rest Hc).
  reflexivity.
Qed.

Lemma clean_emit_kept lines :
  filter not_number (clean_emit lines false) = kept_text lines.
Proof.
  induction lines as [| raw rest IH]; [reflexivity |].
  rewrite clean_emit_cons.
  destruct (isdigit (strip raw)) eqn:Hd.
  - rewrite (kept_text_cons_drop raw rest (blank_or_number_digit raw Hd)).
    destruct (confirmed rest) eqn:Hc; [| exact IH].
    simpl filter. unfold not_number at 1. rewrite Hd. simpl.
    rewrite clean_emit_started, (kept_text_confirmed rest Hc). reflexivity.
  - simpl negb. rewrite andb_true_r.
    destruct (is_empty (strip raw)) eqn:He.
    + rewrite kept_text_cons_drop; [exact IH |].
      rewrite (blank_or_number_text raw Hd). exact He.
    + rewrite (kept_text_cons_keep raw rest Hd He).
      simpl filter. unfold not_number at 1. rewrite Hd. simpl.
      f_equal. apply clean_emit_started.
Qed.

Lemma fix_emit_kept lines :
  forall k, filter not_number (fix_emit lines k false) = kept_text lines.
Proof.
  induction lines as [| raw rest IH]; intros k; [reflexivity |].
  rewrite fix_emit_cons.
  destruct (isdigit (strip raw)) eqn:Hd.
  - rewrite (kept_text_cons_drop raw rest (blank_or_number_digit raw Hd)).
    destruct (confirmed rest) eqn:Hc; [| apply IH].
    simpl filter. unfold not_number at 1. rewrite isdigit_str_of_nat. simpl.
    rewrite fix_emit_started, (kept_text_confirmed rest Hc). reflexivity.
  - simpl negb. rewrite andb_true_r.
    destruct (is_empty (strip raw)) eqn:He.
    + rewrite kept_text_cons_drop; [apply IH |].
      rewrite (blank_or_number_text raw Hd). exact He.
    + rewrite (kept_text_cons_keep raw rest Hd He).
      simpl filter. unfold not_number at 1. rewrite Hd. simpl.
      f_equal. apply fix_emit_started.
Qed.

(** C7, as claimed, fails for a text line with spaces around it: the line
    is in the input and in neither output, which have it stripped. *)
Lemma padded_line_is_stripped :
  In (lit "  Hello  ") (split NL doc_padded_line) /\
  isdigit (lit "  Hello  ") = false /\
  clean_srt_content doc_padded_line = join NL [lit "a"; lit "Hello"; lit "b"] /\
  fix_srt_numbering doc_padded_line = join NL [lit "a"; lit "Hello"; lit "b"] /\
  ~ In (lit "  Hello  ") (split NL (clean_srt_content doc_padded_line)) /\
  ~ In (lit "  Hello  ") (split NL (fix_srt_numbering doc_padded_line)).
Proof.
  split; [vm_compute; auto |].
  split; [vm_compute; reflexivity |].
  split; [vm_compute; reflexivity |].
  split; [vm_compute; reflexivity |].
  split; vm_compute; intros [H | [H | [H | []]]]; discriminate.
Qed.

(** ** Instances *)

(** The two end-to-end scenarios of the specification. *)
Example scenario_duplicate_number :
  clean_srt_content doc_duplicate_number
  = join NL [lit "1"; interval_A; lit "Hello"] /\
  fix_srt_numbering (clean_srt_content doc_duplicate_number)
  = join NL [lit "1"; interval_A; lit "Hello"].
Proof. split; vm_compute; reflexivity. Qed.

Example scenario_stray_number :
  clean_srt_content doc_stray_number = lit "Some text" /\
  fix_srt_numbering doc_stray_number = lit "Some text".
Proof. split; vm_compute; reflexivity. Qed.

(** C2 at [doc_two_cues]. *)
Lemma fix_srt_numbering_sequence_witness :
  split NL (fix_srt_numbering doc_two_cues) = renumbered 1 two_cues /\
  length (filter isdigit (split NL (fix_srt_numbering doc_two_cues)))
  = length two_cues /\
  length (filter (re_match timestamp_pattern)
            (split NL (fix_srt_numbering doc_two_cues)))
  = length two_cues.
Proof.
  apply (proj2 fix_srt_numbering_sequence doc_two_cues two_cues);
    vm_compute; reflexivity.
Defined.

(** C4 at [doc_duplicate_number]: the run [1], [1] before the interval,
    and the [3] at the end. *)
Lemma clean_srt_content_numbers_witness :
  (clean_srt_content doc_duplicate_number
   = join NL (clean_loop [lit "Hello"; lit "3"]
                (clean_loop [] [] ++ [strip (last [lit "1"; lit "1"] []);
                                      strip interval_A])) /\
   isdigit (last (clean_loop [] []) []) = false) /\
  (clean_srt_content doc_duplicate_number
   = join NL (clean_loop [lit "1"; lit "1"; interval_A; lit "Hello"] []) /\
   isdigit (last (clean_loop [lit "1"; lit "1"; interval_A; lit "Hello"] []) [])
   = false).
Proof.
  split.
  - apply (proj1 clean_srt_content_numbers doc_duplicate_number
             [] [lit "1"; lit "1"] interval_A [lit "Hello"; lit "3"]);
      [vm_compute; reflexivity | discriminate
      | vm_compute; reflexivity | vm_compute; reflexivity].
  - apply (proj1 (proj2 clean_srt_content_numbers) doc_duplicate_number
             [lit "1"; lit "1"; interval_A; lit "Hello"] (lit "3"));
      vm_compute; reflexivity.
Defined.

(** C10 at [doc_padded]. *)
Lemma outputs_surrounding_whitespace_witness :
  ends_ws (clean_srt_content doc_padded) = false /\
  ends_ws (fix_srt_numbering doc_padded) = false.
Proof.
  apply (proj2 (proj2 (proj2 (proj2 (outputs_surrounding_whitespace doc_padded))))).
  vm_compute. reflexivity.
Defined.

(** * Further properties *)

(** ** The two passes together *)

Lemma fix_emit_renumber lines :
  forall k b, fix_emit lines k b = renumber k (clean_emit lines b).
Proof.
  induction lines as [| raw rest IH]; intros k b; [reflexivity |].
  rewrite fix_emit_cons, clean_emit_cons.
  destruct (isdigit (strip raw)) eqn:Hd.
  - destruct (confirmed rest); [| apply IH].
    simpl. rewrite Hd. f_equal. apply IH.
  - destruct (is_empty (strip raw) && negb b); [apply IH |].
    simpl. rewrite Hd. f_equal. apply IH.
Qed.

Lemma clean_emit_filtered lines : forall b, filtered (clean_emit lines b).
Proof.
  induction lines as [| raw rest IH]; intros b; [constructor |].
  rewrite clean_emit_cons.
  destruct (isdigit (strip raw)) eqn:Hd.
  - destruct (confirmed rest) eqn:Hc; [| apply IH].
    destruct rest as [| nxt rest']; [discriminate |].
    pose proof (IH true) as H.
    rewrite clean_emit_interval in H |- * by exact Hc.
    apply filtered_num;
      [apply strip_idem | exact Hd | apply strip_idem | exact Hc | exact H].
  - destruct (is_empty (strip raw) && negb b); [apply IH |].
    apply filtered_text; [apply strip_idem | exact Hd | apply IH].
Qed.

Lemma fixed_filtered k ls : fixed k ls -> filtered ls.
Proof.
  induction 1 as [k | k l ls Hl Hd _ IH | k t ls Ht Hm _ IH].
  - constructor.
  - apply filtered_text; assumption.
  - apply filtered_num; try assumption.
    + apply isdigit_strip_id, isdigit_str_of_nat.
    + apply isdigit_str_of_nat.
Qed.

Lemma clean_emit_of_filtered ls :
  filtered ls -> forall b, b = true \/ head_nonblank ls -> clean_emit ls b = ls.
Proof.
  induction 1 as [| l ls Hl Hd _ IH | n t ls Hn Hdn Ht Hm _ IH]; intros b Hb.
  - reflexivity.
  - rewrite clean_emit_cons, Hl, Hd.
    assert (He : is_empty l && negb b = false).
    { destruct Hb as [-> | Hb]; [apply andb_false_r |].
      simpl in Hb. destruct l; [congruence | reflexivity]. }
    rewrite He. f_equal. apply IH. left. reflexivity.
  - rewrite clean_emit_cons, Hn, Hdn. unfold confirmed. rewrite Ht, Hm.
    f_equal. apply IH. left. reflexivity.
Qed.

Lemma fix_emit_of_filtered ls k b :
  filtered ls -> b = true \/ head_nonblank ls -> fix_emit ls k b = renumber k ls.
Proof.
  intros Hf Hb. rewrite fix_emit_renumber.
  rewrite (clean_emit_of_filtered ls Hf b Hb). reflexivity.
Qed.

Lemma trim_filtered ls : filtered ls -> filtered (trim ls).
Proof.
  induction 1 as [| l ls Hl Hd _ IH | n t ls Hn Hdn Ht Hm _ IH].
  - constructor.
  - simpl. destruct (trim ls) as [| t0 t].
    + destruct (is_empty l); [constructor |].
      apply filtered_text; [assumption | assumption | constructor].
    + apply filtered_text; assumption.
  - destruct (trim_cons_nonblank t ls) as [ls' Hls'].
    { apply is_empty_false, re_match_nonempty, Hm. }
    change (trim (n :: t :: ls))
      with (match trim (t :: ls) with
            | [] => if is_empty n then [] else [n]
            | x => n :: x
            end).
    destruct (trim (t :: ls)) as [| x xs]; [discriminate |].
    injection Hls' as -> ->. apply filtered_num; assumption.
Qed.

Lemma renumber_nil_iff k ls : renumber k ls = [] <-> ls = [].
Proof.
  destruct ls as [| l ls]; simpl; [tauto |].
  destruct (isdigit l); split; discriminate.
Qed.

Lemma trim_renumber ls : forall k, trim (renumber k ls) = renumber k (trim ls).
Proof.
  induction ls as [| l ls IH]; intros k; [reflexivity |].
  simpl renumber. destruct (isdigit l) eqn:Hd.
  - simpl trim. rewrite IH.
    destruct (trim ls) as [| t0 t] eqn:E.
    + simpl. rewrite (isdigit_is_empty _ Hd), (isdigit_is_empty _ (isdigit_str_of_nat k)).
      simpl. rewrite Hd. reflexivity.
    + destruct (renumber (k + 1) (t0 :: t)) as [| r0 r] eqn:Er.
      * apply renumber_nil_iff in Er. discriminate.
      * rewrite <- Er. simpl. rewrite Hd. reflexivity.
  - simpl trim. rewrite IH.
    destruct (trim ls) as [| t0 t] eqn:E.
    + simpl. destruct (is_empty l); [reflexivity |]. simpl. rewrite Hd. reflexivity.
    + destruct (renumber k (t0 :: t)) as [| r0 r] eqn:Er.
      * apply renumber_nil_iff in Er. discriminate.
      * rewrite <- Er. simpl. rewrite Hd. reflexivity.
Qed.

(** What a pass makes of a joined buffer: the buffer without its trailing
    blank lines goes through the loop. *)
Lemma lines_of_buffer out :
  Forall tidy out -> head_nonblank out ->
  split NL (strip (join NL out))
  = match trim out with [] => [[]] | _ => trim out end.
Proof.
  intros Ht Hh. rewrite strip_join by assumption.
  apply split_join_buffer; [apply trim_tidy, Ht | apply trim_head, Hh].
Qed.

(** X1: renumbering after the duplicate filter gives what renumbering alone
    gives, stripped. *)
Theorem fix_after_clean content :
  fix_srt_numbering (clean_srt_content content)
  = strip (fix_srt_numbering content).
Proof.
  rewrite (fix_srt_numbering_emit content), clean_srt_content_emit.
  set (L := split NL (strip content)).
  rewrite fix_emit_renumber.
  set (E := clean_emit L false).
  assert (Ht : Forall tidy E) by apply clean_emit_tidy, split_no_sep.
  assert (Hh : head_nonblank E) by apply clean_emit_head.
  assert (Hf : filtered E) by apply clean_emit_filtered.
  assert (Ht' : Forall tidy (renumber 1 E)).
  { unfold E. rewrite <- fix_emit_renumber. apply fix_emit_tidy, split_no_sep. }
  assert (Hh' : head_nonblank (renumber 1 E)).
  { unfold E. rewrite <- fix_emit_renumber. apply fix_emit_head. }
  rewrite fix_srt_numbering_emit, lines_of_buffer by assumption.
  rewrite (strip_join _ Ht' Hh'), trim_renumber. f_equal.
  destruct (trim E) as [| l ls] eqn:HE; [reflexivity |].
  rewrite <- HE. apply fix_emit_of_filtered; [apply trim_filtered, Hf |].
  right. apply trim_head, Hh.
Qed.

(** X2: the duplicate filter applied to its own output, or to the output of
    the renumbering pass, only strips it. *)
Theorem clean_of_outputs content :
  clean_srt_content (clean_srt_content content)
  = strip (clean_srt_content content) /\
  clean_srt_content (fix_srt_numbering content)
  = strip (fix_srt_numbering content).
Proof.
  assert (H : forall E, Forall tidy E -> head_nonblank E -> filtered E ->
                        clean_srt_content (join NL E) = strip (join NL E)).
  { intros E Ht Hh Hf.
    rewrite clean_srt_content_emit, lines_of_buffer by assumption.
    rewrite strip_join by assumption. f_equal.
    destruct (trim E) as [| l ls] eqn:HE; [reflexivity |].
    rewrite <- HE. apply clean_emit_of_filtered; [apply trim_filtered, Hf |].
    right. apply trim_head, Hh. }
  split.
  - rewrite (clean_srt_content_emit content).
    apply H; [apply clean_emit_tidy, split_no_sep | apply clean_emit_head
             | apply clean_emit_filtered].
  - rewrite (fix_srt_numbering_emit content).
    apply H; [apply fix_emit_tidy, split_no_sep | apply fix_emit_head |].
    apply (fixed_filtered 1), fix_emit_fixed.
Qed.

Lemma filtered_numbers_followed ls : filtered ls -> numbers_followed ls = true.
Proof.
  induction 1 as [| l ls Hl Hd _ IH | n t ls Hn Hdn Ht Hm _ IH].
  - reflexivity.
  - simpl. rewrite Hd. exact IH.
  - change (numbers_followed (n :: t :: ls))
      with ((negb (isdigit n) || re_match timestamp_pattern t)
            && numbers_followed (t :: ls)).
    rewrite Hm, orb_true_r. exact IH.
Qed.

Lemma numbers_followed_count ls :
  numbers_followed ls = true ->
  length (filter isdigit ls) <= length (filter (re_match timestamp_pattern) ls).
Proof.
  (* a number is paid for by the interval after it *)
  assert (H : forall ls,
             numbers_followed ls = true ->
             length (filter isdigit ls)
             + (match ls with
                | t :: _ => if re_match timestamp_pattern t then 1 else 0
                | [] => 0
                end)
             <= length (filter (re_match timestamp_pattern) ls)).
  { clear ls. induction ls as [| l rest IH]; [reflexivity |].
    intros H. simpl in H. apply andb_true_iff in H as [Hl Hrest].
    specialize (IH Hrest). simpl filter.
    destruct (re_match timestamp_pattern l) eqn:Hm.
    - rewrite (re_match_not_digit _ Hm). simpl.
      destruct rest as [| t rest']; simpl in IH |- *; [lia |].
      destruct (re_match timestamp_pattern t); lia.
    - destruct (isdigit l) eqn:Hd; simpl in Hl |- *.
      + destruct rest as [| t rest']; [discriminate |].
        rewrite Hl in IH. lia.
      + destruct rest as [| t rest']; simpl in IH |- *; [lia |].
        destruct (re_match timestamp_pattern t); lia. }
  intros Hf. specialize (H ls Hf). lia.
Qed.

(** X3: for every input, each numeric line of either output is directly
    followed by a line that starts with an interval; so an output never
    has more numbers than intervals. *)
Theorem outputs_numbers_followed content :
  numbers_followed (split NL (clean_srt_content content)) = true /\
  numbers_followed (split NL (fix_srt_numbering content)) = true /\
  length (filter isdigit (split NL (clean_srt_content content)))
  <= length (filter (re_match timestamp_pattern)
               (split NL (clean_srt_content content))) /\
  length (filter isdigit (split NL (fix_srt_numbering content)))
  <= length (filter (re_match timestamp_pattern)
               (split NL (fix_srt_numbering content))).
Proof.
  assert (H : forall E, Forall tidy E -> head_nonblank E -> filtered E ->
                        numbers_followed (split NL (join NL E)) = true).
  { intros E Ht Hh Hf. rewrite split_join_buffer by assumption.
    destruct E; [reflexivity | apply filtered_numbers_followed, Hf]. }
  assert (Hc : numbers_followed (split NL (clean_srt_content content)) = true).
  { rewrite clean_srt_content_emit.
    apply H; [apply clean_emit_tidy, split_no_sep | apply clean_emit_head
             | apply clean_emit_filtered]. }
  assert (Hx : numbers_followed (split NL (fix_srt_numbering content)) = true).
  { rewrite fix_srt_numbering_emit.
    apply H; [apply fix_emit_tidy, split_no_sep | apply fix_emit_head |].
    apply (fixed_filtered 1), fix_emit_fixed. }
  repeat split; try assumption; apply numbers_followed_count; assumption.
Qed.

(** ** Extraction of the intervals *)

Lemma splits_nil : splits (re_seq []).
Proof.
  intros s r H. simpl in H. injection H as ->. exists []. split; reflexivity.
Qed.

Lemma splits_one p rest : splits (re_seq rest) -> splits (re_seq (One p :: rest)).
Proof.
  intros IH s r H. simpl in H.
  destruct s as [| c s]; [discriminate |].
  destruct (p c) eqn:Hc; [| discriminate].
  destruct (IH s r H) as (m & -> & Hm).
  exists (c :: m). split; [reflexivity |]. simpl. rewrite Hc. exact Hm.
Qed.

Lemma splits_star p q rest :
  (forall c, p c = true -> q c = false) ->
  splits (re_seq (One q :: rest)) ->
  splits (re_seq (Star p :: One q :: rest)).
Proof.
  intros Hpq IH s r.
  assert (Hk : forall c s, p c = true -> re_seq (One q :: rest) (c :: s) = None).
  { intros c s' Hc. simpl. rewrite (Hpq c Hc). reflexivity. }
  change (re_seq (Star p :: One q :: rest))
    with (star_try p (re_seq (One q :: rest))).
  induction s as [| c s IHs]; intros H.
  - simpl in H. discriminate.
  - destruct (p c) eqn:Hc.
    + rewrite star_try_skip in H by assumption.
      destruct (IHs H) as (m & -> & Hm).
      exists (c :: m). split; [reflexivity |].
      rewrite star_try_skip by assumption. exact Hm.
    + simpl in H. rewrite Hc in H.
      destruct (IH (c :: s) r H) as (m & Hs & Hm).
      exists m. split; [exact Hs |].
      destruct m as [| c' m]; [simpl in Hm; discriminate |].
      injection Hs as <- _. simpl star_try. rewrite Hc. exact Hm.
Qed.

Lemma timestamp_pattern_splits : splits (re_seq timestamp_pattern).
Proof.
  unfold timestamp_pattern, stamp. simpl app.
  repeat first
    [ apply splits_nil
    | apply splits_one
    | apply splits_star;
      [ first [ apply space_not_decimal
              | intros c Hc; apply space_not_char; [reflexivity | exact Hc] ] | ] ].
Qed.

Lemma exact_iff m : exact m = true <-> re_seq timestamp_pattern m = Some [].
Proof.
  unfold exact. destruct (re_seq timestamp_pattern m) as [[| c r] |];
    split; intros H; try reflexivity; discriminate.
Qed.

Lemma exact_nonempty m : exact m = true -> m <> [].
Proof. intros H ->. discriminate. Qed.

(** A match at the start of a text: the matched part is an interval on
    its own. *)
Lemma re_seq_exact s r :
  re_seq timestamp_pattern s = Some r ->
  exists m, s = m ++ r /\ exact m = true.
Proof.
  intros H. destruct (timestamp_pattern_splits s r H) as (m & Hs & Hm).
  exists m. split; [exact Hs | apply exact_iff, Hm].
Qed.

Lemma exact_app m r :
  exact m = true -> re_seq timestamp_pattern (m ++ r) = Some r.
Proof.
  intros H. apply exact_iff in H.
  apply (timestamp_pattern_extends m [] r H).
Qed.

Lemma findall_skip pattern m : forall r,
  findall_from (length m) pattern (m ++ r) = findall_from 0 pattern r.
Proof.
  induction m as [| c m IH]; intros r; [reflexivity |].
  simpl. apply IH.
Qed.

Lemma firstn_app_length {A} (m r : list A) :
  firstn (length (m ++ r) - length r) (m ++ r) = m.
Proof.
  rewrite length_app, Nat.add_sub.
  rewrite firstn_app, Nat.sub_diag, firstn_all. simpl. apply app_nil_r.
Qed.

(** [findall] at a match: the match, then the rest of the text. *)
Lemma findall_exact m r :
  exact m = true ->
  re_findall timestamp_pattern (m ++ r) = m :: re_findall timestamp_pattern r.
Proof.
  intros H. unfold re_findall.
  pose proof (exact_app m r H) as Hm.
  destruct m as [| c m]; [discriminate |].
  change ((c :: m) ++ r) with (c :: (m ++ r)) in Hm |- *.
  cbn [findall_from]. rewrite Hm.
  change (c :: (m ++ r)) with ((c :: m) ++ r).
  rewrite firstn_app_length. f_equal.
  replace (length (c :: m) - 1) with (length m) by (simpl; lia).
  apply findall_skip.
Qed.

(** [findall] where no interval starts: on to the next character. *)
Lemma findall_none c s :
  re_seq timestamp_pattern (c :: s) = None ->
  re_findall timestamp_pattern (c :: s) = re_findall timestamp_pattern s.
Proof. intros H. unfold re_findall. cbn [findall_from]. rewrite H. reflexivity. Qed.

Lemma unscan_cons c pieces tail :
  exists pieces' tail',
    c :: unscan pieces tail = unscan pieces' tail' /\
    map snd pieces' = map snd pieces.
Proof.
  destruct pieces as [| [g m] ps].
  - exists [], (c :: tail). split; reflexivity.
  - exists ((c :: g, m) :: ps), tail. split; reflexivity.
Qed.

Lemma findall_scan n : forall s,
  length s <= n ->
  exists pieces tail,
    s = unscan pieces tail /\
    map snd pieces = re_findall timestamp_pattern s /\
    forallb exact (re_findall timestamp_pattern s) = true.
Proof.
  induction n as [| n IH]; intros s Hn.
  - destruct s; [| simpl in Hn; lia]. exists [], []. repeat split.
  - destruct s as [| c s]; [exists [], []; repeat split |].
    destruct (re_seq timestamp_pattern (c :: s)) as [r |] eqn:E.
    + destruct (re_seq_exact _ _ E) as (m & Hs & Hm).
      assert (Hr : length r <= n).
      { pose proof (exact_nonempty m Hm) as Hne.
        apply (f_equal (@length _)) in Hs. rewrite length_app in Hs.
        simpl in Hs, Hn. destruct m; [congruence | simpl in Hs; lia]. }
      destruct (IH r Hr) as (ps & tail & Hr1 & Hr2 & Hr3).
      rewrite Hs, findall_exact by exact Hm.
      exists (([], m) :: ps), tail. simpl. rewrite Hm, Hr3, <- Hr1, Hr2.
      repeat split.
    + rewrite findall_none by exact E.
      assert (Hs : length s <= n) by (simpl in Hn; lia).
      destruct (IH s Hs) as (ps & tail & Hs1 & Hs2 & Hs3).
      destruct (unscan_cons c ps tail) as (ps' & tail' & Hc1 & Hc2).
      exists ps', tail'. rewrite <- Hc1, <- Hs1, Hc2. auto.
Qed.

(** X4: what [extract_timestamps_from_content] returns are intervals, each
    matched by the pattern from its first to its last character, and they
    lie in the content in that order, one after the other. *)
Theorem extract_timestamps_scan content :
  forallb exact (extract_timestamps_from_content content) = true /\
  exists pieces tail,
    content = unscan pieces tail /\
    map snd pieces = extract_timestamps_from_content content.
Proof.
  destruct (findall_scan (length content) content (le_n _))
    as (ps & tail & H1 & H2 & H3).
  split; [exact H3 |]. exists ps, tail. split; assumption.
Qed.

(** ** Restoration when the intervals stand on lines of their own *)

Lemma re_seq_ones_app a b : forall s,
  ones a = length a ->
  re_seq (a ++ b) s
  = match re_seq a s with
    | Some r => re_seq b r
    | None => None
    end.
Proof.
  induction a as [| [p | p] a IH]; intros s Ha.
  - reflexivity.
  - simpl in Ha. injection Ha as Ha. simpl.
    destruct s as [| c s]; [reflexivity |].
    destruct (p c); [apply IH, Ha | reflexivity].
  - exfalso. simpl in Ha.
    assert (H : forall l, ones l <= length l).
    { clear. induction l as [| [q | q] l IHl]; simpl; lia. }
    specialize (H a). lia.
Qed.

Lemma pattern_needs_stamp s r :
  re_seq timestamp_pattern s = Some r -> stamp_at s = true.
Proof.
  unfold timestamp_pattern, stamp_at.
  rewrite re_seq_ones_app by reflexivity.
  destruct (re_seq stamp s); [reflexivity | discriminate].
Qed.

Lemma exact_stamp_at m r : exact m = true -> stamp_at (m ++ r) = true.
Proof.
  intros H. apply (pattern_needs_stamp (m ++ r) r), exact_app, H.
Qed.

(** A timestamp does not run over a newline. *)
Lemma ones_newline items :
  ones items = length items ->
  (forall p, In (One p) items -> p NL = false) ->
  forall x r, re_seq items x = None -> re_seq items (x ++ NL :: r) = None.
Proof.
  induction items as [| [p | p] items IH]; intros Hi Hp x r H.
  - simpl in H. discriminate.
  - simpl in Hi. injection Hi as Hi.
    destruct x as [| c x]; simpl in H |- *.
    + rewrite (Hp p (or_introl eq_refl)). reflexivity.
    + destruct (p c); [| reflexivity].
      apply IH; [exact Hi | | exact H].
      intros q Hq. apply Hp. right. exact Hq.
  - exfalso. simpl in Hi.
    assert (Hle : forall l, ones l <= length l).
    { clear. induction l as [| [q | q] l IHl]; simpl; lia. }
    specialize (Hle items). lia.
Qed.

Lemma stamp_at_newline x r :
  stamp_at x = false -> stamp_at (x ++ NL :: r) = false.
Proof.
  unfold stamp_at. intros H.
  destruct (re_seq stamp x) eqn:E; [discriminate |].
  rewrite (ones_newline stamp); [reflexivity | reflexivity | | exact E].
  intros p Hp. unfold stamp in Hp. simpl in Hp.
  repeat (destruct Hp as [Hp | Hp]; [injection Hp as <-; reflexivity |]).
  destruct Hp.
Qed.

Lemma has_stamp_cons c s : has_stamp (c :: s) = false ->
  stamp_at (c :: s) = false /\ has_stamp s = false.
Proof. simpl. intros H. apply orb_false_iff in H. exact H. Qed.

Lemma findall_newline s :
  re_findall timestamp_pattern (NL :: s) = re_findall timestamp_pattern s.
Proof. apply findall_none. reflexivity. Qed.

Lemma findall_stampless g : forall r,
  has_stamp g = false ->
  re_findall timestamp_pattern (g ++ NL :: r) = re_findall timestamp_pattern r.
Proof.
  induction g as [| c g IH]; intros r H.
  - apply findall_newline.
  - apply has_stamp_cons in H as [Hc Hg].
    change ((c :: g) ++ NL :: r) with (c :: (g ++ NL :: r)).
    rewrite findall_none; [apply IH, Hg |].
    destruct (re_seq timestamp_pattern (c :: g ++ NL :: r)) eqn:E;
      [| reflexivity].
    apply pattern_needs_stamp in E.
    change (c :: g ++ NL :: r) with ((c :: g) ++ NL :: r) in E.
    rewrite stamp_at_newline in E by exact Hc. discriminate.
Qed.

Lemma findall_stampless_end g :
  has_stamp g = false -> re_findall timestamp_pattern g = [].
Proof.
  induction g as [| c g IH]; intros H; [reflexivity |].
  apply has_stamp_cons in H as [Hc Hg].
  rewrite findall_none; [apply IH, Hg |].
  destruct (re_seq timestamp_pattern (c :: g)) eqn:E; [| reflexivity].
  apply pattern_needs_stamp in E. congruence.
Qed.

Lemma findall_join ls :
  forallb doc_line ls = true ->
  re_findall timestamp_pattern (join NL ls) = filter exact ls.
Proof.
  induction ls as [| l ls IH]; intros H; [reflexivity |].
  simpl in H. apply andb_true_iff in H as [Hl Hls].
  unfold doc_line in Hl. apply andb_true_iff in Hl as [_ Hl].
  specialize (IH Hls). simpl filter.
  destruct ls as [| l' ls].
  - simpl join. destruct (exact l) eqn:He.
    + rewrite <- (app_nil_r l) at 1. rewrite findall_exact by exact He.
      reflexivity.
    + simpl in Hl. apply negb_true_iff in Hl.
      apply findall_stampless_end, Hl.
  - rewrite join_cons. destruct (exact l) eqn:He.
    + rewrite findall_exact by exact He.
      rewrite findall_newline, IH. reflexivity.
    + simpl in Hl. apply negb_true_iff in Hl.
      rewrite findall_stampless by exact Hl. exact IH.
Qed.

(** *** Counting the characters of an interval *)

Lemma count_nonspace_cons c s :
  count_nonspace (c :: s)
  = (if isspace_c c then 0 else 1) + count_nonspace s.
Proof. unfold count_nonspace. simpl. destruct (isspace_c c); reflexivity. Qed.

Lemma count_nonspace_app s t :
  count_nonspace (s ++ t) = count_nonspace s + count_nonspace t.
Proof. unfold count_nonspace. rewrite filter_app. apply length_app. Qed.

Lemma classed_count items :
  classed items ->
  forall s r, re_seq items s = Some r ->
              count_nonspace s = ones items + count_nonspace r.
Proof.
  induction items as [| [p | p] items IH]; intros Hc s r H.
  - simpl in H. injection H as ->. reflexivity.
  - destruct Hc as [Hp Hc]. simpl in H.
    destruct s as [| c s]; [discriminate |].
    destruct (p c) eqn:E; [| discriminate].
    rewrite count_nonspace_cons, (Hp c E), (IH Hc s r H). reflexivity.
  - destruct Hc as [Hp Hc]. simpl in H |- *.
    induction s as [| c s IHs]; [exact (IH Hc [] r H) |].
    simpl in H. destruct (p c) eqn:E; [| exact (IH Hc (c :: s) r H)].
    destruct (star_try p (re_seq items) s) as [r' |] eqn:Es.
    + injection H as ->.
      rewrite count_nonspace_cons, (Hp c E). apply IHs. reflexivity.
    + exact (IH Hc (c :: s) r H).
Qed.

Lemma is_char_not_space a c :
  isspace_c a = false -> is_char a c = true -> isspace_c c = false.
Proof. unfold is_char. intros Ha Hc. apply N.eqb_eq in Hc. subst. exact Ha. Qed.

Lemma decimal_not_space c : isdecimal_c c = true -> isspace_c c = false.
Proof. apply (ranges_disjoint_sound decimal_ranges space_ranges). reflexivity. Qed.

Lemma timestamp_pattern_classed : classed timestamp_pattern.
Proof.
  unfold timestamp_pattern, stamp. cbn [app classed].
  repeat split;
    first [ exact decimal_not_space
          | intros c Hc; exact Hc
          | intros c; apply is_char_not_space; reflexivity ].
Qed.

Lemma exact_count m : exact m = true -> count_nonspace m = 27.
Proof.
  intros H. apply exact_iff in H.
  apply (classed_count _ timestamp_pattern_classed) in H. exact H.
Qed.

Lemma exact_head m :
  exact m = true -> exists c m', m = c :: m' /\ isspace_c c = false.
Proof.
  intros H. apply exact_iff in H. unfold timestamp_pattern, stamp in H.
  simpl in H. destruct m as [| c m]; [discriminate |].
  destruct (isdecimal_c c) eqn:E; [| discriminate].
  exists c, m. split; [reflexivity | apply decimal_not_space, E].
Qed.

Lemma count_nonspace_zero s : count_nonspace s = 0 -> forallb isspace_c s = true.
Proof.
  induction s as [| c s IH]; [reflexivity |].
  rewrite count_nonspace_cons. simpl.
  destruct (isspace_c c); simpl; [exact IH | discriminate].
Qed.

(** An interval inside an interval is the whole of it. *)
Lemma exact_inside l p a b :
  exact l = true -> exact p = true -> l = a ++ p ++ b -> l = p.
Proof.
  intros Hl Hp Hab.
  pose proof (exact_count l Hl) as Cl. pose proof (exact_count p Hp) as Cp.
  rewrite Hab, !count_nonspace_app, Cp in Cl.
  assert (Ca : count_nonspace a = 0) by lia.
  assert (Ha : a = []).
  { destruct a as [| c a]; [reflexivity |]. exfalso.
    destruct (exact_head l Hl) as (c' & l' & Hl' & Hc').
    rewrite Hab in Hl'. injection Hl' as <- _.
    apply count_nonspace_zero in Ca. simpl in Ca. rewrite Hc' in Ca.
    discriminate. }
  subst a. simpl in Hab. subst l.
  pose proof (exact_app p b Hp) as H1. apply exact_iff in Hl.
  rewrite H1 in Hl. injection Hl as ->. apply app_nil_r.
Qed.

(** *** [startswith] and [replace] *)

Lemma startswith_iff s p : startswith s p = true <-> exists r, s = p ++ r.
Proof.
  revert s. induction p as [| a p IH]; intros s.
  - destruct s; simpl; split; eauto.
  - destruct s as [| b s]; simpl.
    + split; [discriminate | intros [r H]; discriminate].
    + rewrite andb_true_iff, N.eqb_eq, IH. split.
      * intros [-> [r ->]]. exists r. reflexivity.
      * intros [r H]. injection H as -> ->. eauto.
Qed.

Lemma one_line_not_in p : one_line p = true -> ~ In NL p.
Proof.
  unfold one_line. intros H Hin. rewrite forallb_forall in H.
  specialize (H NL Hin). discriminate.
Qed.

Lemma startswith_before c x r p :
  ~ In c p -> startswith (x ++ c :: r) p = true -> startswith x p = true.
Proof.
  revert x. induction p as [| a p IH]; intros x Hp H.
  - destruct x; reflexivity.
  - destruct x as [| b x]; simpl in H |- *.
    + apply andb_true_iff in H as [H _]. apply N.eqb_eq in H.
      exfalso. apply Hp. left. exact H.
    + apply andb_true_iff in H as [H1 H2]. rewrite H1. simpl.
      apply IH; [intros Hin; apply Hp; right; exact Hin | exact H2].
Qed.

Lemma replace1_unfold old new s :
  replace1 old new s
  = if startswith s old then new ++ skipn (length old) s
    else match s with
         | [] => []
         | c :: s' => c :: replace1 old new s'
         end.
Proof. destruct s; reflexivity. Qed.

Lemma replace1_here p new r : replace1 p new (p ++ r) = new ++ r.
Proof.
  rewrite replace1_unfold.
  assert (H : startswith (p ++ r) p = true) by (apply startswith_iff; eauto).
  rewrite H, skipn_app, skipn_all, Nat.sub_diag. reflexivity.
Qed.

Lemma replace1_pass d p new t :
  (forall y x, d = y ++ x -> x <> [] -> startswith (x ++ t) p = false) ->
  replace1 p new (d ++ t) = d ++ replace1 p new t.
Proof.
  induction d as [| c d IH]; intros H; [reflexivity |].
  change ((c :: d) ++ t) with (c :: (d ++ t)).
  rewrite replace1_unfold.
  change (c :: (d ++ t)) with ((c :: d) ++ t).
  rewrite (H [] (c :: d) eq_refl) by discriminate.
  simpl. f_equal. apply IH.
  intros y x Hd Hx. apply (H (c :: y) x); [rewrite Hd; reflexivity | exact Hx].
Qed.

Lemma replace1_same p : forall s, replace1 p p s = s.
Proof.
  induction s as [| c s IH]; rewrite replace1_unfold.
  - destruct (startswith [] p) eqn:E; [| reflexivity].
    apply startswith_iff in E as [r E]. destruct p; [reflexivity | discriminate].
  - destruct (startswith (c :: s) p) eqn:E; [| rewrite IH; reflexivity].
    apply startswith_iff in E as [r E]. rewrite E at 2.
    rewrite E, skipn_app, skipn_all, Nat.sub_diag. reflexivity.
Qed.

Lemma has_stamp_suffix y x : has_stamp (y ++ x) = false -> has_stamp x = false.
Proof.
  induction y as [| c y IH]; intros H; [exact H |].
  apply has_stamp_cons in H as [_ H]. apply IH, H.
Qed.

Lemma has_stamp_at x : has_stamp x = false -> stamp_at x = false.
Proof.
  destruct x as [| c x]; intros H; [reflexivity |].
  apply has_stamp_cons in H. apply H.
Qed.

(** An interval [p] does not start inside a line [d] that has no timestamp
    or is another interval, nor at the newline after it. *)
Lemma line_pass d p new r :
  exact p = true -> one_line p = true ->
  has_stamp d = false \/ (exact d = true /\ d <> p) ->
  replace1 p new (d ++ NL :: r) = d ++ NL :: replace1 p new r.
Proof.
  intros Hp Hone Hd.
  assert (Hnl : startswith (NL :: r) p = false).
  { destruct (startswith (NL :: r) p) eqn:E; [| reflexivity].
    apply startswith_iff in E as [t E].
    destruct (exact_head p Hp) as (c & p' & -> & Hc).
    injection E as <- _. discriminate. }
  rewrite replace1_pass.
  - f_equal. rewrite replace1_unfold, Hnl. reflexivity.
  - intros y x Hyx Hx.
    destruct (startswith (x ++ NL :: r) p) eqn:E; [exfalso | reflexivity].
    destruct Hd as [Hd | [Hd Hne]].
    + apply startswith_iff in E as [t E].
      pose proof (exact_stamp_at p t Hp) as Hs. rewrite <- E in Hs.
      rewrite Hyx in Hd. apply has_stamp_suffix, has_stamp_at in Hd.
      rewrite stamp_at_newline in Hs by exact Hd. discriminate.
    + apply startswith_before in E; [| apply one_line_not_in, Hone].
      apply startswith_iff in E as [b E].
      apply Hne. apply (exact_inside d p y b Hd Hp). rewrite Hyx, E. reflexivity.
Qed.

Lemma str_eqb_eq a b : str_eqb a b = true <-> a = b.
Proof.
  unfold str_eqb. destruct (list_eq_dec N.eq_dec a b); split; congruence.
Qed.

Lemma not_among s ps :
  existsb (str_eqb s) ps = false -> forall p, In p ps -> s <> p.
Proof.
  intros H p Hp ->.
  assert (E : existsb (str_eqb p) ps = true).
  { apply existsb_exists. exists p. split; [exact Hp | apply str_eqb_eq; reflexivity]. }
  congruence.
Qed.

Lemma lineblock_pass done p new r :
  exact p = true -> one_line p = true ->
  (forall d, In d done -> has_stamp d = false \/ (exact d = true /\ d <> p)) ->
  replace1 p new (lineblock done ++ r) = lineblock done ++ replace1 p new r.
Proof.
  intros Hp Hone. induction done as [| d done IH]; intros Hd; [reflexivity |].
  change (lineblock (d :: done)) with ((d ++ [NL]) ++ lineblock done).
  rewrite <- !app_assoc. simpl app.
  rewrite line_pass; [| exact Hp | exact Hone | apply Hd; left; reflexivity].
  rewrite IH; [reflexivity |]. intros d' Hd'. apply Hd. right. exact Hd'.
Qed.

Lemma lineblock_snoc_join done x l rest :
  lineblock done ++ join NL (x :: l :: rest)
  = lineblock (done ++ [x]) ++ join NL (l :: rest).
Proof.
  unfold lineblock. rewrite flat_map_app, join_cons. simpl.
  rewrite app_nil_r, <- !app_assoc. reflexivity.
Qed.

Lemma doc_lines_exact rest p :
  forallb doc_line rest = true -> In p (filter exact rest) ->
  exact p = true /\ one_line p = true.
Proof.
  intros H Hp. apply filter_In in Hp as [Hin He].
  rewrite forallb_forall in H. specialize (H p Hin).
  unfold doc_line in H. apply andb_true_iff in H as [H _]. auto.
Qed.

Lemma restore_nil lines : restore lines [] = lines.
Proof.
  induction lines as [| l ls IH]; [reflexivity |]. simpl.
  rewrite IH. destruct (exact l); reflexivity.
Qed.

(** The loop of [replace_timestamps_with_originals] over a document whose
    first lines, [done], are finished. *)
Lemma restore_fold rest : forall done ss,
  forallb doc_line rest = true ->
  forallb exact ss = true ->
  length ss = length (filter exact rest) ->
  safe ss (filter exact rest) = true ->
  (forall d p, In d done -> In p (filter exact rest) ->
               has_stamp d = false \/ (exact d = true /\ d <> p)) ->
  fold_left
    (fun result_content ts => replace1 (snd ts) (fst ts) result_content)
    (combine ss (filter exact rest))
    (lineblock done ++ join NL rest)
  = lineblock done ++ join NL (restore rest ss).
Proof.
  induction rest as [| l rest IH]; intros done ss Hdoc Hss Hlen Hsafe Hdone.
  - simpl filter. rewrite combine_nil. reflexivity.
  - pose proof Hdoc as Hdoc0.
    simpl in Hdoc. apply andb_true_iff in Hdoc as [Hl Hrest].
    unfold doc_line in Hl. apply andb_true_iff in Hl as [Hone Hl].
    simpl filter in *. simpl restore.
    destruct (exact l) eqn:He.
    + destruct ss as [| s ss]; [discriminate |].
      simpl in Hss. apply andb_true_iff in Hss as [Hs Hss].
      simpl in Hlen. injection Hlen as Hlen.
      simpl in Hsafe. apply andb_true_iff in Hsafe as [Hnot Hsafe].
      apply negb_true_iff in Hnot.
      cbn [combine fold_left fst snd].
      rewrite lineblock_pass;
        [| exact He | exact Hone
         | intros d Hd; apply (Hdone d l Hd); left; reflexivity].
      assert (Hhere : replace1 l s (join NL (l :: rest)) = join NL (s :: rest)).
      { destruct rest as [| l' rest'].
        - simpl join. rewrite <- (app_nil_r l) at 2.
          rewrite replace1_here. apply app_nil_r.
        - rewrite !join_cons. apply replace1_here. }
      rewrite Hhere.
      destruct rest as [| l' rest'].
      * simpl filter. rewrite combine_nil. reflexivity.
      * rewrite lineblock_snoc_join.
        rewrite IH; try assumption.
        -- destruct (restore (l' :: rest') ss) as [| x xs] eqn:Er.
           ++ simpl in Er. destruct (exact l'); [destruct ss |]; discriminate.
           ++ rewrite <- lineblock_snoc_join. reflexivity.
        -- intros d p Hd Hp. apply in_app_or in Hd as [Hd | [<- | []]].
           ++ apply (Hdone d p Hd). right. exact Hp.
           ++ right. split; [exact Hs | apply (not_among _ _ Hnot), Hp].
    + simpl in Hl. apply negb_true_iff in Hl.
      destruct rest as [| l' rest'].
      * simpl filter. rewrite combine_nil. reflexivity.
      * rewrite lineblock_snoc_join.
        rewrite IH; try assumption.
        -- destruct (restore (l' :: rest') ss) as [| x xs] eqn:Er.
           ++ simpl in Er. destruct (exact l'); [destruct ss |]; discriminate.
           ++ rewrite <- lineblock_snoc_join. reflexivity.
        -- intros d p Hd Hp. apply in_app_or in Hd as [Hd | [<- | []]].
           ++ apply (Hdone d p Hd Hp).
           ++ left. exact Hl.
Qed.

(** X5: when every interval of the processed content is a line of its own,
    no other line holds a timestamp, the original has as many intervals,
    and no interval of the original equals a processed interval further
    down, restoration puts the original's intervals in place, line by
    line, and leaves every other line as it is. *)
Theorem restoration_in_place fs source_file_path source_content lines :
  fs source_file_path = Ok source_content ->
  forallb doc_line lines = true ->
  length (extract_timestamps_from_content source_content)
  = length (filter exact lines) ->
  safe (extract_timestamps_from_content source_content) (filter exact lines)
  = true ->
  extract_timestamps_from_content (join NL lines) = filter exact lines /\
  replace_timestamps_with_originals fs (join NL lines) source_file_path
  = Ok (join NL (restore lines
                   (extract_timestamps_from_content source_content))).
Proof.
  intros Hfs Hdoc Hlen Hsafe.
  assert (Hp : extract_timestamps_from_content (join NL lines)
               = filter exact lines) by apply findall_join, Hdoc.
  split; [exact Hp |].
  unfold replace_timestamps_with_originals. rewrite Hfs.
  unfold bind, try_except.
  destruct (extract_timestamps_from_content source_content) as [| s ss] eqn:Es.
  - simpl. rewrite restore_nil. reflexivity.
  - simpl is_empty. cbv iota. rewrite Hp, Hlen, Nat.eqb_refl. simpl negb.
    cbv iota. f_equal.
    apply (restore_fold lines [] (s :: ss)); try assumption.
    + rewrite <- Es. apply extract_timestamps_scan.
    + intros d p [].
Qed.

(** X5 at [processed_shifted], intervals [A; B], with an original that
    carries [C; A]. *)
Lemma restoration_in_place_witness :
  extract_timestamps_from_content
    (join NL [lit "1"; interval_A; lit "a"; lit "2"; interval_B; lit "b"])
  = filter exact [lit "1"; interval_A; lit "a"; lit "2"; interval_B; lit "b"] /\
  replace_timestamps_with_originals
    (single_file source_path original_swapped)
    (join NL [lit "1"; interval_A; lit "a"; lit "2"; interval_B; lit "b"])
    source_path
  = Ok (join NL (restore
                   [lit "1"; interval_A; lit "a"; lit "2"; interval_B; lit "b"]
                   (extract_timestamps_from_content original_swapped))).
Proof.
  apply (restoration_in_place (single_file source_path original_swapped)
           source_path original_swapped
           [lit "1"; interval_A; lit "a"; lit "2"; interval_B; lit "b"]);
    vm_compute; reflexivity.
Defined.

(** X6: when the original carries the very intervals of the processed
    content, restoration returns the processed content as it is. *)
Theorem restoration_of_same_intervals fs processed_content source_file_path
    source_content :
  fs source_file_path = Ok source_content ->
  extract_timestamps_from_content source_content
  = extract_timestamps_from_content processed_content ->
  replace_timestamps_with_originals fs processed_content source_file_path
  = Ok processed_content.
Proof.
  intros Hfs Hsame.
  unfold replace_timestamps_with_originals. rewrite Hfs.
  unfold bind, try_except. rewrite Hsame.
  destruct (is_empty (extract_timestamps_from_content processed_content));
    [reflexivity |].
  rewrite Nat.eqb_refl. simpl negb. cbv iota. f_equal.
  clear Hsame.
  generalize (extract_timestamps_from_content processed_content) as ps.
  induction ps as [| p ps IH]; [reflexivity |].
  simpl. rewrite replace1_same. exact IH.
Qed.

Lemma restoration_of_same_intervals_witness :
  replace_timestamps_with_originals
    (single_file source_path processed_three) processed_three source_path
  = Ok processed_three.
Proof.
  apply (restoration_of_same_intervals
           (single_file source_path processed_three)
           processed_three source_path processed_three);
    reflexivity.
Defined.

(** ** One file through the cleanup *)

(** X7: the two passes in a row, as [process_srt_file] runs them, are
    idempotent: a second run over the result gives the result again. *)
Theorem cleanup_passes_idempotent content :
  fix_srt_numbering (clean_srt_content
    (fix_srt_numbering (clean_srt_content content)))
  = fix_srt_numbering (clean_srt_content content).
Proof.
  rewrite (fix_after_clean (fix_srt_numbering (clean_srt_content content))).
  rewrite fix_srt_numbering_twice, strip_idem.
  rewrite (fix_after_clean content). apply strip_idem.
Qed.

Lemma find_source_file_short file_path :
  length (names (Path file_path)) < 3 ->
  find_source_file file_path = Raise IndexError.
Proof.
  intros H. unfold find_source_file, path_parents.
  assert (E : Nat.leb (length (names (Path file_path))) 2 = true)
    by (apply Nat.leb_le; lia).
  rewrite E. reflexivity.
Qed.

Lemma find_source_file_long file_path :
  3 <= length (names (Path file_path)) ->
  exists source_file_path, find_source_file file_path = Ok source_file_path.
Proof.
  intros H. unfold find_source_file, path_parents.
  assert (E : Nat.leb (length (names (Path file_path))) 2 = false)
    by (apply Nat.leb_gt; lia).
  rewrite E. simpl. eauto.
Qed.

(** X8: [process_srt_file] writes nowhere but to the file it was given,
    and returns [True] exactly when that write was attempted and went
    through; a file whose path has fewer than three components is given
    up without a write, whatever its content. *)
Theorem process_srt_file_writes env file_path :
  (forall w, fst (process_srt_file env file_path) = Some w ->
             fst w = file_path) /\
  (snd (process_srt_file env file_path) = true <->
   exists final_content,
     fst (process_srt_file env file_path) = Some (file_path, final_content) /\
     env_write env file_path final_content = Ok tt) /\
  (length (names (Path file_path)) < 3 ->
   process_srt_file env file_path = (None, false)).
Proof.
  unfold process_srt_file. split; [| split].
  - destruct (final_content_of env file_path); simpl.
    + intros w H. injection H as <-. reflexivity.
    + discriminate.
  - destruct (final_content_of env file_path) as [final | e]; simpl.
    + destruct (env_write env file_path final) as [[] | e] eqn:E; split.
      * intros _. exists final. auto.
      * reflexivity.
      * discriminate.
      * intros (f & H & Hw). injection H as <-. congruence.
    + split; [discriminate | intros (f & H & _); discriminate].
  - intros Hshort. unfold final_content_of.
    destruct (env_read env file_path); simpl; [| reflexivity].
    rewrite (find_source_file_short file_path Hshort). reflexivity.
Qed.

Lemma process_srt_file_writes_witness :
  process_srt_file (lone_file (lit "/processed/ep1_telugu.srt") doc_two_cues)
    (lit "/processed/ep1_telugu.srt")
  = (None, false).
Proof.
  apply (proj2 (proj2 (process_srt_file_writes
                         (lone_file (lit "/processed/ep1_telugu.srt") doc_two_cues)
                         (lit "/processed/ep1_telugu.srt")))).
  vm_compute. lia.
Defined.

(** X9: for a readable file with at least three path components and no
    original at the derived path, [process_srt_file] writes the renumbered
    content, stripped, back to the file; the duplicate filter before the
    renumbering does not change what is written. *)
Theorem process_srt_file_without_original env file_path content :
  env_read env file_path = Ok content ->
  3 <= length (names (Path file_path)) ->
  (forall p, find_source_file file_path = Ok p -> env_exists env p = false) ->
  fst (process_srt_file env file_path)
  = Some (file_path, strip (fix_srt_numbering content)).
Proof.
  intros Hread Hlong Hno.
  destruct (find_source_file_long file_path Hlong) as [src Hsrc].
  unfold process_srt_file, final_content_of.
  rewrite Hread. simpl. rewrite Hsrc. simpl.
  rewrite (Hno src Hsrc), fix_after_clean. reflexivity.
Qed.

Lemma process_srt_file_without_original_witness :
  fst (process_srt_file
         (lone_file (lit "/base/processed/show/ep1_telugu.srt") doc_two_cues)
         (lit "/base/processed/show/ep1_telugu.srt"))
  = Some (lit "/base/processed/show/ep1_telugu.srt",
          strip (fix_srt_numbering doc_two_cues)).
Proof.
  apply (process_srt_file_without_original
           (lone_file (lit "/base/processed/show/ep1_telugu.srt") doc_two_cues)
           (lit "/base/processed/show/ep1_telugu.srt") doc_two_cues).
  - reflexivity.
  - vm_compute. lia.
  - intros p Hp. vm_compute in Hp. injection Hp as <-. reflexivity.
Defined.

(** ** From the driver's output back to the original *)

Lemma has_char_in c s : has_char c s = false -> ~ In c s.
Proof.
  unfold has_char. intros H Hin.
  assert (E : existsb (N.eqb c) s = true).
  { apply existsb_exists. exists c. split; [exact Hin | apply N.eqb_refl]. }
  congruence.
Qed.

Lemma has_char_app c s t : has_char c (s ++ t) = has_char c s || has_char c t.
Proof. apply existsb_app. Qed.

Lemma plain_name_facts n :
  plain_name n = true ->
  n <> [] /\ ~ In SLASH n /\ n <> [DOT].
Proof.
  unfold plain_name. intros H.
  apply andb_true_iff in H as [H H3]. apply andb_true_iff in H as [H1 H2].
  apply negb_true_iff in H1, H2, H3. repeat split.
  - destruct n; [discriminate | discriminate].
  - apply has_char_in, H2.
  - intros E. apply str_eqb_eq in E. congruence.
Qed.

Lemma lstrip_sep_id n : ~ In SLASH n -> lstrip_sep n = n.
Proof.
  destruct n as [| c n]; [reflexivity |]. intros H. simpl.
  destruct (N.eqb c SLASH) eqn:E; [| reflexivity].
  apply N.eqb_eq in E. exfalso. apply H. left. exact E.
Qed.

Lemma kept_component_plain n : plain_name n = true -> kept_component n = true.
Proof.
  unfold plain_name, kept_component. intros H.
  apply andb_true_iff in H as [H H3]. apply andb_true_iff in H as [H1 _].
  rewrite H1, H3. reflexivity.
Qed.

Lemma Path_names s :
  names (Path s) = filter kept_component (split SLASH (lstrip_sep s)).
Proof. reflexivity. Qed.

Lemma Path_plain n :
  plain_name n = true -> Path n = {| root := []; names := [n] |}.
Proof.
  intros H. pose proof (plain_name_facts n H) as (Hne & Hs & Hd).
  unfold Path. rewrite (lstrip_sep_id n Hs), Nat.sub_diag. simpl Nat.eqb.
  cbv iota. rewrite (split_id SLASH n Hs). simpl filter.
  fold (kept_component n). rewrite (kept_component_plain n H). reflexivity.
Qed.

Lemma path_div_plain p n :
  plain_name n = true ->
  path_div p n = {| root := root p; names := names p ++ [n] |}.
Proof. intros H. unfold path_div. rewrite (Path_plain n H). reflexivity. Qed.

(** [rfind] *)
Lemma rfind_none c t : ~ In c t -> rfind c t = None.
Proof.
  induction t as [| a t IH]; intros H; [reflexivity |]. simpl.
  rewrite IH by (intros Hin; apply H; right; exact Hin).
  destruct (N.eqb a c) eqn:E; [| reflexivity].
  apply N.eqb_eq in E. exfalso. apply H. left. exact E.
Qed.

Lemma rfind_last c s t : ~ In c t -> rfind c (s ++ c :: t) = Some (length s).
Proof.
  intros H. induction s as [| a s IH]; simpl.
  - rewrite (rfind_none c t H), N.eqb_refl. reflexivity.
  - rewrite IH. reflexivity.
Qed.

Lemma basename_last x f : ~ In SLASH f -> basename (x ++ SLASH :: f) = f.
Proof.
  intros H. unfold basename. rewrite (rfind_last SLASH x f H).
  replace (x ++ SLASH :: f) with ((x ++ [SLASH]) ++ f)
    by (rewrite <- app_assoc; reflexivity).
  replace (S (length x)) with (length (x ++ [SLASH]))
    by (rewrite length_app; simpl; lia).
  rewrite skipn_app, skipn_all, Nat.sub_diag. reflexivity.
Qed.

Lemma splitext_root_srt stem :
  plain_stem stem = true -> splitext_root (stem ++ lit ".srt") = stem.
Proof.
  unfold plain_stem. intros H.
  apply andb_true_iff in H as [H _]. apply andb_true_iff in H as [Hs Hd].
  apply negb_true_iff in Hs. apply has_char_in in Hs.
  unfold splitext_root.
  rewrite (rfind_none SLASH (stem ++ lit ".srt")).
  - change (lit ".srt") with (DOT :: lit "srt").
    rewrite (rfind_last DOT stem (lit "srt")).
    + simpl Nat.leb. rewrite firstn_app, Nat.sub_diag, firstn_all. simpl firstn.
      rewrite app_nil_r. simpl skipn. rewrite Hd. reflexivity.
    + simpl. intros [H | [H | [H | []]]]; discriminate.
  - intros Hin. apply in_app_or in Hin as [Hin | Hin]; [exact (Hs Hin) |].
    simpl in Hin. destruct Hin as [H | [H | [H | [H | []]]]]; discriminate.
Qed.

(** [os.path.join] of a folder and three names. *)
Lemma startswith_sep_plain n : plain_name n = true -> startswith n [SLASH] = false.
Proof.
  intros H. pose proof (plain_name_facts n H) as (Hne & Hs & _).
  destruct n as [| c n]; [congruence |].
  change (startswith (c :: n) [SLASH]) with (N.eqb SLASH c && startswith n []).
  destruct (N.eqb SLASH c) eqn:E; [| reflexivity].
  apply N.eqb_eq in E. exfalso. apply Hs. left. symmetry. exact E.
Qed.

Lemma endswith_sep_plain x n : plain_name n = true -> endswith_sep (x ++ n) = false.
Proof.
  intros H. pose proof (plain_name_facts n H) as (Hne & Hs & _).
  unfold endswith_sep. rewrite rev_app_distr.
  destruct (rev n) as [| c r] eqn:E.
  - apply (f_equal (@rev _)) in E. rewrite rev_involutive in E. simpl in E.
    congruence.
  - simpl. destruct (N.eqb c SLASH) eqn:Ec; [| reflexivity].
    apply N.eqb_eq in Ec. exfalso. apply Hs. apply in_rev. rewrite E, Ec.
    left. reflexivity.
Qed.

Lemma path_join2_plain path n :
  plain_name n = true ->
  path_join2 path n
  = (if is_empty path || endswith_sep path then path else path ++ [SLASH]) ++ n.
Proof.
  intros H. unfold path_join2. rewrite (startswith_sep_plain n H).
  destruct (is_empty path || endswith_sep path); [reflexivity |].
  rewrite <- app_assoc. reflexivity.
Qed.

Lemma path_join2_after x n m :
  plain_name n = true -> plain_name m = true ->
  path_join2 (x ++ n) m = (x ++ n) ++ SLASH :: m.
Proof.
  intros Hn Hm. unfold path_join2. rewrite (startswith_sep_plain m Hm).
  rewrite (endswith_sep_plain x n Hn).
  pose proof (plain_name_facts n Hn) as (Hne & _ & _).
  destruct (x ++ n) eqn:E; [| reflexivity].
  apply app_eq_nil in E as [_ E]. congruence.
Qed.

Lemma path_join2_after_sep x n m :
  plain_name n = true -> plain_name m = true ->
  path_join2 (x ++ SLASH :: n) m = (x ++ SLASH :: n) ++ SLASH :: m.
Proof.
  intros Hn Hm.
  replace (x ++ SLASH :: n) with ((x ++ [SLASH]) ++ n)
    by (rewrite <- app_assoc; reflexivity).
  apply path_join2_after; assumption.
Qed.

Lemma os_path_join_three base a b c :
  plain_name a = true -> plain_name b = true -> plain_name c = true ->
  os_path_join base [a; b; c]
  = (if is_empty base || endswith_sep base then base else base ++ [SLASH])
    ++ a ++ SLASH :: b ++ SLASH :: c.
Proof.
  intros Ha Hb Hc. unfold os_path_join. cbn [fold_left].
  rewrite (path_join2_plain base a Ha).
  rewrite (path_join2_after _ a b Ha Hb).
  rewrite (path_join2_after_sep _ b c Hb Hc).
  rewrite <- !app_assoc. reflexivity.
Qed.

(** [split] at each separator. *)
Lemma split_app_general sep x t :
  split sep (x ++ sep :: t) = split sep x ++ split sep t.
Proof.
  induction x as [| c x IH]; simpl.
  - rewrite N.eqb_refl. reflexivity.
  - destruct (N.eqb c sep); [rewrite IH; reflexivity |].
    rewrite IH. pose proof (split_nonempty sep x) as Hne.
    destruct (split sep x); [congruence | reflexivity].
Qed.

Lemma lstrip_sep_length s : length (lstrip_sep s) <= length s.
Proof.
  induction s as [| c s IH]; simpl; [lia |].
  destruct (N.eqb c SLASH); simpl; lia.
Qed.

Lemma lstrip_sep_app b rel :
  startswith rel [SLASH] = false -> rel <> [] ->
  lstrip_sep (b ++ rel) = lstrip_sep b ++ rel.
Proof.
  intros Hrel Hne. induction b as [| c b IH]; simpl.
  - destruct rel as [| r rel]; [congruence |].
    change (startswith (r :: rel) [SLASH])
      with (N.eqb SLASH r && startswith rel []) in Hrel.
    assert (E : N.eqb r SLASH = false).
    { rewrite N.eqb_sym. destruct (N.eqb SLASH r); [| reflexivity].
      destruct rel; discriminate. }
    cbn [lstrip_sep]. rewrite E. reflexivity.
  - destruct (N.eqb c SLASH); [exact IH | reflexivity].
Qed.

Lemma lstrip_sep_closed b :
  (b = [] \/ exists x, b = x ++ [SLASH]) ->
  lstrip_sep b = [] \/ exists y, lstrip_sep b = y ++ [SLASH].
Proof.
  intros [-> | [x ->]]; [left; reflexivity |].
  induction x as [| c x IH]; simpl.
  - left. reflexivity.
  - destruct (N.eqb c SLASH); [exact IH |]. right. exists (c :: x). reflexivity.
Qed.

(** A path made of a folder, closed by a separator or empty, and a
    relative path: the folder's root, and its components followed by the
    others. *)
Lemma Path_app_rel b rel :
  (b = [] \/ exists x, b = x ++ [SLASH]) ->
  startswith rel [SLASH] = false -> rel <> [] ->
  root (Path (b ++ rel)) = root (Path b) /\
  names (Path (b ++ rel))
  = names (Path b) ++ filter kept_component (split SLASH rel).
Proof.
  intros Hb Hrel Hne. split.
  - unfold Path. simpl root.
    rewrite (lstrip_sep_app b rel Hrel Hne), !length_app.
    pose proof (lstrip_sep_length b).
    replace (length b + length rel - (length (lstrip_sep b) + length rel))
      with (length b - length (lstrip_sep b)) by lia.
    reflexivity.
  - rewrite !Path_names, (lstrip_sep_app b rel Hrel Hne).
    destruct (lstrip_sep_closed b Hb) as [-> | [y ->]].
    + reflexivity.
    + rewrite <- app_assoc. simpl app.
      rewrite !split_app_general, !filter_app. simpl split. simpl filter.
      rewrite app_nil_r. reflexivity.
Qed.

Lemma endswith_sep_last b :
  endswith_sep b = true -> exists x, b = x ++ [SLASH].
Proof.
  unfold endswith_sep. intros H.
  destruct (rev b) as [| c r] eqn:E; [discriminate |].
  apply N.eqb_eq in H. subst c.
  exists (rev r). rewrite <- (rev_involutive b), E. reflexivity.
Qed.

Lemma lstrip_sep_open b t :
  b <> [] -> endswith_sep b = false ->
  lstrip_sep (b ++ t) = lstrip_sep b ++ t /\ lstrip_sep b <> [].
Proof.
  intros Hne He. induction b as [| c b IH]; [congruence |].
  simpl. destruct (N.eqb c SLASH) eqn:Ec.
  - destruct b as [| c' b].
    + exfalso. unfold endswith_sep in He. simpl in He. congruence.
    + apply IH; [discriminate |].
      unfold endswith_sep in He |- *. simpl rev in He |- *.
      destruct (rev b ++ [c']) eqn:E; [destruct (rev b); discriminate |].
      simpl in He |- *. exact He.
  - split; [reflexivity | discriminate].
Qed.

(** A separator after a folder that does not end with one changes neither
    root nor components. *)
Lemma Path_sep b :
  b <> [] -> endswith_sep b = false ->
  root (Path (b ++ [SLASH])) = root (Path b) /\
  names (Path (b ++ [SLASH])) = names (Path b).
Proof.
  intros Hne He.
  destruct (lstrip_sep_open b [SLASH] Hne He) as [Hl Hn]. split.
  - unfold Path. simpl root. rewrite Hl, !length_app.
    pose proof (lstrip_sep_length b). simpl length.
    replace (length b + 1 - (length (lstrip_sep b) + 1))
      with (length b - length (lstrip_sep b)) by lia.
    reflexivity.
  - rewrite !Path_names, Hl, split_app_general, filter_app. simpl.
    apply app_nil_r.
Qed.

(** [replace] of a suffix that occurs nowhere else. *)
Lemma replace_from_skip u old new : forall r,
  replace_from (length u) old new (u ++ r) = replace_from 0 old new r.
Proof.
  induction u as [| c u IH]; intros r; [reflexivity |]. simpl. apply IH.
Qed.

Lemma contains_cons c s p :
  contains (c :: s) p = false ->
  startswith (c :: s) p = false /\ contains s p = false.
Proof. simpl. intros H. apply orb_false_iff in H. exact H. Qed.

Lemma replace_all_suffix a u s :
  ~ In a u -> contains s (a :: u) = false ->
  replace_all (a :: u) [] (s ++ a :: u) = s.
Proof.
  intros Ha. unfold replace_all. induction s as [| c s IH]; intros Hs.
  - simpl app. cbn [replace_from].
    assert (E : startswith (a :: u) (a :: u) = true)
      by (apply startswith_iff; exists []; symmetry; apply app_nil_r).
    rewrite E. replace (length (a :: u) - 1) with (length u) by (simpl; lia).
    pose proof (replace_from_skip u (a :: u) [] []) as Hk.
    rewrite app_nil_r in Hk. rewrite Hk. reflexivity.
  - apply contains_cons in Hs as [Hc Hs].
    change ((c :: s) ++ a :: u) with (c :: (s ++ a :: u)).
    cbn [replace_from].
    assert (E : startswith (c :: s ++ a :: u) (a :: u) = false).
    { destruct (startswith (c :: s ++ a :: u) (a :: u)) eqn:E; [| reflexivity].
      exfalso.
      change (startswith (c :: s ++ a :: u) (a :: u))
        with (N.eqb a c && startswith (s ++ a :: u) u) in E.
      apply andb_true_iff in E as [E1 E2].
      apply (startswith_before a s u u Ha) in E2.
      change (startswith (c :: s) (a :: u))
        with (N.eqb a c && startswith s u) in Hc.
      rewrite E1, E2 in Hc. discriminate. }
    rewrite E. f_equal. apply IH, Hs.
Qed.

Lemma plain_stem_facts stem :
  plain_stem stem = true ->
  ~ In SLASH stem /\ stem <> [] /\ contains stem (lit "_telugu") = false.
Proof.
  unfold plain_stem. intros H.
  apply andb_true_iff in H as [H H3]. apply andb_true_iff in H as [H1 H2].
  apply negb_true_iff in H1, H3. repeat split.
  - apply has_char_in, H1.
  - intros ->. discriminate.
  - exact H3.
Qed.

Lemma plain_name_stem stem ext :
  plain_stem stem = true ->
  has_char SLASH ext = false -> 2 <= length ext ->
  plain_name (stem ++ ext) = true.
Proof.
  intros H Hext Hlen. pose proof (plain_stem_facts stem H) as (Hs & Hne & _).
  unfold plain_name. rewrite has_char_app, Hext, orb_false_r.
  unfold plain_stem in H. apply andb_true_iff in H as [H _].
  apply andb_true_iff in H as [H1 _]. rewrite H1.
  destruct stem as [| c stem]; [congruence |]. simpl is_empty. simpl.
  destruct (str_eqb (c :: stem ++ ext) [DOT]) eqn:E; [| reflexivity].
  apply str_eqb_eq in E. apply (f_equal (@length _)) in E.
  simpl in E. rewrite length_app in E. lia.
Qed.

Lemma path_name_last r ns x :
  path_name {| root := r; names := ns ++ [x] |} = x.
Proof. unfold path_name. simpl names. apply last_last. Qed.

Lemma path_stem_telugu r ns a b stem :
  plain_stem stem = true ->
  path_stem {| root := r; names := ns ++ [a; b; stem ++ lit "_telugu.srt"] |}
  = stem ++ lit "_telugu".
Proof.
  intros H.
  replace (ns ++ [a; b; stem ++ lit "_telugu.srt"])
    with ((ns ++ [a; b]) ++ [stem ++ lit "_telugu.srt"])
    by (rewrite <- app_assoc; reflexivity).
  unfold path_stem. cbv zeta. rewrite path_name_last.
  replace (stem ++ lit "_telugu.srt")
    with ((stem ++ lit "_telugu") ++ DOT :: lit "srt")
    by (rewrite <- app_assoc; reflexivity).
  rewrite (rfind_last DOT (stem ++ lit "_telugu") (lit "srt")).
  - assert (E1 : Nat.ltb 0 (length (stem ++ lit "_telugu")) = true).
    { apply Nat.ltb_lt. rewrite length_app. simpl. lia. }
    assert (E2 : Nat.ltb (length (stem ++ lit "_telugu"))
                   (length ((stem ++ lit "_telugu") ++ DOT :: lit "srt") - 1)
                 = true).
    { apply Nat.ltb_lt. rewrite !length_app. simpl. lia. }
    rewrite E1, E2. simpl andb. cbv iota.
    rewrite firstn_app, Nat.sub_diag, firstn_all. simpl. apply app_nil_r.
  - simpl. intros [E | [E | [E | []]]]; discriminate.
Qed.

Lemma path_str_snoc r ns x :
  ns <> [] ->
  path_str {| root := r; names := ns ++ [x] |}
  = (r ++ join SLASH ns) ++ SLASH :: x.
Proof.
  intros Hne. unfold path_str. cbn [root names].
  rewrite join_snoc by exact Hne. rewrite app_assoc.
  destruct ((r ++ join SLASH ns) ++ SLASH :: x) eqn:E; [| reflexivity].
  apply app_eq_nil in E as [_ E]. discriminate.
Qed.

(** X10: what the driver writes for an original [<stem>.srt] of a series
    folder is found again: [find_source_file], given the path the driver
    saved to, answers the path of the original, as long as the series is a
    plain folder name and the stem holds no [/], not dots only, and no
    [_telugu]. *)
Theorem source_of_driver_output transliterated_content base series stem :
  plain_name series = true ->
  plain_stem stem = true ->
  find_source_file
    (fst (save_single_transliterated_file transliterated_content
            (path_str (path_div (path_div (Path base) series)
                         (stem ++ lit ".srt")))
            series base))
  = Ok (path_str (path_div (path_div (Path base) series)
                    (stem ++ lit ".srt"))).
Proof.
  intros Hseries Hstem.
  assert (Hfname : plain_name (stem ++ lit ".srt") = true)
    by (apply plain_name_stem; [exact Hstem | reflexivity | simpl; lia]).
  assert (Ht : plain_name (stem ++ lit "_telugu.srt") = true)
    by (apply plain_name_stem; [exact Hstem | reflexivity | simpl; lia]).
  pose proof (plain_name_facts _ Hfname) as (_ & Hfs & _).
  pose proof (plain_name_facts _ Hseries) as (_ & Hss & _).
  pose proof (plain_name_facts _ Ht) as (_ & Hts & _).
  pose proof (plain_stem_facts stem Hstem) as (_ & _ & Hc).
  set (R := root (Path base)). set (N := names (Path base)).
  set (original := path_str (path_div (path_div (Path base) series)
                               (stem ++ lit ".srt"))).
  (* the original, as a string *)
  assert (Horig : original
                  = (R ++ join SLASH (N ++ [series]))
                    ++ SLASH :: (stem ++ lit ".srt")).
  { unfold original. rewrite !path_div_plain by assumption.
    apply path_str_snoc. destruct N; discriminate. }
  assert (Hbase : basename original = stem ++ lit ".srt").
  { rewrite Horig. apply basename_last, Hfs. }
  (* the saved path *)
  set (B := if is_empty base || endswith_sep base then base else base ++ [SLASH]).
  set (rel := lit "processed" ++ SLASH :: series
              ++ SLASH :: stem ++ lit "_telugu.srt").
  set (output := fst (save_single_transliterated_file transliterated_content
                        original series base)).
  assert (Hout : output = B ++ rel).
  { unfold output, save_single_transliterated_file. cbn [fst].
    rewrite Hbase, (splitext_root_srt stem Hstem).
    apply os_path_join_three; [reflexivity | exact Hseries | exact Ht]. }
  rewrite Hout.
  (* the saved path, parsed *)
  assert (HB : (B = [] \/ exists x, B = x ++ [SLASH]) /\
               root (Path B) = R /\ names (Path B) = N).
  { unfold B. destruct base as [| c base'] eqn:Eb.
    - simpl. repeat split. left. reflexivity.
    - simpl is_empty. simpl orb.
      destruct (endswith_sep (c :: base')) eqn:Ee.
      + repeat split. right. apply endswith_sep_last, Ee.
      + destruct (Path_sep (c :: base') (ltac:(discriminate)) Ee) as [H1 H2].
        repeat split; [right; eauto | exact H1 | exact H2]. }
  destruct HB as (Hclosed & HR & HN).
  assert (Hrel : split SLASH rel
                 = [lit "processed"; series; stem ++ lit "_telugu.srt"]).
  { unfold rel. etransitivity.
    - apply split_app_sep. simpl. intros H.
      repeat (destruct H as [H | H]; [discriminate |]). exact H.
    - f_equal. etransitivity; [apply split_app_sep, Hss |].
      f_equal. apply split_id, Hts. }
  destruct (Path_app_rel B rel Hclosed eq_refl ltac:(discriminate))
    as [Hroot Hnames].
  assert (Hkept : filter kept_component (split SLASH rel)
                  = [lit "processed"; series; stem ++ lit "_telugu.srt"]).
  { rewrite Hrel. cbn [filter].
    rewrite (kept_component_plain _ Hseries), (kept_component_plain _ Ht).
    reflexivity. }
  rewrite Hkept, HN in Hnames. rewrite HR in Hroot.
  assert (HP : Path (B ++ rel)
               = {| root := R;
                    names := N ++ [lit "processed"; series;
                                   stem ++ lit "_telugu.srt"] |}).
  { destruct (Path (B ++ rel)) as [r ns]. simpl in Hroot, Hnames.
    rewrite Hroot, Hnames. reflexivity. }
  unfold find_source_file. rewrite HP.
  set (P := {| root := R;
               names := N ++ [lit "processed"; series;
                              stem ++ lit "_telugu.srt"] |}).
  assert (Hstem' : replace_all (lit "_telugu") [] (path_stem P) = stem).
  { unfold P. etransitivity.
    - apply f_equal. apply (path_stem_telugu R N _ _ stem Hstem).
    - apply (replace_all_suffix 95%N (lit "telugu") stem); [| exact Hc].
      simpl. intros H. repeat (destruct H as [H | H]; [discriminate |]).
      exact H. }
  assert (Hseries' : path_name (path_parent P) = series).
  { unfold P, path_parent. cbn [root names].
    replace (N ++ [lit "processed"; series; stem ++ lit "_telugu.srt"])
      with ((N ++ [lit "processed"; series]) ++ [stem ++ lit "_telugu.srt"])
      by (rewrite <- app_assoc; reflexivity).
    rewrite removelast_last.
    replace (N ++ [lit "processed"; series])
      with ((N ++ [lit "processed"]) ++ [series])
      by (rewrite <- app_assoc; reflexivity).
    apply path_name_last. }
  assert (Hparents : path_parents P 2 = Ok {| root := R; names := N |}).
  { unfold path_parents, P. cbn [root names].
    assert (El : Nat.leb (length (N ++ [lit "processed"; series;
                                        stem ++ lit "_telugu.srt"])) 2 = false).
    { apply Nat.leb_gt. rewrite length_app. simpl. lia. }
    rewrite El. f_equal. f_equal.
    rewrite length_app. simpl length.
    replace (length N + 3 - 2 - 1) with (length N) by lia.
    rewrite firstn_app, Nat.sub_diag, firstn_all. simpl. apply app_nil_r. }
  rewrite Hstem', Hseries', Hparents. reflexivity.
Qed.

(** X10 at the folder [/base], the series [show] and the stem [ep1]. *)
Lemma source_of_driver_output_witness :
  find_source_file
    (fst (save_single_transliterated_file response_numbered
            (path_str (path_div (path_div (Path (lit "/base")) (lit "show"))
                         (lit "ep1" ++ lit ".srt")))
            (lit "show") (lit "/base")))
  = Ok (path_str (path_div (path_div (Path (lit "/base")) (lit "show"))
                    (lit "ep1" ++ lit ".srt"))).
Proof.
  apply (source_of_driver_output response_numbered (lit "/base") (lit "show")
           (lit "ep1")); reflexivity.
Defined.

(** ** The sanitizer of the single-file mode *)

Lemma sanitize_loop_emit series lines : forall found acc,
  sanitize_loop series lines found acc
  = acc ++ sanitize_emit series lines found.
Proof.
  induction lines as [| raw rest IH]; intros found acc.
  - simpl. rewrite app_nil_r. reflexivity.
  - cbn [sanitize_loop sanitize_emit].
    fold (looks_number (strip raw)).
    fold (looks_timestamp (strip raw)).
    fold (looks_text series (strip raw)).
    destruct (looks_number (strip raw)).
    + destruct (negb found && negb (str_eqb (strip raw) (lit "1"))).
      * rewrite IH, <- !app_assoc. reflexivity.
      * rewrite IH, <- app_assoc. reflexivity.
    + destruct (looks_timestamp (strip raw)); simpl orb.
      * rewrite IH, <- app_assoc. reflexivity.
      * destruct (looks_text series (strip raw)).
        -- rewrite IH, <- app_assoc. reflexivity.
        -- apply IH.
Qed.

Lemma save_single_content content original series base :
  snd (save_single_transliterated_file content original series base)
  = join NL (sanitized_lines content series).
Proof. reflexivity. Qed.

Lemma sanitizer_keeps_nonempty series line :
  sanitizer_keeps series line = true -> is_empty line = false.
Proof.
  unfold sanitizer_keeps, looks_number, looks_timestamp, looks_text.
  destruct (is_empty line); [discriminate | reflexivity].
Qed.

Lemma sanitize_emit_insert series lines :
  sanitize_emit series lines false
  = insert_one (filter (sanitizer_keeps series) (map strip lines)) /\
  sanitize_emit series lines true
  = filter (sanitizer_keeps series) (map strip lines).
Proof.
  assert (Ht : forall lines,
    sanitize_emit series lines true
    = filter (sanitizer_keeps series) (map strip lines)).
  { clear lines. induction lines as [| raw rest IH]; [reflexivity |].
    cbn [sanitize_emit map filter]. unfold sanitizer_keeps at 1.
    destruct (looks_number (strip raw)); simpl.
    - f_equal. exact IH.
    - destruct (looks_timestamp (strip raw) || looks_text series (strip raw));
        [f_equal |]; exact IH. }
  split; [| apply Ht].
  induction lines as [| raw rest IH]; [reflexivity |].
  cbn [sanitize_emit map filter]. unfold sanitizer_keeps at 1.
  destruct (looks_number (strip raw)) eqn:Hn; simpl orb; cbv iota.
  - unfold looks_number in Hn. apply andb_true_iff in Hn as [_ Hd].
    cbn [insert_one]. rewrite Hd.
    destruct (str_eqb (strip raw) (lit "1")); simpl.
    + rewrite IH. reflexivity.
    + rewrite Ht. reflexivity.
  - destruct (looks_timestamp (strip raw) || looks_text series (strip raw)) eqn:Hk;
      [| exact IH].
    cbn [insert_one].
    assert (Hd : isdigit (strip raw) = false).
    { unfold looks_number in Hn.
      destruct (isdigit (strip raw)) eqn:Hd; [| reflexivity].
      rewrite (isdigit_is_empty _ Hd) in Hn. discriminate. }
    rewrite Hd. simpl andb. cbv iota. rewrite IH. reflexivity.
Qed.

Lemma insert_one_length ls : length (insert_one ls) <= S (length ls).
Proof.
  induction ls as [| l rest IH]; cbn [insert_one length]; [lia |].
  destruct (isdigit l && negb (str_eqb l (lit "1"))); cbn [length]; lia.
Qed.

(** X11: the single-file sanitizer keeps, in order, the stripped lines
    that are a number, look like a timestamp, or are text that starts
    neither with [===] nor with the series name; the one thing it adds is a
    [1] before the first number that is not [1]; so the saved content has
    at most one line more than the response. *)
Theorem sanitizer_lines transliterated_content series_name :
  sanitized_lines transliterated_content series_name
  = insert_one
      (filter (sanitizer_keeps series_name)
         (map strip (split NL (strip transliterated_content)))) /\
  length (sanitized_lines transliterated_content series_name)
  <= S (length (split NL transliterated_content)).
Proof.
  unfold sanitized_lines. rewrite sanitize_loop_emit. simpl app.
  destruct (sanitize_emit_insert series_name
              (split NL (strip transliterated_content))) as [H _].
  rewrite H. split; [reflexivity |].
  etransitivity; [apply insert_one_length |]. apply le_n_S.
  etransitivity; [apply filter_length_le |]. rewrite length_map.
  rewrite !split_length. apply le_n_S, strip_count.
Qed.

Lemma insert_one_before pre n post :
  forallb (fun l => negb (isdigit l)) pre = true ->
  isdigit n = true -> n <> lit "1" ->
  insert_one (pre ++ n :: post) = pre ++ lit "1" :: n :: post.
Proof.
  intros Hpre Hn Hne. induction pre as [| l pre IH].
  - cbn [app insert_one]. rewrite Hn.
    destruct (str_eqb n (lit "1")) eqn:E; [| reflexivity].
    apply str_eqb_eq in E. congruence.
  - cbn [forallb] in Hpre. apply andb_true_iff in Hpre as [Hl Hpre].
    apply negb_true_iff in Hl. cbn [app insert_one]. rewrite Hl.
    cbn [andb]. rewrite (IH Hpre). reflexivity.
Qed.

Lemma insert_one_none ls :
  forallb (fun l => negb (isdigit l) || str_eqb l (lit "1")) ls = true ->
  insert_one ls = ls.
Proof.
  induction ls as [| l rest IH]; [reflexivity |]. cbn [forallb insert_one].
  intros H. apply andb_true_iff in H as [Hl Hrest].
  assert (E : isdigit l && negb (str_eqb l (lit "1")) = false).
  { destruct (isdigit l), (str_eqb l (lit "1")); cbn in *; congruence. }
  rewrite E, (IH Hrest). reflexivity.
Qed.

(** X12: when the first number among the kept lines is not [1], a [1] is
    put directly before it and nothing else is added; when every number
    among them is [1], nothing is added at all. *)
Theorem sanitizer_leading_one transliterated_content series_name :
  (forall pre n post,
      filter (sanitizer_keeps series_name)
        (map strip (split NL (strip transliterated_content)))
      = pre ++ n :: post ->
      forallb (fun l => negb (isdigit l)) pre = true ->
      isdigit n = true -> n <> lit "1" ->
      sanitized_lines transliterated_content series_name
      = pre ++ lit "1" :: n :: post) /\
  (forallb (fun l => negb (isdigit l) || str_eqb l (lit "1"))
     (filter (sanitizer_keeps series_name)
        (map strip (split NL (strip transliterated_content)))) = true ->
   sanitized_lines transliterated_content series_name
   = filter (sanitizer_keeps series_name)
       (map strip (split NL (strip transliterated_content)))).
Proof.
  destruct (sanitizer_lines transliterated_content series_name) as [H _].
  rewrite H. split.
  - intros pre n post Hk Hpre Hn Hne. rewrite Hk.
    apply insert_one_before; assumption.
  - apply insert_one_none.
Qed.

Lemma sanitizer_leading_one_witness :
  sanitized_lines response_from_seven (lit "show")
  = [] ++ lit "1" :: lit "7" :: [interval_A; lit "Hi"; lit "8"; interval_B; lit "Yo"].
Proof.
  apply (proj1 (sanitizer_leading_one response_from_seven (lit "show"))
           [] (lit "7") [interval_A; lit "Hi"; lit "8"; interval_B; lit "Yo"]).
  - vm_compute. reflexivity.
  - reflexivity.
  - reflexivity.
  - discriminate.
Defined.

Lemma insert_one_forall (P : str -> Prop) ls :
  P (lit "1") -> Forall P ls -> Forall P (insert_one ls).
Proof.
  intros H1. induction 1 as [| l rest Hl Hrest IH]; cbn [insert_one];
    [constructor |].
  destruct (isdigit l && negb (str_eqb l (lit "1"))).
  - constructor; [exact H1 |]. constructor; assumption.
  - constructor; assumption.
Qed.

(** X13: no line of the saved content of the single-file mode is blank or
    carries whitespace at either end, and each one is a number, looks like
    a timestamp, or starts neither with [===] nor with the series name. So
    the blank lines between the cues of the response are gone, and the
    content neither begins nor ends with whitespace. *)
Theorem sanitizer_output_lines transliterated_content series_name :
  Forall (fun l => is_empty l = false /\ strip l = l /\
                   sanitizer_keeps series_name l = true)
    (sanitized_lines transliterated_content series_name) /\
  output_lines (join NL (sanitized_lines transliterated_content series_name))
  = sanitized_lines transliterated_content series_name /\
  starts_ws (join NL (sanitized_lines transliterated_content series_name))
  = false /\
  ends_ws (join NL (sanitized_lines transliterated_content series_name))
  = false.
Proof.
  destruct (sanitizer_lines transliterated_content series_name) as [H _].
  assert (Hall : Forall (fun l => is_empty l = false /\ strip l = l /\
                                  sanitizer_keeps series_name l = true)
                   (sanitized_lines transliterated_content series_name)).
  { rewrite H. apply insert_one_forall.
    - repeat split; reflexivity.
    - apply Forall_forall. intros l Hl. apply filter_In in Hl as [Hin Hk].
      apply in_map_iff in Hin as (raw & <- & _).
      repeat split;
        [apply (sanitizer_keeps_nonempty _ _ Hk) | apply strip_idem | exact Hk]. }
  assert (Htidy : Forall tidy (sanitized_lines transliterated_content series_name)).
  { rewrite H. apply insert_one_forall.
    - split; [reflexivity |]. simpl. intros [E | []]. discriminate.
    - apply Forall_forall. intros l Hl. apply filter_In in Hl as [Hin _].
      apply in_map_iff in Hin as (raw & <- & Hraw).
      apply tidy_strip.
      pose proof (split_no_sep NL (strip transliterated_content)) as Hs.
      rewrite Forall_forall in Hs. apply Hs, Hraw. }
  assert (Hhead : head_nonblank (sanitized_lines transliterated_content series_name)).
  { destruct (sanitized_lines transliterated_content series_name) as [| l ls];
      [exact I |].
    inversion Hall as [| ? ? [Hl _] _]; subst. simpl.
    apply is_empty_false, Hl. }
  split; [exact Hall |].
  split; [apply output_lines_join; assumption |].
  split; [apply join_starts; assumption |].
  clear H Htidy Hhead. revert Hall.
  generalize (sanitized_lines transliterated_content series_name) as out.
  intros out Hall. destruct out as [| l ls] using rev_ind; [reflexivity |].
  apply Forall_app in Hall as [_ Hx].
  inversion Hx as [| ? ? (Hne & Hs & _) _]; subst.
  rewrite ends_ws_join_snoc by exact Hne. rewrite <- Hs. apply strip_ends.
Qed.

(** ** The requests of one file *)

Example candidate_text_well_formed text :
  candidate_text (well_formed_result text) = Value (Some (JStr text)).
Proof. reflexivity. Qed.

Lemma retry_loop_posts post save_ok file_path series base remaining :
  forall attempt,
    posts (retry_loop post save_ok file_path series base remaining attempt)
    <= remaining.
Proof.
  induction remaining as [| k IH]; intros attempt; [reflexivity |].
  cbn [retry_loop]. unfold one_more_post. cbn [posts]. apply le_n_S.
  specialize (IH (S attempt)).
  assert (H0 : posts gives_up <= k) by (simpl; lia).
  assert (Hs : forall text, posts (save_text save_ok text file_path series base) <= k).
  { intros text. destruct text; simpl; lia. }
  destruct (post attempt) as [r | []]; try assumption.
  destruct (ok r).
  - destruct (json_body r) as [result | []]; try assumption.
    destruct (candidate_text result) as [[text |] | []]; try assumption.
    apply Hs.
  - destruct (Nat.eqb (status_code r) 429); [assumption |].
    destruct (Nat.leb 500 (status_code r)); assumption.
Qed.

Lemma retry_loop_saved post save_ok file_path series base remaining :
  forall attempt,
    let r := retry_loop post save_ok file_path series base remaining attempt in
    (returned r = true ->
     exists w, saved r = Some w /\ save_ok (fst w) (snd w) = true) /\
    (forall w, saved r = Some w ->
       exists text,
         w = save_single_transliterated_file text file_path series base).
Proof.
  induction remaining as [| k IH]; intros attempt.
  - simpl. split; [discriminate | intros w H; discriminate].
  - cbn [retry_loop]. cbv zeta. unfold one_more_post. cbn [saved returned].
    specialize (IH (S attempt)). cbv zeta in IH.
    assert (H0 : (returned gives_up = true ->
                  exists w, saved gives_up = Some w /\ save_ok (fst w) (snd w) = true) /\
                 (forall w, saved gives_up = Some w ->
                    exists text,
                      w = save_single_transliterated_file text file_path series base)).
    { simpl. split; [discriminate | intros w H; discriminate]. }
    destruct (post attempt) as [r | []]; try assumption.
    destruct (ok r).
    + destruct (json_body r) as [result | []]; try assumption.
      destruct (candidate_text result) as [[text |] | []]; try assumption.
      destruct text; try assumption. simpl. split.
      * intros H. eexists. split; [reflexivity | exact H].
      * intros w H. injection H as <-. eauto.
    + destruct (Nat.eqb (status_code r) 429); [assumption |].
      destruct (Nat.leb 500 (status_code r)); assumption.
Qed.

(** X14: [process_single_file] makes at most three requests; it returns
    [True] only when a file was saved and the save went through; and what
    it saves is what the sanitizer makes of a text, at the path of the
    series under [processed]. *)
Theorem process_single_file_bounds post save_ok series_name file_name
    file_path content base_output_folder :
  let r := process_single_file post save_ok series_name file_name file_path
             content base_output_folder in
  posts r <= 3 /\
  (returned r = true ->
   exists w, saved r = Some w /\ save_ok (fst w) (snd w) = true) /\
  (forall w, saved r = Some w ->
     exists text,
       w = save_single_transliterated_file text file_path series_name
             base_output_folder).
Proof.
  cbv zeta. unfold process_single_file. split.
  - apply (retry_loop_posts post save_ok file_path series_name
             base_output_folder max_retries 0).
  - apply (retry_loop_saved post save_ok file_path series_name
             base_output_folder max_retries 0).
Qed.

Lemma process_single_file_bounds_witness :
  exists w,
    saved (process_single_file (third_time_lucky (lit "1")) (fun _ _ => true)
             (lit "show") (lit "ep1") (lit "/base/show/ep1.srt") (lit "1")
             (lit "/base")) = Some w /\
    (fun _ _ : str => true) (fst w) (snd w) = true.
Proof.
  apply (proj1 (proj2 (process_single_file_bounds
                         (third_time_lucky (lit "1")) (fun _ _ => true)
                         (lit "show") (lit "ep1") (lit "/base/show/ep1.srt")
                         (lit "1") (lit "/base")))).
  reflexivity.
Defined.

(** X15: a response that is not [ok], with a status below 500 other than
    429, ends the run at once: one request, nothing saved, [False]. *)
Theorem client_error_not_retried post save_ok series_name file_name
    file_path content base_output_folder r :
  post 0 = Value r ->
  ok r = false ->
  status_code r <> 429 ->
  status_code r < 500 ->
  process_single_file post save_ok series_name file_name file_path content
    base_output_folder
  = {| posts := 1; saved := None; returned := false |}.
Proof.
  intros Hpost Hok H429 H500.
  unfold process_single_file, max_retries. cbn [retry_loop].
  rewrite Hpost, Hok.
  apply Nat.eqb_neq in H429. rewrite H429.
  assert (E : Nat.leb 500 (status_code r) = false) by (apply Nat.leb_gt; lia).
  rewrite E. reflexivity.
Qed.

Lemma client_error_not_retried_witness :
  process_single_file (fun _ => Value forbidden) (fun _ _ => true)
    (lit "show") (lit "ep1") (lit "/base/show/ep1.srt") doc_two_cues
    (lit "/base")
  = {| posts := 1; saved := None; returned := false |}.
Proof.
  apply (client_error_not_retried (fun _ => Value forbidden) (fun _ _ => true)
           (lit "show") (lit "ep1") (lit "/base/show/ep1.srt") doc_two_cues
           (lit "/base") forbidden);
    [reflexivity | reflexivity | discriminate | simpl; lia].
Defined.

Lemma candidate_text_missing items :
  existsb (fun kv => str_eqb (fst kv) (lit "candidates")) items = false ->
  candidate_text (JDict items) = Value None.
Proof. intros H. unfold candidate_text. cbn [py_in and_then]. rewrite H. reflexivity. Qed.

(** X16: a response that is [ok] but whose object has no [candidates] is
    not the end of the run: the request is made again, and three such
    responses use up the three attempts. *)
Theorem missing_candidates_retried post save_ok series_name file_name
    file_path content base_output_folder :
  (forall attempt, attempt < 3 ->
     exists r items,
       post attempt = Value r /\ ok r = true /\
       json_body r = Value (JDict items) /\
       existsb (fun kv => str_eqb (fst kv) (lit "candidates")) items = false) ->
  process_single_file post save_ok series_name file_name file_path content
    base_output_folder
  = {| posts := 3; saved := None; returned := false |}.
Proof.
  intros H. unfold process_single_file, max_retries. cbn [retry_loop].
  destruct (H 0 ltac:(lia)) as (r0 & i0 & P0 & O0 & J0 & C0).
  destruct (H 1 ltac:(lia)) as (r1 & i1 & P1 & O1 & J1 & C1).
  destruct (H 2 ltac:(lia)) as (r2 & i2 & P2 & O2 & J2 & C2).
  rewrite P0, O0, J0, (candidate_text_missing i0 C0).
  rewrite P1, O1, J1, (candidate_text_missing i1 C1).
  rewrite P2, O2, J2, (candidate_text_missing i2 C2).
  reflexivity.
Qed.

Lemma missing_candidates_retried_witness :
  process_single_file (fun _ => Value no_candidates) (fun _ _ => true)
    (lit "show") (lit "ep1") (lit "/base/show/ep1.srt") doc_two_cues
    (lit "/base")
  = {| posts := 3; saved := None; returned := false |}.
Proof.
  apply (missing_candidates_retried (fun _ => Value no_candidates)
           (fun _ _ => true) (lit "show") (lit "ep1")
           (lit "/base/show/ep1.srt") doc_two_cues (lit "/base")).
  intros attempt _. exists no_candidates, [(lit "error", JStr (lit "busy"))].
  repeat split; reflexivity.
Defined.

Lemma retry_loop_transient post save_ok file_path series base text r result k :
  post k = Value r -> ok r = true ->
  json_body r = Value result ->
  candidate_text result = Value (Some (JStr text)) ->
  forall remaining done,
    done <= k -> k - done < remaining ->
    (forall a, done <= a -> a < k -> transient (post a) = true) ->
    retry_loop post save_ok file_path series base remaining done
    = let w := save_single_transliterated_file text file_path series base in
      {| posts := S (k - done); saved := Some w;
         returned := save_ok (fst w) (snd w) |}.
Proof.
  intros Hpost Hok Hbody Htext remaining.
  induction remaining as [| rem IH]; intros done Hle Hlt Htr; [lia |].
  cbn [retry_loop]. cbv zeta.
  destruct (Nat.eq_dec done k) as [-> | Hne].
  - rewrite Hpost, Hok, Hbody, Htext. rewrite Nat.sub_diag. reflexivity.
  - assert (Hnext : retry_loop post save_ok file_path series base rem (S done)
                    = {| posts := S (k - S done);
                         saved := Some (save_single_transliterated_file text
                                          file_path series base);
                         returned :=
                           save_ok
                             (fst (save_single_transliterated_file text
                                     file_path series base))
                             (snd (save_single_transliterated_file text
                                     file_path series base)) |}).
    { apply IH; [lia | lia |]. intros a Ha1 Ha2. apply Htr; lia. }
    assert (Hk : S (k - S done) = k - done) by lia.
    pose proof (Htr done (le_n _) ltac:(lia)) as Ht.
    unfold transient in Ht.
    destruct (post done) as [r0 | [| |]]; try discriminate.
    + apply andb_true_iff in Ht as [Hok0 Hst].
      apply negb_true_iff in Hok0. rewrite Hok0.
      destruct (Nat.eqb (status_code r0) 429).
      * rewrite Hnext. unfold one_more_post. cbn [posts saved returned].
        rewrite Hk. reflexivity.
      * cbn [orb] in Hst. rewrite Hst, Hnext. unfold one_more_post.
        cbn [posts saved returned]. rewrite Hk. reflexivity.
    + rewrite Hnext. unfold one_more_post. cbn [posts saved returned].
      rewrite Hk. reflexivity.
    + rewrite Hnext. unfold one_more_post. cbn [posts saved returned].
      rewrite Hk. reflexivity.
Qed.

(** X20: timeouts, request errors, rate limits and server errors are tried
    again: when the attempts before attempt [k] (one of the three) end that
    way and attempt [k] brings an [ok] response in whose JSON the lookups
    of the code reach a string [text], whatever else the response holds,
    [k + 1] requests are made, the sanitized text is saved, and the result
    is that of the save. *)
Theorem transient_failures_retried post save_ok series_name file_name
    file_path content base_output_folder text r result k :
  k < 3 ->
  (forall a, a < k -> transient (post a) = true) ->
  post k = Value r -> ok r = true ->
  json_body r = Value result ->
  candidate_text result = Value (Some (JStr text)) ->
  process_single_file post save_ok series_name file_name file_path content
    base_output_folder
  = let w := save_single_transliterated_file text file_path series_name
               base_output_folder in
    {| posts := S k; saved := Some w; returned := save_ok (fst w) (snd w) |}.
Proof.
  intros Hk Htr Hpost Hok Hbody Htext.
  unfold process_single_file, max_retries.
  rewrite (retry_loop_transient post save_ok file_path series_name
             base_output_folder text r result k Hpost Hok Hbody Htext 3 0);
    [rewrite Nat.sub_0_r; reflexivity | lia | lia |].
  intros a _ Ha. apply Htr, Ha.
Qed.

Lemma transient_failures_retried_witness :
  process_single_file (third_time_full (lit "1")) (fun _ _ => true)
    (lit "show") (lit "ep1") (lit "/base/show/ep1.srt") (lit "1")
    (lit "/base")
  = {| posts := 3;
       saved := Some (lit "/base/processed/show/ep1_telugu.srt", lit "1");
       returned := true |}.
Proof.
  rewrite (transient_failures_retried (third_time_full (lit "1"))
             (fun _ _ => true) (lit "show") (lit "ep1")
             (lit "/base/show/ep1.srt") (lit "1") (lit "/base") (lit "1")
             {| ok := true; status_code := 200;
                json_body := Value (full_result (lit "1")) |}
             (full_result (lit "1")) 2).
  - vm_compute. reflexivity.
  - lia.
  - intros [| [| a]] Ha; [reflexivity | reflexivity | lia].
  - reflexivity.
  - reflexivity.
  - reflexivity.
  - vm_compute. reflexivity.
Defined.

(** X21: when every attempt ends with a timeout, a request error, a rate
    limit or a server error, the three attempts are used up, nothing is
    saved and the result is [False]. *)
Theorem transient_failures_exhaust post save_ok series_name file_name
    file_path content base_output_folder :
  (forall a, a < 3 -> transient (post a) = true) ->
  process_single_file post save_ok series_name file_name file_path content
    base_output_folder
  = {| posts := 3; saved := None; returned := false |}.
Proof.
  intros Htr. unfold process_single_file, max_retries.
  assert (Hstep : forall a rest,
             transient (post a) = true ->
             one_more_post
               match post a with
               | Throws ExcTimeout => rest
               | Throws ExcRequest => rest
               | Throws ExcOther => gives_up
               | Value r =>
                   if ok r then
                     match json_body r with
                     | Throws ExcTimeout => rest
                     | Throws ExcRequest => rest
                     | Throws ExcOther => gives_up
                     | Value result =>
                         match candidate_text result with
                         | Throws ExcTimeout => rest
                         | Throws ExcRequest => rest
                         | Throws ExcOther => gives_up
                         | Value None => rest
                         | Value (Some text) =>
                             save_text save_ok text file_path series_name
                               base_output_folder
                         end
                     end
                   else if Nat.eqb (status_code r) 429 then rest
                   else if Nat.leb 500 (status_code r) then rest
                   else gives_up
               end
             = one_more_post rest).
  { intros a rest Ht. unfold transient in Ht.
    destruct (post a) as [r0 | [| |]]; try discriminate; try reflexivity.
    apply andb_true_iff in Ht as [Hok0 Hst].
    apply negb_true_iff in Hok0. rewrite Hok0.
    destruct (Nat.eqb (status_code r0) 429); [reflexivity |].
    cbn [orb] in Hst. rewrite Hst. reflexivity. }
  cbn [retry_loop]. cbv zeta.
  rewrite (Hstep 0), (Hstep 1), (Hstep 2) by (apply Htr; lia).
  reflexivity.
Qed.

Lemma transient_failures_exhaust_witness :
  process_single_file flaky (fun _ _ => true) (lit "show") (lit "ep1")
    (lit "/base/show/ep1.srt") (lit "1") (lit "/base")
  = {| posts := 3; saved := None; returned := false |}.
Proof.
  apply (transient_failures_exhaust flaky (fun _ _ => true) (lit "show")
           (lit "ep1") (lit "/base/show/ep1.srt") (lit "1") (lit "/base")).
  intros [| [| [| a]]] Ha; [reflexivity | reflexivity | reflexivity | lia].
Defined.

(** ** Reading a file, and a series of files *)

(** X17: [read_srt_file] returns the empty string or a content that is
    not blank: the content under the first encoding of its list that can
    be read and is not blank; it is empty only when no encoding gives
    such a content. *)
Theorem read_srt_file_result read_as file_path :
  let content := read_srt_file read_as file_path in
  is_empty (strip content) = is_empty content /\
  (content = [] ->
   forall encoding c,
     In encoding encodings -> read_as file_path encoding = Ok c ->
     strip c = []) /\
  (content <> [] ->
   exists before encoding after,
     encodings = before ++ encoding :: after /\
     read_as file_path encoding = Ok content /\
     forall e c, In e before -> read_as file_path e = Ok c -> strip c = []).
Proof.
  cbv zeta. unfold read_srt_file.
  generalize encodings as encs.
  induction encs as [| enc rest (IH1 & IH2 & IH3)].
  - simpl. repeat split; [intros _ e c [] | congruence].
  - cbn [first_readable].
    destruct (read_as file_path enc) as [c | err] eqn:E.
    + destruct (is_empty (strip c)) eqn:Eb; cbn [negb].
      * split; [exact IH1 |]. split.
        -- intros Hnil e c' [<- | Hin] Hc'.
           ++ rewrite E in Hc'. injection Hc' as <-.
              destruct (strip c); [reflexivity | discriminate].
           ++ apply (IH2 Hnil e c' Hin Hc').
        -- intros Hne. destruct (IH3 Hne) as (b & e & a & -> & Hr & Hb).
           exists (enc :: b), e, a. repeat split; [exact Hr |].
           intros e' c' [<- | Hin] Hc'.
           ++ rewrite E in Hc'. injection Hc' as <-.
              destruct (strip c); [reflexivity | discriminate].
           ++ apply (Hb e' c' Hin Hc').
      * split.
        -- rewrite Eb. destruct c; [discriminate | reflexivity].
        -- split.
           ++ intros ->. discriminate.
           ++ intros _. exists [], enc, rest. repeat split; [exact E |].
              intros e c' [].
    + split; [exact IH1 |]. split.
      * intros Hnil e c' [<- | Hin] Hc'; [congruence |].
        apply (IH2 Hnil e c' Hin Hc').
      * intros Hne. destruct (IH3 Hne) as (b & e & a & -> & Hr & Hb).
        exists (enc :: b), e, a. repeat split; [exact Hr |].
        intros e' c' [<- | Hin] Hc'; [congruence |].
        apply (Hb e' c' Hin Hc').
Qed.

Lemma read_srt_file_result_witness :
  read_srt_file (fun _ _ => Ok (lit "  ")) (lit "/base/show/ep1.srt") = [] /\
  strip (lit "  ") = [].
Proof.
  split; [reflexivity |].
  apply (proj1 (proj2 (read_srt_file_result (fun _ _ => Ok (lit "  "))
                         (lit "/base/show/ep1.srt")))
           eq_refl (lit "utf-8") (lit "  "));
    [left; reflexivity | reflexivity].
Defined.

Lemma series_runs_length read_as post save_ok series base files :
  forall index,
    length (series_runs read_as post save_ok series base files index)
    <= length files.
Proof.
  induction files as [| [name path] rest IH]; intros index; [reflexivity |].
  cbn [series_runs]. cbv zeta.
  destruct (is_empty (strip (read_srt_file read_as path))); simpl.
  - apply Nat.le_le_succ_r, IH.
  - apply le_n_S, IH.
Qed.

Lemma series_runs_posts read_as post save_ok series base files :
  forall index,
    total_posts (series_runs read_as post save_ok series base files index)
    <= 3 * length (series_runs read_as post save_ok series base files index).
Proof.
  induction files as [| [name path] rest IH]; intros index; [reflexivity |].
  cbn [series_runs]. cbv zeta.
  destruct (is_empty (strip (read_srt_file read_as path))); [apply IH |].
  cbn [total_posts fold_right length].
  pose proof (process_single_file_bounds (post index) save_ok series name path
                (read_srt_file read_as path) base) as [Hp _].
  specialize (IH (S index)). unfold total_posts in IH. lia.
Qed.

Lemma series_runs_blank read_as post save_ok series base files :
  (forall name path encoding c,
      In (name, path) files -> read_as path encoding = Ok c -> strip c = []) ->
  forall index, series_runs read_as post save_ok series base files index = [].
Proof.
  induction files as [| [name path] rest IH]; intros Hblank index;
    [reflexivity |].
  cbn [series_runs]. cbv zeta.
  assert (E : read_srt_file read_as path = []).
  { destruct (read_srt_file read_as path) as [| ch s] eqn:Er; [reflexivity |].
    exfalso.
    destruct (read_srt_file_result read_as path) as (H1 & _ & H3).
    cbv zeta in H1, H3. rewrite Er in H1, H3.
    destruct (H3 ltac:(discriminate)) as (b & e & a & _ & Hr & _).
    pose proof (Hblank name path e (ch :: s) (or_introl eq_refl) Hr) as Hs.
    rewrite Hs in H1. discriminate. }
  rewrite E. simpl. apply IH.
  intros n p e c Hin. apply (Hblank n p e c). right. exact Hin.
Qed.

(** X18: a series costs at most three requests for each of its files; it
    is reported as done exactly when the run of one of its files returned
    [True]; and files that are blank under every encoding are passed over
    without a request. *)
Theorem process_series_requests read_as post save_ok series_name srt_files
    base_output_folder :
  let r := process_series read_as post save_ok series_name srt_files
             base_output_folder in
  total_posts (fst r) <= 3 * length srt_files /\
  (snd r = true <-> exists x, In x (fst r) /\ returned x = true) /\
  ((forall name path encoding c,
       In (name, path) srt_files -> read_as path encoding = Ok c ->
       strip c = []) ->
   r = ([], false)).
Proof.
  cbv zeta. unfold process_series.
  destruct srt_files as [| f rest] eqn:Ef.
  - simpl. repeat split; try lia; try discriminate.
    intros (x & [] & _).
  - rewrite <- Ef. cbn [is_empty]. replace (is_empty srt_files) with false
      by (rewrite Ef; reflexivity).
    cbn [fst snd]. split; [| split].
    + etransitivity; [apply series_runs_posts |].
      apply Nat.mul_le_mono_l, series_runs_length.
    + unfold success_count. rewrite Nat.ltb_lt. split.
      * intros H.
        destruct (filter returned
                    (series_runs read_as post save_ok series_name
                       base_output_folder srt_files 0)) as [| x xs] eqn:E;
          [simpl in H; lia |].
        assert (Hin : In x (x :: xs)) by (left; reflexivity).
        rewrite <- E in Hin. apply filter_In in Hin. exists x. exact Hin.
      * intros (x & Hin & Hx).
        assert (Hf : In x (filter returned
                             (series_runs read_as post save_ok series_name
                                base_output_folder srt_files 0)))
          by (apply filter_In; auto).
        destruct (filter returned _); [destruct Hf | simpl; lia].
    + intros Hblank.
      rewrite (series_runs_blank read_as post save_ok series_name
                 base_output_folder srt_files Hblank 0).
      reflexivity.
Qed.

Lemma process_series_requests_witness :
  process_series (fun _ _ => Ok (lit "  ")) (fun _ _ => Value forbidden)
    (fun _ _ => true) (lit "show")
    [(lit "ep1", lit "/base/show/ep1.srt")] (lit "/base")
  = ([], false).
Proof.
  apply (proj2 (proj2 (process_series_requests
                         (fun _ _ => Ok (lit "  ")) (fun _ _ => Value forbidden)
                         (fun _ _ => true) (lit "show")
                         [(lit "ep1", lit "/base/show/ep1.srt")] (lit "/base")))).
  intros name path encoding c _ Hc. injection Hc as <-. reflexivity.
Defined.

(** ** A combined response cut into files *)

Lemma split_from_none sep s :
  contains s sep = false ->
  forall piece, split_from 0 sep s piece = [piece ++ s].
Proof.
  induction s as [| c s IH]; intros Hc piece.
  - simpl. rewrite app_nil_r. reflexivity.
  - cbn [contains] in Hc. apply orb_false_iff in Hc as [Hs Hc].
    cbn [split_from]. rewrite Hs, (IH Hc), <- app_assoc. reflexivity.
Qed.

Lemma sections_loop_length sections series base files :
  forall i,
    length (sections_loop sections series base files i)
    = Nat.min (length files) (length sections - 1 - i).
Proof.
  induction files as [| [name path] rest IH]; intros i; [reflexivity |].
  cbn [sections_loop]. cbv zeta.
  destruct (Nat.ltb (i + 1) (length sections)) eqn:E.
  - apply Nat.ltb_lt in E. cbn [length]. rewrite IH. lia.
  - apply Nat.ltb_ge in E. rewrite IH. cbn [length]. lia.
Qed.

Lemma sections_loop_stripped sections series base files :
  forall i,
    Forall (fun w => strip (snd w) = snd w)
      (sections_loop sections series base files i).
Proof.
  induction files as [| [name path] rest IH]; intros i; [constructor |].
  cbn [sections_loop]. cbv zeta.
  destruct (Nat.ltb (i + 1) (length sections)); [| apply IH].
  constructor; [| apply IH]. cbn [snd].
  destruct (Nat.ltb 1 _); apply strip_idem.
Qed.

(** X19: [split_and_save_transliterated_content] cuts the response at the
    separator [===] and asks for one save for each file that has a section
    after the first one, in the order of the files: the text before the
    first separator is never saved, and a response without a separator
    saves nothing and gives [False].  Every content it saves is without
    surrounding whitespace, and it gives [True] only when a save
    succeeded. *)
Theorem split_and_save_sections save_ok content file_info series_name
    base_output_folder :
  let r := split_and_save_transliterated_content save_ok content file_info
             series_name base_output_folder in
  length (fst r)
  = Nat.min (length file_info)
      (length (split_str (lit "===") content) - 1) /\
  Forall (fun w => strip (snd w) = snd w) (fst r) /\
  (snd r = true ->
   exists w, In w (fst r) /\ save_ok (fst w) (snd w) = true) /\
  (contains content (lit "===") = false -> r = ([], false)).
Proof.
  cbv zeta. unfold split_and_save_transliterated_content. cbn [fst snd].
  split; [| split; [| split]].
  - rewrite sections_loop_length. f_equal. lia.
  - apply sections_loop_stripped.
  - intros H. apply Nat.ltb_lt in H.
    destruct (filter _ _) as [| w ws] eqn:E in H; [simpl in H; lia |].
    assert (Hin : In w (w :: ws)) by (left; reflexivity).
    rewrite <- E in Hin. apply filter_In in Hin. exists w. exact Hin.
  - intros Hc. unfold split_str. rewrite (split_from_none _ _ Hc).
    assert (E : sections_loop [[] ++ content] series_name base_output_folder
                  file_info 0 = []).
    { apply length_zero_iff_nil. rewrite sections_loop_length.
      cbn [length]. lia. }
    rewrite E. reflexivity.
Qed.

Lemma split_and_save_sections_witness :
  split_and_save_transliterated_content (fun _ _ => true)
    (lit "1 == 2") [(lit "ep1", lit "/base/show/ep1.srt")]
    (lit "show") (lit "/base")
  = ([], false).
Proof.
  apply (proj2 (proj2 (proj2 (split_and_save_sections (fun _ _ => true)
    (lit "1 == 2") [(lit "ep1", lit "/base/show/ep1.srt")]
    (lit "show") (lit "/base"))))).
  reflexivity.
Defined.

(** * Text lines and number lines of the two passes *)

(** ** Lines of the input and lines of the stripped input *)

Lemma drop_while_snoc {A} (f : A -> bool) xs a :
  drop_while f (xs ++ [a])
  = match drop_while f xs with
    | [] => if f a then [] else [a]
    | t => t ++ [a]
    end.
Proof.
  induction xs as [| x xs IH]; [reflexivity |].
  simpl. destruct (f x); [exact IH | reflexivity].
Qed.

Lemma drop_trailing_blank_cons a ls :
  drop_trailing_blank (a :: ls)
  = match drop_trailing_blank ls with
    | [] => if blank a then [] else [a]
    | t => a :: t
    end.
Proof.
  unfold drop_trailing_blank. cbn [rev]. rewrite drop_while_snoc.
  destruct (drop_while blank (rev ls)) as [| x xs].
  - simpl. destruct (blank a); reflexivity.
  - rewrite rev_app_distr. change (rev [a]) with [a]. cbn [app].
    destruct (rev (x :: xs)) as [| y ys] eqn:E; [| reflexivity].
    apply (f_equal (@length _)) in E. rewrite length_rev in E. discriminate.
Qed.

Lemma drop_trailing_blank_snoc ls l :
  drop_trailing_blank (ls ++ [l])
  = if blank l then drop_trailing_blank ls else ls ++ [l].
Proof.
  unfold drop_trailing_blank. rewrite rev_app_distr. cbn [rev app drop_while].
  destruct (blank l); [reflexivity |].
  cbn [rev]. rewrite rev_involutive. reflexivity.
Qed.

Lemma strip_cons_ws c s : isspace_c c = true -> strip (c :: s) = strip s.
Proof. intros Hc. unfold strip. cbn [lstrip]. rewrite Hc. reflexivity. Qed.

Lemma strip_snoc_ws s c : isspace_c c = true -> strip (s ++ [c]) = strip s.
Proof.
  intros Hc. unfold strip. rewrite lstrip_app.
  destruct (forallb isspace_c s) eqn:Hs.
  - cbn [lstrip]. rewrite Hc. cbn [lstrip].
    rewrite (lstrip_all_ws s Hs). reflexivity.
  - rewrite rstrip_app. cbn [forallb]. rewrite Hc. reflexivity.
Qed.

Lemma kept_text_ext l1 :
  forall l2, map strip l1 = map strip l2 -> kept_text l1 = kept_text l2.
Proof.
  assert (Hf : forall l1 l2, map strip l1 = map strip l2 ->
             map strip (filter (fun l => negb (is_number_line l)) l1)
             = map strip (filter (fun l => negb (is_number_line l)) l2)).
  { clear l1. induction l1 as [| a l1 IH]; intros [| b l2] H;
      try discriminate; [reflexivity |].
    cbn [map] in H. injection H as Hab Hrest.
    assert (Hn : is_number_line a = is_number_line b)
      by (unfold is_number_line; rewrite Hab; reflexivity).
    cbn [filter]. rewrite Hn.
    destruct (negb (is_number_line b)); cbn [map];
      [rewrite Hab; f_equal |]; apply (IH _ Hrest). }
  induction l1 as [| a l1 IH]; intros [| b l2] H; try discriminate;
    [reflexivity |].
  cbn [map] in H. injection H as Hab Hrest.
  assert (Hb : blank_or_number a = blank_or_number b).
  { unfold blank_or_number, is_number_line. rewrite Hab. reflexivity. }
  unfold kept_text. cbn [drop_while]. rewrite Hb.
  destruct (blank_or_number b).
  - apply (IH _ Hrest).
  - apply Hf. cbn [map]. rewrite Hab, Hrest. reflexivity.
Qed.

Lemma blank_cons_ws c s : isspace_c c = true -> blank (c :: s) = blank s.
Proof. intros Hc. unfold blank. rewrite (strip_cons_ws c s Hc). reflexivity. Qed.

Lemma kept_text_blank a ls : blank a = true -> kept_text (a :: ls) = kept_text ls.
Proof.
  intros Ha. apply kept_text_cons_drop. unfold blank_or_number.
  unfold blank in Ha. rewrite Ha. apply orb_true_r.
Qed.

(** A whitespace character in front of the input does not change what is
    kept. *)
Lemma kept_text_leading_ws c s :
  isspace_c c = true ->
  kept_text (drop_trailing_blank (split NL (c :: s)))
  = kept_text (drop_trailing_blank (split NL s)).
Proof.
  intros Hc. cbn [split].
  destruct (N.eqb c NL) eqn:E.
  - rewrite drop_trailing_blank_cons.
    destruct (drop_trailing_blank (split NL s)) as [| x xs];
      [reflexivity |].
    apply kept_text_blank. reflexivity.
  - destruct (split NL s) as [| h t] eqn:Es;
      [exfalso; apply (split_nonempty NL s Es) |].
    rewrite !drop_trailing_blank_cons, (blank_cons_ws c h Hc).
    destruct (drop_trailing_blank t) as [| x xs].
    + destruct (blank h); [reflexivity |].
      apply kept_text_ext. cbn [map]. rewrite (strip_cons_ws c h Hc).
      reflexivity.
    + apply kept_text_ext. cbn [map]. rewrite (strip_cons_ws c h Hc).
      reflexivity.
Qed.

Lemma kept_text_lstrip s :
  kept_text (drop_trailing_blank (split NL (lstrip s)))
  = kept_text (drop_trailing_blank (split NL s)).
Proof.
  induction s as [| c s IH]; [reflexivity |].
  cbn [lstrip]. destruct (isspace_c c) eqn:Hc; [| reflexivity].
  rewrite IH. symmetry. apply (kept_text_leading_ws c s Hc).
Qed.

Lemma isspace_NL : isspace_c NL = true.
Proof. reflexivity. Qed.

(** A whitespace character at the end of the input changes the lines
    before the trailing blank ones by trailing whitespace only. *)
Lemma drop_trailing_blank_trailing_ws s c :
  isspace_c c = true ->
  map strip (drop_trailing_blank (split NL (s ++ [c])))
  = map strip (drop_trailing_blank (split NL s)).
Proof.
  intros Hc. destruct (N.eqb c NL) eqn:E.
  - apply N.eqb_eq in E. subst c.
    rewrite (split_app_general NL s []). cbn [split].
    rewrite drop_trailing_blank_snoc. reflexivity.
  - assert (Hne : c <> NL) by (intros ->; rewrite N.eqb_refl in E; discriminate).
    rewrite (split_snoc NL s c Hne).
    assert (Hl : split NL s
                 = removelast (split NL s) ++ [last (split NL s) []]).
    { apply app_removelast_last. apply split_nonempty. }
    rewrite Hl at 3. rewrite !drop_trailing_blank_snoc.
    unfold blank. rewrite (strip_snoc_ws _ c Hc).
    destruct (is_empty (strip (last (split NL s) []))); [reflexivity |].
    rewrite !map_app. cbn [map]. rewrite (strip_snoc_ws _ c Hc). reflexivity.
Qed.

Lemma drop_trailing_blank_trailing w :
  forallb isspace_c w = true ->
  forall s,
    map strip (drop_trailing_blank (split NL (s ++ w)))
    = map strip (drop_trailing_blank (split NL s)).
Proof.
  induction w as [| c w IH]; intros Hw s.
  - rewrite app_nil_r. reflexivity.
  - cbn [forallb] in Hw. apply andb_true_iff in Hw as [Hc Hw].
    change (s ++ c :: w) with (s ++ [c] ++ w). rewrite app_assoc.
    rewrite (IH Hw). apply (drop_trailing_blank_trailing_ws s c Hc).
Qed.

Lemma rstrip_split s :
  exists w, s = rstrip s ++ w /\ forallb isspace_c w = true.
Proof.
  induction s as [| c s (w & Hs & Hw)].
  - exists []. split; reflexivity.
  - rewrite rstrip_cons. destruct (forallb isspace_c (c :: s)) eqn:E.
    + exists (c :: s). split; [reflexivity | exact E].
    + exists w. split; [cbn [app]; f_equal; exact Hs | exact Hw].
Qed.

(** The lines of a stripped input: none of them is a trailing blank
    line, but for the one line of the empty input. *)
Lemma kept_text_stripped s :
  ends_ws s = false ->
  kept_text (drop_trailing_blank (split NL s)) = kept_text (split NL s).
Proof.
  intros He. destruct s as [| c0 s0] using rev_ind; [reflexivity |].
  clear IHs0. unfold ends_ws in He. rewrite rev_app_distr in He.
  cbn [rev app starts_ws] in He.
  assert (Hne : c0 <> NL) by (intros ->; discriminate).
  rewrite (split_snoc NL s0 c0 Hne), drop_trailing_blank_snoc.
  assert (Hb : blank (last (split NL s0) [] ++ [c0]) = false).
  { unfold blank.
    destruct (strip (last (split NL s0) [] ++ [c0])) eqn:Es; [| reflexivity].
    apply strip_nil_iff in Es. rewrite forallb_app in Es.
    apply andb_true_iff in Es as [_ Es]. cbn [forallb] in Es.
    rewrite He in Es. discriminate. }
  rewrite Hb. reflexivity.
Qed.

Lemma kept_text_strip content :
  kept_text (split NL (strip content))
  = kept_text (drop_trailing_blank (split NL content)).
Proof.
  rewrite <- (kept_text_lstrip content). unfold strip.
  destruct (rstrip_split (lstrip content)) as (w & Hs & Hw).
  transitivity
    (kept_text
       (drop_trailing_blank (split NL (rstrip (lstrip content) ++ w))));
    [| rewrite <- Hs; reflexivity].
  rewrite (kept_text_ext _ _
             (drop_trailing_blank_trailing w Hw (rstrip (lstrip content)))).
  symmetry. apply kept_text_stripped, rstrip_ends.
Qed.

(** C7, amended: in both passes the input lines that are not numbers, from
    the first one that is not blank up to the last line of the input that
    is not blank, reach the output in order, each with its leading and
    trailing whitespace stripped and otherwise unchanged; the blank lines
    before that first line and the blank lines at the end of the input are
    dropped, and no other line that is not a number appears in the
    output. *)
Theorem text_lines_pass_stripped content :
  filter not_number (output_lines (clean_srt_content content))
  = kept_text (drop_trailing_blank (split NL content)) /\
  filter not_number (output_lines (fix_srt_numbering content))
  = kept_text (drop_trailing_blank (split NL content)).
Proof.
  rewrite <- kept_text_strip.
  rewrite clean_srt_content_emit, fix_srt_numbering_emit.
  rewrite !output_lines_join
    by (first [ apply clean_emit_tidy, split_no_sep | apply clean_emit_head
              | apply fix_emit_tidy, split_no_sep | apply fix_emit_head ]).
  split; [apply clean_emit_kept | apply fix_emit_kept].
Qed.

(** The amended C7 at a document with interior and trailing blank lines. *)
Example text_lines_of_trailing_blank :
  split NL doc_trailing_blank
  = [lit "Hello"; lit ""; lit "world"; lit ""; lit "  "] /\
  output_lines (clean_srt_content doc_trailing_blank)
  = [lit "Hello"; lit ""; lit "world"] /\
  output_lines (fix_srt_numbering doc_trailing_blank)
  = [lit "Hello"; lit ""; lit "world"].
Proof. repeat split; vm_compute; reflexivity. Qed.

(** ** Confirmation of a number line *)

Lemma renumber_app a :
  forall k b,
    renumber k (a ++ b)
    = renumber k a ++ renumber (k + length (filter isdigit a)) b.
Proof.
  induction a as [| l a IH]; intros k b.
  - cbn [app renumber filter length]. rewrite Nat.add_0_r. reflexivity.
  - cbn [app renumber filter]. destruct (isdigit l).
    + cbn [app length]. rewrite IH. do 3 f_equal. lia.
    + cbn [app]. rewrite IH. reflexivity.
Qed.

Lemma renumber_count ls :
  forall k, length (filter isdigit (renumber k ls)) = length (filter isdigit ls).
Proof.
  induction ls as [| l ls IH]; intros k; [reflexivity |].
  cbn [renumber filter]. destruct (isdigit l) eqn:Hl.
  - cbn [filter]. rewrite isdigit_str_of_nat. cbn [length]. rewrite IH.
    reflexivity.
  - cbn [filter]. rewrite Hl. apply IH.
Qed.

(** C9: a number line whose next line, stripped, starts with an interval
    is kept by [clean_srt_content] and numbered by [fix_srt_numbering],
    directly before that line and after what the lines before it give,
    whatever follows the interval on the line; and the two passes keep
    the same lines: the output of the second is the output of the first
    with its numbers counted from 1. *)
Theorem confirmation_is_prefix_match :
  (forall content pre n nxt rest ts trailing,
      split NL (strip content) = pre ++ n :: nxt :: rest ->
      is_number_line n = true ->
      re_seq timestamp_pattern ts = Some [] ->
      strip nxt = ts ++ trailing ->
      (exists after,
          output_lines (clean_srt_content content)
          = clean_loop pre [] ++ strip n :: strip nxt :: after) /\
      (exists after,
          output_lines (fix_srt_numbering content)
          = fix_loop pre 1 []
            ++ str_of_nat (S (length (filter isdigit (fix_loop pre 1 []))))
            :: strip nxt :: after)) /\
  (forall content,
      output_lines (fix_srt_numbering content)
      = renumber 1 (output_lines (clean_srt_content content))).
Proof.
  assert (Hout : forall content,
             output_lines (clean_srt_content content)
             = clean_emit (split NL (strip content)) false /\
             output_lines (fix_srt_numbering content)
             = renumber 1 (clean_emit (split NL (strip content)) false)).
  { intros content.
    rewrite clean_srt_content_emit, fix_srt_numbering_emit.
    rewrite !output_lines_join
      by (first [ apply clean_emit_tidy, split_no_sep | apply clean_emit_head
                | apply fix_emit_tidy, split_no_sep | apply fix_emit_head ]).
    split; [reflexivity | apply fix_emit_renumber]. }
  split.
  - intros content pre n nxt rest ts trailing Hlines Hn Hts Hnxt.
    destruct (Hout content) as [Hc Hf]. rewrite Hc, Hf, Hlines.
    assert (Hm : re_match timestamp_pattern (strip nxt) = true).
    { rewrite Hnxt. apply re_match_prefix. unfold re_match. rewrite Hts.
      reflexivity. }
    assert (E : clean_emit (pre ++ n :: nxt :: rest) false
                = clean_emit pre false
                  ++ strip n :: strip nxt :: clean_emit rest true).
    { rewrite (clean_emit_app pre _ (number_line_not_confirmed n _ Hn)).
      f_equal. rewrite clean_emit_cons.
      unfold is_number_line in Hn. rewrite Hn.
      unfold confirmed at 1. rewrite Hm. f_equal.
      apply clean_emit_interval. exact Hm. }
    rewrite E, clean_loop_emit, fix_loop_emit, fix_emit_renumber.
    cbn [app is_empty negb]. split.
    + exists (clean_emit rest true). reflexivity.
    + rewrite renumber_app, renumber_count. cbn [renumber].
      unfold is_number_line in Hn. rewrite Hn.
      rewrite (re_match_not_digit _ Hm).
      rewrite Nat.add_1_r. eexists. reflexivity.
  - intros content. destruct (Hout content) as [Hc Hf].
    rewrite Hc. exact Hf.
Qed.

(** C9 at [doc_interval_with_tail]: the [7] before the interval that has
    coordinates after it is kept, and becomes [2]. *)
Lemma confirmation_is_prefix_match_witness :
  (exists after,
      output_lines (clean_srt_content doc_interval_with_tail)
      = clean_loop [lit "4"; interval_B; lit "Hi"] []
        ++ strip (lit "7") :: strip interval_with_tail :: after) /\
  (exists after,
      output_lines (fix_srt_numbering doc_interval_with_tail)
      = fix_loop [lit "4"; interval_B; lit "Hi"] 1 []
        ++ str_of_nat
             (S (length (filter isdigit
                           (fix_loop [lit "4"; interval_B; lit "Hi"] 1 []))))
        :: strip interval_with_tail :: after).
Proof.
  apply (proj1 confirmation_is_prefix_match doc_interval_with_tail
           [lit "4"; interval_B; lit "Hi"] (lit "7") interval_with_tail
           [lit "Hello"] interval_A (lit " X1:100 Y1:50"));
    vm_compute; reflexivity.
Defined.

(** The outputs at [doc_interval_with_tail]. *)
Example confirmation_with_tail :
  output_lines (clean_srt_content doc_interval_with_tail)
  = [lit "4"; interval_B; lit "Hi"; lit "7";
     lit "00:00:01,000 --> 00:00:02,000 X1:100 Y1:50"; lit "Hello"] /\
  output_lines (fix_srt_numbering doc_interval_with_tail)
  = [lit "1"; interval_B; lit "Hi"; lit "2";
     lit "00:00:01,000 --> 00:00:02,000 X1:100 Y1:50"; lit "Hello"].
Proof. split; vm_compute; reflexivity. Qed.
